(** * PDF pagination and export pipeline of the content browser

    A shallow embedding of the three copies of [splitContentIntoPages]
    (QAView, GenericContentView, NotesView) and of the three
    [handleExportConfirm] handlers, with the properties of the
    natural-language specification stated and settled against them.

    Conventions.
    - HTML text is a [string]; only ASCII structure is ever inspected.
    - A pixel height is a [Z] (JavaScript number holding an integer).
    - The browser is not part of the repository: the DOM is modelled by a
      small tree type with the handful of accessors the code calls, and the
      height probe ([tempDiv.offsetHeight] after the probe holds one node) is
      a parameter [measure]. *)

From Stdlib Require Import ZArith String Ascii List Bool Lia DecimalString.
From stdpp Require Import base list strings gmap.
Import ListNotations.

Local Open Scope Z_scope.

(* ===================================================================== *)
(** * JavaScript string helpers *)
(* ===================================================================== *)

Module Js.

(** The double-quote character, kept out of the literals below. *)
Definition dq : string := String (ascii_of_nat 34) EmptyString.

(** [a !== b] on strings. *)
Definition strictNe (a b : string) : bool := negb (String.eqb a b).

(** Truthiness of a string: the empty string is falsy. *)
Definition truthy (s : string) : bool := strictNe s "".

(** [parts.join('')]. *)
Fixpoint concatStr (l : list string) : string :=
  match l with
  | [] => ""
  | s :: r => s +:+ concatStr r
  end.


(** ASCII part of [\s]: tab, line feed, vertical tab, form feed, carriage
    return and space. *)
Definition isSpace (c : ascii) : bool :=
  let n := nat_of_ascii c in
  ((9 <=? n)%nat && (n <=? 13)%nat) || (n =? 32)%nat.

Definition lowerChar (c : ascii) : ascii :=
  let n := nat_of_ascii c in
  if ((65 <=? n)%nat && (n <=? 90)%nat) then ascii_of_nat (n + 32) else c.

Definition upperChar (c : ascii) : ascii :=
  let n := nat_of_ascii c in
  if ((97 <=? n)%nat && (n <=? 122)%nat) then ascii_of_nat (n - 32) else c.

Fixpoint mapStr (f : ascii -> ascii) (s : string) : string :=
  match s with
  | EmptyString => EmptyString
  | String c r => String (f c) (mapStr f r)
  end.

Definition toLowerCase : string -> string := mapStr lowerChar.
Definition toUpperCase : string -> string := mapStr upperChar.

(** [s.trimStart()], [s.trimEnd()], [s.trim()]. *)
Fixpoint trimStart (s : string) : string :=
  match s with
  | EmptyString => EmptyString
  | String c r => if isSpace c then trimStart r else s
  end.

Fixpoint trimEnd (s : string) : string :=
  match s with
  | EmptyString => EmptyString
  | String c r =>
      let r' := trimEnd r in
      if isSpace c && String.eqb r' EmptyString then EmptyString
      else String c r'
  end.

Definition trim (s : string) : string := trimEnd (trimStart s).

(** [s.split(/\s+/)]: the pieces between maximal runs of white space; a
    leading or trailing run yields an empty first or last piece, and the
    empty string yields one empty piece. [cur] is the piece being read;
    [inRun] tells that the previous character was white space. *)
Fixpoint splitWs_go (s : string) (cur : string) (inRun : bool) : list string :=
  match s with
  | EmptyString => [cur]
  | String c r =>
      if isSpace c then
        if inRun then splitWs_go r cur true
        else cur :: splitWs_go r EmptyString true
      else splitWs_go r (cur +:+ String c EmptyString) false
  end.

Definition splitWs (s : string) : list string := splitWs_go s EmptyString false.

(** The words of a text: the non-empty pieces between white space. *)
Definition words (s : string) : list string := List.filter truthy (splitWs s).

Fixpoint hasNoSpace (s : string) : bool :=
  match s with
  | EmptyString => true
  | String c r => negb (isSpace c) && hasNoSpace r
  end.

End Js.

(* ===================================================================== *)
(** * The DOM as the paginators see it *)
(* ===================================================================== *)

Module Dom.
Import Js.

(** A node is a text node or an element with its [tagName] (upper case for
    HTML elements), its attributes and its child nodes. *)
#[warnings="-register-all"]
Inductive Node : Type :=
| Text (data : string)
| Elem (tagName : string) (attributes : list (string * string))
       (childNodes : list Node).

Definition isElement (n : Node) : bool :=
  match n with Elem _ _ _ => true | Text _ => false end.

Definition tagName (n : Node) : string :=
  match n with Elem t _ _ => t | Text _ => "" end.

Definition attributes (n : Node) : list (string * string) :=
  match n with Elem _ a _ => a | Text _ => [] end.

Definition childNodes (n : Node) : list Node :=
  match n with Elem _ _ k => k | Text _ => [] end.

(** [el.children]: the element children, in order. *)
Definition children (n : Node) : list Node :=
  List.filter isElement (childNodes n).

(** [el.textContent]: the text of all descendants, in document order. *)
Fixpoint textContent (n : Node) : string :=
  match n with
  | Text d => d
  | Elem _ _ kids => concatStr (List.map textContent kids)
  end.

(** [el.querySelectorAll('tr')]: the descendants (not the element itself)
    whose tag is TR, in document order. *)
Fixpoint descendantsTagged (tag : string) (n : Node) : list Node :=
  match n with
  | Text _ => []
  | Elem _ _ kids =>
      List.concat
        (List.map (fun k =>
           (if isElement k && String.eqb (toUpperCase (tagName k)) tag
            then [k] else []) ++ descendantsTagged tag k) kids)
  end.

Definition querySelectorAll_tr (n : Node) : list Node :=
  descendantsTagged "TR" n.

(** [el.style.cssText], read off the style attribute. *)
Fixpoint lookupAttr (name : string) (attrs : list (string * string)) : string :=
  match attrs with
  | [] => ""
  | (k, v) :: r => if String.eqb k name then v else lookupAttr name r
  end.

Definition cssText (n : Node) : string := lookupAttr "style" (attributes n).

(** Serialisation. *)
Fixpoint escapeWith (quot : bool) (s : string) : string :=
  match s with
  | EmptyString => EmptyString
  | String c r =>
      let n := nat_of_ascii c in
      (if (n =? 38)%nat then "&amp;"
       else if negb quot && (n =? 60)%nat then "&lt;"
       else if negb quot && (n =? 62)%nat then "&gt;"
       else if quot && (n =? 34)%nat then "&quot;"
       else String c EmptyString) +:+ escapeWith quot r
  end.

Definition serializeAttr (a : string * string) : string :=
  " " +:+ fst a +:+ "=" +:+ dq +:+ escapeWith true (snd a) +:+ dq.

Definition isVoid (name : string) : bool :=
  existsb (String.eqb name)
    ["area"; "base"; "br"; "col"; "embed"; "hr"; "img"; "input"; "link";
     "meta"; "source"; "track"; "wbr"].

Definition openTag (n : Node) : string :=
  "<" +:+ toLowerCase (tagName n) +:+
  concatStr (List.map serializeAttr (attributes n)) +:+ ">".

Definition closeTag (n : Node) : string :=
  "</" +:+ toLowerCase (tagName n) +:+ ">".

(** [el.outerHTML]. *)
Fixpoint outerHTML (n : Node) : string :=
  match n with
  | Text d => escapeWith false d
  | Elem t attrs kids =>
      openTag (Elem t attrs []) +:+
      (if isVoid (toLowerCase t) then ""
       else concatStr (List.map outerHTML kids) +:+ closeTag (Elem t attrs []))
  end.

(** [el.innerHTML]. *)
Definition innerHTML (n : Node) : string :=
  concatStr (List.map outerHTML (childNodes n)).

(** [isHeading]: [/^H[1-6]$/i.test(el.tagName)]. *)
Definition isHeading (el : Node) : bool :=
  existsb (String.eqb (toUpperCase (tagName el)))
    ["H1"; "H2"; "H3"; "H4"; "H5"; "H6"].

End Dom.

(* ===================================================================== *)
(** * The paginator state shared by the three copies *)
(* ===================================================================== *)

Module Paginator.
Import Js Dom.

Definition maxHeightPerPage : Z := 900.
Definition headingThreshold : Z := 150.
Definition spacing : Z := 8.

(** The spacer element appended between blocks. *)
Definition spacerHTML : string :=
  "<div style=" +:+ dq +:+ "height: 8px;" +:+ dq +:+ "></div>".

(** The loop variables [pages], [currentPageHTML] and [currentHeight]. *)
Record PState : Type := mkPState {
  pages : list string;
  currentPageHTML : string;
  currentHeight : Z
}.

Definition initial : PState :=
  {| pages := []; currentPageHTML := ""; currentHeight := 0 |}.

(** [pages.push(currentPageHTML); currentPageHTML = ''; currentHeight = 0]. *)
Definition flush (s : PState) : PState :=
  {| pages := pages s ++ [currentPageHTML s];
     currentPageHTML := "";
     currentHeight := 0 |}.

(** [currentPageHTML += html; currentHeight += h]. *)
Definition append (html : string) (h : Z) (s : PState) : PState :=
  {| pages := pages s;
     currentPageHTML := currentPageHTML s +:+ html;
     currentHeight := currentHeight s + h |}.

(** The heading rule: a heading does not start in the last [headingThreshold]
    pixels of a page that already holds something. *)
Definition headingBreak (clone : Node) (s : PState) : PState :=
  if isHeading clone then
    let spaceLeft := maxHeightPerPage - currentHeight s in
    if (spaceLeft <? headingThreshold) && strictNe (currentPageHTML s) ""
    then flush s else s
  else s.

(** The guarded flush that precedes every append of [h] more pixels. *)
Definition breakIfOverflow (h : Z) (s : PState) : PState :=
  if (currentHeight s + h >? maxHeightPerPage) && strictNe (currentPageHTML s) ""
  then flush s else s.

(** The spacer after every block but the last. *)
Definition addSpacing (s : PState) : PState :=
  append spacerHTML spacing (breakIfOverflow spacing s).

(** The statements after the loop: the last page is pushed when it holds
    something, and a run that produced no page yields the placeholder. *)
Definition finish (placeholder : string) (s : PState) : list string :=
  let pages1 :=
    if strictNe (currentPageHTML s) "" then pages s ++ [currentPageHTML s]
    else pages s in
  if (length pages1 =? 0)%nat then [placeholder] else pages1.

(** The [for] loop over [blockElements]: [step] is the body up to the spacer,
    which follows every block except the last ([i < length - 1]). *)
Fixpoint loop (step : Node -> PState -> PState) (blockElements : list Node)
    (s : PState) : PState :=
  match blockElements with
  | [] => s
  | element :: rest =>
      let s1 := step element s in
      let s2 := match rest with [] => s1 | _ :: _ => addSpacing s1 end in
      loop step rest s2
  end.

End Paginator.

(* ===================================================================== *)
(** * QAView and GenericContentView: blocks are kept whole *)
(* ===================================================================== *)

Module KeepTogether.
Import Js Dom Paginator.

Section WithProbe.
(** [measure n] is [tempDiv.offsetHeight] once the probe holds [n] alone. *)
Variable measure : Node -> Z.

(** The loop body: heading rule, overflow check, then the block is appended
    whole whatever its height. *)
Definition step (element : Node) (s : PState) : PState :=
  let clone := element in
  let elementHeight := measure clone in
  let s1 := headingBreak clone s in
  let s2 := breakIfOverflow elementHeight s1 in
  append (outerHTML clone) elementHeight s2.

(** [contentContainer] is the detached div after
    [contentContainer.innerHTML = htmlContent]. *)
Definition splitContentIntoPages (placeholder : string)
    (contentContainer : Node) : list string :=
  let blockElements := children contentContainer in
  finish placeholder (loop step blockElements initial).
End WithProbe.

End KeepTogether.

Module QAView.
Import Js Dom Paginator.

Definition placeholder : string :=
  "<div style=" +:+ dq +:+
  "text-align: center; padding: 100px; color: #666; font-style: italic;" +:+
  dq +:+ ">No Q&A available for this chapter.</div>".

Definition splitContentIntoPages (measure : Node -> Z) : Node -> list string :=
  KeepTogether.splitContentIntoPages measure placeholder.

End QAView.

Module GenericContentView.
Import Js Dom Paginator.

Definition placeholder : string :=
  "<div style=" +:+ dq +:+
  "text-align: center; padding: 100px; color: #666; font-style: italic;" +:+
  dq +:+ ">No content available for this chapter.</div>".

Definition splitContentIntoPages (measure : Node -> Z) : Node -> list string :=
  KeepTogether.splitContentIntoPages measure placeholder.

End GenericContentView.

(* ===================================================================== *)
(** * NotesView: oversized paragraphs, lists and tables are split *)
(* ===================================================================== *)

Module NotesView.
Import Js Dom Paginator.

Definition placeholder : string :=
  "<div style=" +:+ dq +:+
  "text-align: center; padding: 100px; color: #666; font-style: italic;" +:+
  dq +:+ ">No notes available for this chapter.</div>".

(** One note section contributes its element children; a section without
    element children but with visible text contributes one new paragraph
    holding the section's content. *)
Definition flattenSection (section : Node) : list Node :=
  let kids := children section in
  if (length kids =? 0)%nat && truthy (trim (textContent section))
  then [Elem "P" [] (childNodes section)]
  else kids.

Definition flatBlocks (contentContainer : Node) : list Node :=
  let noteSections := children contentContainer in
  let flat := List.concat (List.map flattenSection noteSections) in
  if (length flat =? 0)%nat && (0 <? length (children contentContainer))%nat
  then children contentContainer
  else flat.

(** [document.createElement(name)] followed by [style.cssText = css] and
    [textContent = text]; the probe element of the word loop, parsed from
    [<tag style="css"></tag>] and given the same text, is the same node. *)
Definition styledText (name css text : string) : Node :=
  Elem (toUpperCase name) [("style", css)]
       (if truthy text then [Text text] else []).

(** [currentPageHTML += html], the height left as it is. *)
Definition appendHTML (html : string) (s : PState) : PState :=
  {| pages := pages s;
     currentPageHTML := currentPageHTML s +:+ html;
     currentHeight := currentHeight s |}.

(** State of the item loop of a list or a table: the page state, the open
    fragment ([currentListHTML] / [tableHTML]) and its height. *)
Record RunState : Type := mkRunState {
  page : PState;
  runHTML : string;
  runHeight : Z
}.

Section WithProbe.
Variable measure : Node -> Z.

(** Body of [for (let word of textNodes)]. *)
Definition wordStep (name css : string) (acc : list string * string)
    (word : string) : list string * string :=
  let '(splitParts, currentPart) := acc in
  let testPart := currentPart +:+ " " +:+ word in
  let testHeight := measure (styledText name css testPart) in
  if testHeight >? maxHeightPerPage
  then (splitParts ++ [trim currentPart], word)
  else (splitParts, testPart).

Definition splitWords (name css : string) (textNodes : list string)
    : list string :=
  let '(splitParts, currentPart) :=
    fold_left (wordStep name css) textNodes ([], "") in
  if truthy currentPart then splitParts ++ [trim currentPart]
  else splitParts.

(** Body of [for (let part of splitParts)]. *)
Definition placePart (name css : string) (s : PState) (part : string)
    : PState :=
  let partClone := styledText name css part in
  let elementHeight := measure partClone in
  append (outerHTML partClone) elementHeight
    (breakIfOverflow elementHeight s).

(** Body of [for (let li of listItems)] and of [for (let row of rows)];
    [openT] and [closeT] are the tags written around the items. *)
Definition runStep (openT closeT : string) (r : RunState) (item : Node)
    : RunState :=
  let itemHeight := measure item in
  let r1 :=
    if (currentHeight (page r) + runHeight r + itemHeight >? maxHeightPerPage)
       && strictNe (currentPageHTML (page r)) ""
    then
      let p1 := if strictNe (runHTML r) openT
                then appendHTML (runHTML r +:+ closeT) (page r)
                else page r in
      {| page := flush p1; runHTML := openT; runHeight := 0 |}
    else r in
  {| page := page r1;
     runHTML := runHTML r1 +:+ outerHTML item;
     runHeight := runHeight r1 + itemHeight |}.

Definition splitRun (openT closeT : string) (items : list Node)
    (s : PState) : PState :=
  let r := fold_left (runStep openT closeT) items
             {| page := s; runHTML := openT; runHeight := 0 |} in
  if strictNe (runHTML r) openT
  then append (runHTML r +:+ closeT) (runHeight r) (page r)
  else page r.

(** The loop body up to the spacer. *)
Definition step (element : Node) (s : PState) : PState :=
  let clone := element in
  let elementHeight := measure clone in
  let s1 := headingBreak clone s in
  let tag := tagName element in
  if (elementHeight >? maxHeightPerPage)
     && (String.eqb tag "P" || String.eqb tag "DIV") then
    let textNodes := splitWs (textContent element) in
    let name := toLowerCase tag in
    let splitParts := splitWords name (cssText clone) textNodes in
    fold_left (placePart name (cssText clone)) splitParts s1
  else if String.eqb tag "UL" || String.eqb tag "OL" then
    let listType := toLowerCase tag in
    splitRun ("<" +:+ listType +:+ ">") ("</" +:+ listType +:+ ">")
      (children clone) s1
  else if String.eqb tag "TABLE" then
    splitRun "<table>" "</table>" (querySelectorAll_tr clone) s1
  else
    append (outerHTML clone) elementHeight
      (breakIfOverflow elementHeight s1).

Definition splitContentIntoPages (contentContainer : Node) : list string :=
  let blockElements := flatBlocks contentContainer in
  finish placeholder (loop step blockElements initial).
End WithProbe.

End NotesView.

(* ===================================================================== *)
(** * The export handlers *)
(* ===================================================================== *)

Module ExportJob.
Import Js Dom Paginator.

(** A JavaScript string as its UTF-16 code units; names of lessons are
    mostly Tamil, outside the range of [string]. *)
Abbreviation jsstring := (list N).

Definition lit (s : string) : jsstring :=
  List.map N_of_ascii (list_ascii_of_string s).

(** ** The suggested file name *)

(** A character class of a regular expression: ranges of code units,
    possibly negated. *)
Record CharClass : Type := mkCharClass {
  negated : bool;
  ranges : list (N * N)
}.

Definition inRanges (rs : list (N * N)) (c : N) : bool :=
  existsb (fun r => (fst r <=? c)%N && (c <=? snd r)%N) rs.

Definition matches (cl : CharClass) (c : N) : bool :=
  xorb (negated cl) (inRanges (ranges cl) c).

(** [s.replace(/[...]/g, repl)] for a class of single code units. *)
Definition replaceAll (cl : CharClass) (repl : jsstring) (s : jsstring)
    : jsstring :=
  flat_map (fun c => if matches cl c then repl else [c]) s.

(** [/[^a-zA-Z0-9\u0B80-\u0BFF]/]: the last range is the Tamil block. *)
Definition unsafeNameChar : CharClass :=
  {| negated := true;
     ranges := [(97, 122); (65, 90); (48, 57); (2944, 3071)]%N |}.

(** [s.slice(0, n)]. *)
Definition slice0 (n : nat) (s : jsstring) : jsstring := firstn n s.

(** The [link.download] of the three handlers; [isoNow] is
    [new Date().toISOString()]. *)
Definition downloadName (lessonName label isoNow : jsstring) : jsstring :=
  replaceAll unsafeNameChar (lit "_") lessonName ++ lit "_" ++ label ++
  lit "_" ++ slice0 10 isoNow ++ lit ".pdf".

(** ** Data *)

Record User : Type := mkUser {
  role : jsstring;
  canEdit : bool;
  userEmail : jsstring;
  userName : jsstring
}.

Record Hierarchy : Type := mkHierarchy {
  className : jsstring;
  subjectName : jsstring;
  unitName : jsstring;
  subUnitName : jsstring;
  lessonName : jsstring
}.

Record Content : Type := mkContent {
  title : string;
  body : string
}.

(** What a handler throws or receives as a rejection. *)
Inductive Error : Type :=
| NoContent
| ContainerNotFound
| SendRejected (message : option jsstring)
| External (message : jsstring).

Inductive Outcome (A : Type) : Type :=
| Resolved (a : A)
| Rejected (e : Error).
Arguments Resolved {A} a.
Arguments Rejected {A} e.

Inductive AlertType : Type := Loading | Success | Failure.

Inductive AlertText : Type :=
| GeneratingPdf
| DownloadStarted
| SendingEmail
| SentTo (email : jsstring)
| ExportFailed (e : Error)
| EmailFailed (e : Error).

Record Alert : Type := mkAlert {
  alertType : AlertType;
  alertText : AlertText
}.

(** The body of [POST /api/export/send-pdf]. *)
Record Submission : Type := mkSubmission {
  fileName : jsstring;
  recipient : jsstring;
  mailTitle : jsstring;
  forLesson : jsstring;
  forType : jsstring;
  sender : jsstring
}.

(** [res.ok] and the parsed JSON of the delivery channel's answer. *)
Record Response : Type := mkResponse {
  ok : bool;
  success : bool;
  message : option jsstring
}.

(** Everything a handler reads or writes: the component's state, the staging
    container behind [exportContainerRef] ([None] when the ref is null,
    else its [innerHTML]), the session storage, and the requests sent. *)
Record World : Type := mkWorld {
  isExporting : bool;
  sweetAlert : option Alert;
  exportModalOpen : bool;
  exportContainer : option string;
  sessionStorage : gmap jsstring jsstring;
  statsDownloads : option nat;
  downloads : list jsstring;
  submissions : list Submission;
  incrementRequests : list (jsstring * jsstring)
}.

(** The answers of the collaborators during one job: the hierarchy lookup;
    the content container obtained from the items (the view's HTML template,
    [processContentForHTML] and the HTML parser); the height probe; the
    markup put in the export container for a list of pages (style sheet and
    page template); the rasteriser, page by page; the delivery channel,
    from the request to the parsed answer; the counter endpoint; the clock.
    The logo is left out: loading it never throws. *)
Record Env : Type := mkEnv {
  getHierarchy : Outcome (option Hierarchy);
  assemble : list Content -> Node;
  measure : Node -> Z;
  stage : list string -> string;
  html2canvas : nat -> Outcome unit;
  sendPdf : Outcome Response;
  incrementOutcome : Outcome unit;
  isoNow : jsstring
}.

Definition setIsExporting (b : bool) (w : World) : World :=
  mkWorld b (sweetAlert w) (exportModalOpen w) (exportContainer w)
    (sessionStorage w) (statsDownloads w) (downloads w) (submissions w)
    (incrementRequests w).

Definition setSweetAlert (a : Alert) (w : World) : World :=
  mkWorld (isExporting w) (Some a) (exportModalOpen w) (exportContainer w)
    (sessionStorage w) (statsDownloads w) (downloads w) (submissions w)
    (incrementRequests w).

Definition setExportModalOpen (b : bool) (w : World) : World :=
  mkWorld (isExporting w) (sweetAlert w) b (exportContainer w)
    (sessionStorage w) (statsDownloads w) (downloads w) (submissions w)
    (incrementRequests w).

(** [if (exportContainerRef.current) exportContainerRef.current.innerHTML = html]. *)
Definition setContainerHTML (html : string) (w : World) : World :=
  mkWorld (isExporting w) (sweetAlert w) (exportModalOpen w)
    (match exportContainer w with Some _ => Some html | None => None end)
    (sessionStorage w) (statsDownloads w) (downloads w) (submissions w)
    (incrementRequests w).

(** [sessionStorage.setItem(key, value)]. *)
Definition setItem (key value : jsstring) (w : World) : World :=
  mkWorld (isExporting w) (sweetAlert w) (exportModalOpen w) (exportContainer w)
    (<[key := value]> (sessionStorage w)) (statsDownloads w) (downloads w)
    (submissions w) (incrementRequests w).

(** [setStats(prev => prev ? {...prev, downloads: prev.downloads + 1}
                          : {count: 0, downloads: 1})]. *)
Definition bumpStats (w : World) : World :=
  mkWorld (isExporting w) (sweetAlert w) (exportModalOpen w) (exportContainer w)
    (sessionStorage w)
    (Some (match statsDownloads w with Some n => S n | None => 1%nat end))
    (downloads w) (submissions w) (incrementRequests w).

(** [link.download = name; link.click()]. *)
Definition clickDownload (name : jsstring) (w : World) : World :=
  mkWorld (isExporting w) (sweetAlert w) (exportModalOpen w) (exportContainer w)
    (sessionStorage w) (statsDownloads w) (downloads w ++ [name])
    (submissions w) (incrementRequests w).

Definition postSubmission (f : Submission) (w : World) : World :=
  mkWorld (isExporting w) (sweetAlert w) (exportModalOpen w) (exportContainer w)
    (sessionStorage w) (statsDownloads w) (downloads w) (submissions w ++ [f])
    (incrementRequests w).

Definition logIncrement (lessonId type : jsstring) (w : World) : World :=
  mkWorld (isExporting w) (sweetAlert w) (exportModalOpen w) (exportContainer w)
    (sessionStorage w) (statsDownloads w) (downloads w) (submissions w)
    (incrementRequests w ++ [(lessonId, type)]).

(** ** Asynchronous code that may throw *)

(** A computation changes the world and returns a value or throws; what it
    changed before throwing stays changed. *)
Definition M (A : Type) : Type := World -> (Error + A) * World.

Definition ret {A} (a : A) : M A := fun w => (inr a, w).

Definition bind {A B} (c : M A) (k : A -> M B) : M B :=
  fun w => match c w with
           | (inr a, w1) => k a w1
           | (inl e, w1) => (inl e, w1)
           end.

Definition throw {A} (e : Error) : M A := fun w => (inl e, w).

Definition modify (f : World -> World) : M unit := fun w => (inr tt, f w).

Definition gets {A} (f : World -> A) : M A := fun w => (inr (f w), w).

(** [await p] for a promise whose fate the environment fixes. *)
Definition await {A} (p : Outcome A) : M A :=
  match p with Resolved a => ret a | Rejected e => throw e end.

(** [try { c } catch (e) { h e }]. *)
Definition catch {A} (c : M A) (h : Error -> M A) : M A :=
  fun w => match c w with
           | (inl e, w1) => h e w1
           | (inr a, w1) => (inr a, w1)
           end.

(** [try { c } finally { f }], for a [finally] block that cannot throw. *)
Definition finally {A} (c : M A) (f : World -> World) : M A :=
  fun w => let (r, w1) := c w in (r, f w1).

Notation "'let*' x ':=' c 'in' k" := (bind c (fun x => k))
  (at level 10, x name, c at level 100, k at level 200).
Notation "c ;;; k" := (bind c (fun _ => k))
  (at level 100, k at level 200, right associativity).

(** Modelled from the spec: [api.incrementLessonDownload], called by the
    handlers but absent from the sources; the specification describes it as
    a usage-counter increment request keyed by lesson identifier and
    resource type. The request is recorded, then resolves or rejects as the
    environment says. *)
Definition incrementLessonDownload (env : Env) (lessonId type : jsstring)
    : M unit :=
  modify (logIncrement lessonId type) ;;; await (incrementOutcome env).

(** [!sessionStorage.getItem(key)]. *)
Definition itemMissing (key : jsstring) (w : World) : bool :=
  match sessionStorage w !! key with
  | Some (_ :: _) => false
  | _ => true
  end.

(** The loop over [pageElements]: one [await html2canvas(page)] per page. *)
Fixpoint rasterize (env : Env) (pages : list string) (i : nat) : M unit :=
  match pages with
  | [] => ret tt
  | _ :: rest => await (html2canvas env i) ;;; rasterize env rest (S i)
  end.

(** [user.role === 'admin' || user.canEdit]. *)
Definition isAdmin (user : User) : bool :=
  bool_decide (role user = lit "admin") || canEdit user.

(** [a || b] on strings. *)
Definition orElse (a b : jsstring) : jsstring :=
  match a with [] => b | _ :: _ => a end.

(** What differs between the three handlers. *)
Record View : Type := mkView {
  label : jsstring;
  mailLabel : jsstring;
  resourceType : jsstring;
  splitContentIntoPages : (Node -> Z) -> Node -> list string;
  (** after the download link was clicked *)
  countLocal : Env -> jsstring -> M unit;
  (** after the delivery channel accepted the document *)
  countRemote : Env -> jsstring -> M unit
}.

(** [hierarchy?.lessonName || label]. *)
Definition lessonNameOf (v : View) (h : option Hierarchy) : jsstring :=
  orElse (match h with Some h => lessonName h | None => [] end) (label v).

Definition failureAlert (user : User) (e : Error) : Alert :=
  if isAdmin user then mkAlert Failure (ExportFailed e)
  else mkAlert Failure (EmailFailed e).

(** The form posted to the delivery channel. *)
Definition submissionOf (v : View) (user : User) (lessonName lessonId email : jsstring)
    : Submission :=
  {| fileName := lessonName ++ lit "_" ++ label v ++ lit ".pdf";
     recipient := email;
     mailTitle := mailLabel v ++ lit ": " ++ lessonName;
     forLesson := lessonId;
     forType := resourceType v;
     sender := orElse (userName user) (lit "User") |}.

(** The [try] block. *)
Definition exportBody (v : View) (env : Env) (user : User)
    (items : list Content) (lessonId email : jsstring) : M unit :=
  let* hierarchy := await (getHierarchy env) in
  let lessonName := lessonNameOf v hierarchy in
  if (length items =? 0)%nat then throw NoContent else
  let pages := splitContentIntoPages v (measure env) (assemble env items) in
  let* container := gets exportContainer in
  match container with
  | None => throw ContainerNotFound
  | Some _ =>
      modify (setContainerHTML "") ;;;
      modify (setContainerHTML (stage env pages)) ;;;
      rasterize env pages 0 ;;;
      (if isAdmin user then
         modify (clickDownload (downloadName lessonName (label v) (isoNow env))) ;;;
         countLocal v env lessonId ;;;
         modify (setSweetAlert (mkAlert Success DownloadStarted))
       else
         modify (setSweetAlert (mkAlert Loading SendingEmail)) ;;;
         modify (postSubmission (submissionOf v user lessonName lessonId email)) ;;;
         let* res := await (sendPdf env) in
         if ok res && success res then
           countRemote v env lessonId ;;;
           modify (setSweetAlert (mkAlert Success (SentTo email)))
         else throw (SendRejected (message res))) ;;;
      modify (setExportModalOpen false)
  end.

(** [handleExportConfirm]: the world after the promise has settled. *)
Definition handleExportConfirm (v : View) (env : Env) (user : User)
    (items : list Content) (lessonId email : jsstring) (w : World) : World :=
  let w1 := setSweetAlert (mkAlert Loading GeneratingPdf)
              (setIsExporting true w) in
  snd (finally
         (catch (exportBody v env user items lessonId email)
            (fun e => modify (setSweetAlert (failureAlert user e))))
         (fun w => setContainerHTML "" (setIsExporting false w))
         w1).

(** The three views. *)

(** QAView: the count is awaited bare after a download, and with its
    rejection swallowed after a delivery. *)
Definition qaView : View :=
  {| label := lit "QA";
     mailLabel := lit "Q&A";
     resourceType := lit "qa";
     splitContentIntoPages := QAView.splitContentIntoPages;
     countLocal := fun env lessonId =>
       incrementLessonDownload env lessonId (lit "qa");
     countRemote := fun env lessonId =>
       catch (incrementLessonDownload env lessonId (lit "qa"))
         (fun _ => ret tt) |}.

(** [`downloaded_${lessonId}_notes`]. *)
Definition downloadKey (lessonId : jsstring) : jsstring :=
  lit "downloaded_" ++ lessonId ++ lit "_notes".

(** NotesView: the count is sent once per lesson and browser session. *)
Definition notesView : View :=
  {| label := lit "Notes";
     mailLabel := lit "Notes";
     resourceType := lit "notes";
     splitContentIntoPages := NotesView.splitContentIntoPages;
     countLocal := fun env lessonId =>
       catch
         (let* missing := gets (itemMissing (downloadKey lessonId)) in
          if missing then
            incrementLessonDownload env lessonId (lit "notes") ;;;
            modify (setItem (downloadKey lessonId) (lit "true"))
          else ret tt)
         (fun _ => ret tt);
     countRemote := fun env lessonId =>
       let* missing := gets (itemMissing (downloadKey lessonId)) in
       if missing then
         catch (incrementLessonDownload env lessonId (lit "notes"))
           (fun _ => ret tt) ;;;
         modify (setItem (downloadKey lessonId) (lit "true"))
       else ret tt |}.

(** GenericContentView: the count is sent without being awaited, and the
    figure shown is bumped at once. *)
Definition genericView (resourceType label : jsstring) : View :=
  let count := fun env lessonId =>
    catch (incrementLessonDownload env lessonId resourceType)
      (fun _ => ret tt) ;;;
    modify bumpStats in
  {| label := label;
     mailLabel := label;
     resourceType := resourceType;
     splitContentIntoPages := GenericContentView.splitContentIntoPages;
     countLocal := count;
     countRemote := count |}.

(** A job succeeded when the alert it leaves is the success alert. *)
Definition succeeded (w : World) : bool :=
  match sweetAlert w with
  | Some a => match alertType a with Success => true | _ => false end
  | None => false
  end.

(** The counting step of QAView and GenericContentView: one more request,
    no download. *)
Definition countedOnce (lessonId type : jsstring) (w wc : World) : Prop :=
  incrementRequests wc = incrementRequests w ++ [(lessonId, type)] /\
  downloads wc = downloads w.

(** The counting step of NotesView: one more request unless the session
    already holds the key of the lesson. *)
Definition countedOncePerSession (lessonId : jsstring) (w wc : World) : Prop :=
  incrementRequests wc
  = incrementRequests w ++
    (if itemMissing (downloadKey lessonId) w then [(lessonId, lit "notes")]
     else []) /\
  downloads wc = downloads w.


(** The file name in the words of the specification: every character of the
    lesson name that [keep] does not accept becomes an underscore. *)
Definition underscore : N := 95%N.

Definition specFileName (keep : N -> bool) (lessonName label isoNow : jsstring)
    : jsstring :=
  List.map (fun c => if keep c then c else underscore) lessonName ++
  [underscore] ++ label ++ [underscore] ++ firstn 10 isoNow ++ lit ".pdf".

Definition isAsciiAlnum (c : N) : bool :=
  ((48 <=? c) && (c <=? 57) || (65 <=? c) && (c <=? 90)
   || (97 <=? c) && (c <=? 122))%N.

(** The Tamil block, U+0B80 to U+0BFF. *)
Definition isTamil (c : N) : bool := ((2944 <=? c) && (c <=? 3071))%N.

End ExportJob.

(* ===================================================================== *)
(** * A sample lesson *)
(* ===================================================================== *)

Module Sample.
Import Js Dom ExportJob.

(** The lesson name: the Tamil word for the language, a space, a digit. *)
Definition lessonName : jsstring := [2980; 2990; 3007; 2996; 3021; 32; 55]%N.

Definition lessonId : jsstring := lit "L1".

(** Every collaborator answers well; each note section is 100 pixels tall. *)
Definition env : Env :=
  {| getHierarchy :=
       Resolved (Some (mkHierarchy (lit "7") (lit "Tamil") (lit "U1") [] lessonName));
     assemble := fun items =>
       Elem "DIV" []
         (List.map (fun c => Elem "DIV" [] [Elem "P" [] [Text (body c)]]) items);
     measure := fun _ => 100;
     stage := concatStr;
     html2canvas := fun _ => Resolved tt;
     sendPdf := Resolved (mkResponse true true None);
     incrementOutcome := Resolved tt;
     isoNow := lit "2026-11-02T10:00:00.000Z" |}.

Definition admin : User := mkUser (lit "admin") false [] (lit "Head").
Definition pupil : User := mkUser (lit "user") false (lit "a@b.c") [].

Definition items : list Content := [mkContent "1. Why?" "Because."].

(** A freshly mounted view in a new browser session. *)
Definition fresh : World :=
  mkWorld false None false (Some "") ∅ None [] [] [].

(** A note made of the given blocks, a list of [n] one-line items, and a
    probe for which an item is 60 pixels tall, a paragraph 100 and a list
    the sum of its items. *)
Definition noteOf (blocks : list Node) : Node :=
  Elem "DIV" [] [Elem "DIV" [("class", "note-section")] blocks].

Definition item : Node := Elem "LI" [] [Text "x"].

Definition listOf (n : nat) : Node := Elem "UL" [] (repeat item n).

Definition paragraph : Node := Elem "P" [] [Text "Intro"].

Definition probe (n : Node) : Z :=
  if String.eqb (tagName n) "LI" then 60
  else if String.eqb (tagName n) "P" then 100
  else 60 * Z.of_nat (length (children n)).

(** A note whose body starts with a heading. The handler cuts the markup at
    the first heading tag, which removes the opening tag of the note
    section, and the closing tag left over is dropped by the parser: the
    content parsed from it has the blocks of the body at top level.
    [cutNote] is that content; [noteOf] is the content with the section
    around the blocks. *)
Definition cutNote (blocks : list Node) : Node := Elem "DIV" [] blocks.

Definition chapter : Node := Elem "H2" [] [Text "Water"].

Definition title : Node := Elem "H3" [] [Text "Title"].

Definition steps : Node :=
  Elem "UL" []
    [Elem "LI" [] [Text "a"]; Elem "LI" [] [Text "b"]; Elem "LI" [] [Text "c"]].

(** A probe for which a list item is 400 pixels tall, a list the sum of its
    items, the paragraph [paragraph] 760, and any other element 40. *)
Definition tallProbe (n : Node) : Z :=
  if String.eqb (tagName n) "LI" then 400
  else if String.eqb (tagName n) "UL" then 400 * Z.of_nat (length (children n))
  else if String.eqb (textContent n) "Intro" then 760
  else 40.

End Sample.

(* ===================================================================== *)
(** * Vocabulary of the specification *)
(* ===================================================================== *)

Module PageModel.
Import Js Dom Paginator.

(** What a page is made of once the loop is read as placing items: a block
    of the input, or the spacer put between two blocks. *)
Inductive Item : Type :=
| Block (e : Node)
| Spacer.

Definition itemHTML (it : Item) : string :=
  match it with Block e => outerHTML e | Spacer => spacerHTML end.

(** The height the loop accounts for an item: the measured height of a
    block, the constant 8 for a spacer. *)
Definition itemHeight (measure : Node -> Z) (it : Item) : Z :=
  match it with Block e => measure e | Spacer => spacing end.

Definition pageHTML (g : list Item) : string :=
  concatStr (List.map itemHTML g).

Fixpoint pageHeight (measure : Node -> Z) (g : list Item) : Z :=
  match g with
  | [] => 0
  | it :: r => itemHeight measure it + pageHeight measure r
  end.

(** The blocks in input order with one spacer between neighbours. *)
Fixpoint interleave (blocks : list Node) : list Item :=
  match blocks with
  | [] => []
  | [b] => [Block b]
  | b :: rest => Block b :: Spacer :: interleave rest
  end.

(** No page pushed so far is empty. *)
Definition pagesNonEmpty (s : PState) : Prop :=
  Forall (fun p => p <> "") (pages s).

(** The serialisation of a run of items. *)
Abbreviation itemsHTML l := (concatStr (List.map outerHTML l)).


(** The blocks NotesView splits by item, and the items it splits them by. *)
Definition isSplittable (e : Node) : bool :=
  String.eqb (tagName e) "UL" || String.eqb (tagName e) "OL"
  || String.eqb (tagName e) "TABLE".

Definition splitItems (e : Node) : list Node :=
  if String.eqb (tagName e) "TABLE" then querySelectorAll_tr e else children e.

(** Items written between an opening and a closing tag; nothing at all when
    there is no item. *)
Definition wrapItems (openT closeT : string) (l : list Node) : string :=
  match l with
  | [] => ""
  | _ :: _ => openT +:+ concatStr (List.map outerHTML l) +:+ closeT
  end.

(** The fragment of [e] holding the items [l]: the serialisation of an
    element with the tag of [e], no attribute, and [l] as children. *)
Definition fragment (e : Node) (l : list Node) : string :=
  match l with
  | [] => ""
  | _ :: _ => outerHTML (Elem (tagName e) [] l)
  end.

(** A page is within budget, or it is one block alone. *)
Definition fits (measure : Node -> Z) (g : list Item) : Prop :=
  pageHeight measure g > maxHeightPerPage -> exists e, g = [Block e].

(** An item that writes something. *)
Definition solid (it : Item) : Prop := itemHTML it <> "".

(** The loop state read as pages of items: [gs] are the pages pushed so far
    and [g] the page being filled. *)
Record Repr (measure : Node -> Z) (s : PState) (gs : list (list Item))
    (g : list Item) : Prop := {
  repr_pages : pages s = List.map pageHTML gs;
  repr_current : currentPageHTML s = pageHTML g;
  repr_height : currentHeight s = pageHeight measure g;
  repr_pushed : Forall (fun g' => g' <> [] /\ fits measure g') gs;
  repr_fits : fits measure g;
  repr_solid : Forall solid g
}.

(** The heights of the items of a list or table, added up as the item loop
    does. *)
Fixpoint totalHeight (measure : Node -> Z) (l : list Node) : Z :=
  match l with
  | [] => 0
  | k :: r => measure k + totalHeight measure r
  end.

(** Everything written so far: the pushed pages, then the current one. *)
Definition content (s : PState) : string :=
  concatStr (pages s) +:+ currentPageHTML s.


(** The blocks NotesView splits by word. *)
Definition isOversizedText (measure : Node -> Z) (e : Node) : bool :=
  (measure e >? maxHeightPerPage)
  && (String.eqb (tagName e) "P" || String.eqb (tagName e) "DIV").









End PageModel.

(* ===================================================================== *)
(** * The export button *)
(* ===================================================================== *)

Module ExportFlow.
Import Js Dom ExportJob.

(** The three components that carry an export handler. *)
Inductive ViewName : Type :=
| QA
| Notes
| Generic (resourceType label : jsstring).

Definition viewOf (k : ViewName) : View :=
  match k with
  | QA => qaView
  | Notes => notesView
  | Generic resourceType label => genericView resourceType label
  end.

(** What each view writes after [user.email ||] for a user who may edit:
    ['admin@example.com'] in QAView and GenericContentView, [''] in
    NotesView. *)
Definition fallbackOf (k : ViewName) : jsstring :=
  match k with
  | Notes => []
  | _ => lit "admin@example.com"
  end.

(** [handleExportInitiate], the click on the export button; [canEdit] is
    [user.role === 'admin' || !!user.canEdit]. *)
Definition handleExportInitiate (k : ViewName) (env : Env) (user : User)
    (items : list Content) (lessonId : jsstring) (w : World) : World :=
  if isAdmin user then
    handleExportConfirm (viewOf k) env user items lessonId
      (orElse (userEmail user) (fallbackOf k)) w
  else
    match userEmail user with
    | _ :: _ =>
        handleExportConfirm (viewOf k) env user items lessonId (userEmail user) w
    | [] => setExportModalOpen true w
    end.

(** The same collaborators with another answer of the counter endpoint, or
    with another rasteriser. *)
Definition withCounter (o : Outcome unit) (env : Env) : Env :=
  mkEnv (getHierarchy env) (assemble env) (measure env) (stage env)
    (html2canvas env) (sendPdf env) o (isoNow env).

Definition withRasteriser (f : nat -> Outcome unit) (env : Env) : Env :=
  mkEnv (getHierarchy env) (assemble env) (measure env) (stage env)
    f (sendPdf env) (incrementOutcome env) (isoNow env).

(** A user who may not edit and has no address on file. *)
Definition guest : User := mkUser (lit "user") false [] [].

(** What the counting step of a view may change: the requests sent to the
    counter, the session storage and the figure shown, nothing else. *)
Definition countsOnly (w wc : World) : Prop :=
  isExporting wc = isExporting w /\
  sweetAlert wc = sweetAlert w /\
  exportModalOpen wc = exportModalOpen w /\
  exportContainer wc = exportContainer w /\
  downloads wc = downloads w /\
  submissions wc = submissions w.

(** The world a job leaves after the error [e] was caught in [x], and after
    the [try] block completed in [x] with the success alert [a]. *)
Definition failedIn (user : User) (e : Error) (x : World) : World :=
  setContainerHTML "" (setIsExporting false
    (setSweetAlert (failureAlert user e) x)).

Definition doneIn (a : AlertText) (x : World) : World :=
  setContainerHTML "" (setIsExporting false
    (setExportModalOpen false (setSweetAlert (mkAlert Success a) x))).

(** Every page is rasterised: [html2canvas] resolves for each of the [n]
    pages. *)
Definition rendersAll (env : Env) (n : nat) : Prop :=
  forall i, (i < n)%nat -> html2canvas env i = Resolved tt.

(** The stages before the distribution: the hierarchy lookup answers, there
    is content, the staging container is mounted and every page is
    rasterised. *)
Definition stagesPass (v : View) (env : Env) (items : list Content)
    (w : World) : Prop :=
  (exists h, getHierarchy env = Resolved h) /\
  items <> [] /\
  exportContainer w <> None /\
  rendersAll env
    (length (splitContentIntoPages v (measure env) (assemble env items))).

End ExportFlow.

(* ===================================================================== *)
(** * Strings of UTF-16 code units *)
(* ===================================================================== *)

Module JsText.
Import ExportJob.

(** [\s] in a regular expression, and what [trim] removes: the white space
    and line terminator code units of ECMAScript. *)
Definition isWhiteSpace (c : N) : bool :=
  ((9 <=? c) && (c <=? 13) || (c =? 32) || (c =? 160) || (c =? 5760)
   || (8192 <=? c) && (c <=? 8202) || (c =? 8232) || (c =? 8233)
   || (c =? 8239) || (c =? 8287) || (c =? 12288) || (c =? 65279))%N.

(** [\d]. *)
Definition isDigit (c : N) : bool := ((48 <=? c) && (c <=? 57))%N.

Definition openAngle : N := 60%N.
Definition closeAngle : N := 62%N.

Fixpoint trimStart (s : jsstring) : jsstring :=
  match s with
  | [] => []
  | c :: r => if isWhiteSpace c then trimStart r else s
  end.

Fixpoint trimEnd (s : jsstring) : jsstring :=
  match s with
  | [] => []
  | c :: r =>
      match trimEnd r with
      | [] => if isWhiteSpace c then [] else [c]
      | r' => c :: r'
      end
  end.

Definition trim (s : jsstring) : jsstring := trimEnd (trimStart s).

(** The longest prefix of [s] whose code units satisfy [p], and the rest. *)
Fixpoint span (p : N -> bool) (s : jsstring) : jsstring * jsstring :=
  match s with
  | [] => ([], [])
  | c :: r => if p c then let (a, b) := span p r in (c :: a, b) else ([], s)
  end.

(** [s] is empty or starts with a code unit that [p] rejects. *)
Definition startsOutside (p : N -> bool) (s : jsstring) : bool :=
  match s with
  | [] => true
  | c :: _ => negb (p c)
  end.

(** [s.match(re)?.index] for a regular expression without the [g] flag:
    the least index at which [re] matches; [matchesAt] tells whether [re]
    matches at the start of a suffix. *)
Fixpoint firstMatch (matchesAt : jsstring -> bool) (s : jsstring) : option nat :=
  if matchesAt s then Some 0%nat
  else match s with
       | [] => None
       | _ :: r => option_map S (firstMatch matchesAt r)
       end.

(** [m && m.index ? s.substring(m.index) : s]: the string is cut at a
    match only when the match is not at index 0, which is falsy. *)
Definition cutAtMatch (matchesAt : jsstring -> bool) (s : jsstring)
    : option jsstring :=
  match firstMatch matchesAt s with
  | Some (S i) => Some (skipn (S i) s)
  | _ => None
  end.

(** Case folding of the [i] flag, which never identifies a code unit
    below 128 with one above. *)
Definition foldCase (c : N) : N :=
  if ((97 <=? c) && (c <=? 122))%N then (c - 32)%N else c.

(** A literal pattern under the [i] flag, tried at the start of [s]. *)
Fixpoint startsWithCI (pattern s : jsstring) : bool :=
  match pattern, s with
  | [], _ => true
  | _ :: _, [] => false
  | p :: pattern', c :: s' =>
      (foldCase p =? foldCase c)%N && startsWithCI pattern' s'
  end.

End JsText.

(* ===================================================================== *)
(** * NotesView: the markup handed to the paginator, and the title *)
(* ===================================================================== *)

Module NotesText.
Import Js ExportJob JsText.

(** [/<h[1-6][^>]*>/i] tried at the start of [s]: [<], [h] or [H], a digit
    from 1 to 6, then anything up to the first [>], which must exist. *)
Definition headingTagAt (s : jsstring) : bool :=
  match s with
  | c0 :: c1 :: c2 :: rest =>
      (c0 =? openAngle)%N && ((c1 =? 104) || (c1 =? 72))%N
      && ((49 <=? c2) && (c2 <=? 54))%N && existsb (N.eqb closeAngle) rest
  | _ => false
  end.

(** The fixed part of a heading tag: [<], [h] or [H], a digit from 1 to 6;
    and whether it occurs somewhere in [s]. *)
Definition headingStartAt (s : jsstring) : bool :=
  match s with
  | c0 :: c1 :: c2 :: _ =>
      (c0 =? openAngle)%N && ((c1 =? 104) || (c1 =? 72))%N
      && ((49 <=? c2) && (c2 <=? 54))%N
  | _ => false
  end.

Fixpoint hasHeadingStart (s : jsstring) : bool :=
  headingStartAt s
  || match s with
     | [] => false
     | _ :: r => hasHeadingStart r
     end.

(** [/<[^>]+>/] tried at the start of [s]: [<], one code unit other than
    [>], then anything up to the first [>], which must exist. *)
Definition tagAt (s : jsstring) : bool :=
  match s with
  | c0 :: c1 :: rest =>
      (c0 =? openAngle)%N && negb (c1 =? closeAngle)%N
      && existsb (N.eqb closeAngle) rest
  | _ => false
  end.

(** The literal of [/<div class="note-section" /i]. *)
Definition noteSectionStart : jsstring :=
  lit ("<div class=" +:+ dq +:+ "note-section" +:+ dq +:+ " ").

Definition removeUnformattedDuplicates (html : jsstring) : jsstring :=
  match cutAtMatch headingTagAt html with
  | Some cut => cut
  | None =>
      match cutAtMatch (startsWithCI noteSectionStart) html with
      | Some cut => cut
      | None => html
      end
  end.

(** The wrapper written around each note in [notes.forEach]. *)
Definition sectionOpen : jsstring :=
  lit ("<div class=" +:+ dq +:+ "note-section" +:+ dq +:+ " style=" +:+ dq
       +:+ "margin-bottom: 15px;" +:+ dq +:+ ">").

Definition sectionClose : jsstring := lit "</div>".

(** [allNotesHTML] after the [forEach]; [bodies] are the notes' bodies
    after [processContentForHTML]. *)
Definition allNotesHTML (bodies : list jsstring) : jsstring :=
  flat_map (fun body => sectionOpen ++ body ++ sectionClose) bodies.

(** The markup parsed by [splitContentIntoPages]: [allNotesHTML] after
    [removeUnformattedDuplicates] and after the removal of what precedes
    the first tag. *)
Definition exportMarkup (bodies : list jsstring) : jsstring :=
  let html := removeUnformattedDuplicates (allNotesHTML bodies) in
  match cutAtMatch tagAt html with
  | Some cut => cut
  | None => html
  end.

(** [handleSave] for a new note: the title sent with the body.
    [textContent] is the text of the body parsed into a detached element
    (whose [innerText] is its [textContent]), [today] is
    [new Date().toLocaleDateString()]. *)
Definition newNoteTitle (textContent today : jsstring) : jsstring :=
  orElse (firstn 50 (trim textContent)) (lit "Note - " ++ today).

End NotesText.

(* ===================================================================== *)
(** * QAView and GenericContentView: numbering stripped from titles *)
(* ===================================================================== *)

Module Titles.
Import Js ExportJob JsText.

(** The separator class of the two regular expressions: full stop, closing
    parenthesis, hyphen or white space. *)
Definition isSeparator (c : N) : bool :=
  ((c =? 46) || (c =? 41) || (c =? 45))%N || isWhiteSpace c.

(** The prefix pattern of the two regular expressions below is white
    space, then any number of tags each followed by white space, a tag
    being [<[^>]+>]. The scan of it stands between tags, just after a [<],
    or inside a tag after its first code unit. *)
Inductive ScanState : Type := Between | Opened | Inside.

(** The match of the prefix pattern at the start of the text, when a digit
    is to follow: the prefix captured and what follows it. Every quantifier
    of the pattern is followed by something its operand cannot match ([\s]
    by [<] or a digit, [[^>]] by [>]), so the greedy match is the only
    candidate: a [<] that opens no tag makes the whole pattern fail, as no
    digit can stand there. [acc] is the prefix read so far, last code unit
    first. *)
Fixpoint markup (st : ScanState) (acc s : jsstring)
    : option (jsstring * jsstring) :=
  match s with
  | [] => match st with
          | Between => Some (List.rev acc, [])
          | _ => None
          end
  | c :: r =>
      match st with
      | Between =>
          if isWhiteSpace c then markup Between (c :: acc) r
          else if (c =? openAngle)%N then markup Opened (c :: acc) r
          else Some (List.rev acc, s)
      | Opened =>
          if (c =? closeAngle)%N then None else markup Inside (c :: acc) r
      | Inside =>
          if (c =? closeAngle)%N then markup Between (c :: acc) r
          else markup Inside (c :: acc) r
      end
  end.

(** QAView: [text.replace(re, '$1')], where [re] is anchored at the start
    and reads the captured prefix, [\d+], one separator and [\s*]. *)
Definition cleanTitleText (text : jsstring) : jsstring :=
  match markup Between [] text with
  | Some (prefix, rest) =>
      match span isDigit rest with
      | (_ :: _, sep :: rest') =>
          if isSeparator sep then prefix ++ trimStart rest' else text
      | _ => text
      end
  | None => text
  end.

(** GenericContentView: [text.replace(re, (match, prefix) =>
    prefix.replace(/\s+$/, ''))], where [re] is anchored at the start and
    reads the captured prefix, [\s*], [\d+], one or more separators and
    [\s*]. *)
Definition cleanTitleTextGeneric (text : jsstring) : jsstring :=
  match markup Between [] text with
  | Some (prefix, rest) =>
      match span isDigit (trimStart rest) with
      | (_ :: _, rest1) =>
          match span isSeparator rest1 with
          | (_ :: _, rest2) => trimEnd prefix ++ trimStart rest2
          | _ => text
          end
      | _ => text
      end
  | None => text
  end.

(** What the prefix pattern matches: white space, then tags each followed
    by white space; a tag is [<], one or more code units other than [>],
    and [>]. *)
Inductive Markup : jsstring -> Prop :=
| markup_space ws :
    forallb isWhiteSpace ws = true -> Markup ws
| markup_tag ws inner more :
    forallb isWhiteSpace ws = true ->
    inner <> [] -> existsb (N.eqb closeAngle) inner = false ->
    Markup more ->
    Markup (ws ++ [openAngle] ++ inner ++ [closeAngle] ++ more).

End Titles.

(* ===================================================================== *)
(** * NoteEditor: the table drawn with box characters *)
(* ===================================================================== *)

Module TableText.
Import Js ExportJob.

Definition cellWidth : nat := 15.

(** The decimal digits of a number as a template literal writes them. *)
Definition decimal (n : nat) : jsstring :=
  lit (NilZero.string_of_uint (Nat.to_uint n)).

Definition newline : N := 10%N.
Definition space : N := 32%N.
Definition horizontal : N := 9472%N.
Definition vertical : N := 9474%N.

(** A border line: [left], then for each column fifteen horizontal bars
    and, between two columns, [middle]; then [right] and a line feed. *)
Definition border (left middle right : N) (cols : nat) : jsstring :=
  [left]
  ++ flat_map (fun col =>
                 repeat horizontal cellWidth
                 ++ (if (col + 1 <? cols)%nat then [middle] else []))
       (seq 0 cols)
  ++ [right; newline].

(** A row of cells: each text is followed by
    [Math.max(0, cellWidth - text.length)] spaces and a vertical bar. *)
Definition row (cell : nat -> jsstring) (cols : nat) : jsstring :=
  [vertical]
  ++ flat_map (fun col =>
                 cell col ++ repeat space (cellWidth - length (cell col))
                 ++ [vertical])
       (seq 0 cols)
  ++ [newline].

Definition headerCell (col : nat) : jsstring :=
  lit "Header " ++ decimal (col + 1).

Definition dataCell (r col : nat) : jsstring :=
  lit "Cell " ++ decimal r ++ lit "_" ++ decimal (col + 1).

(** [tableText] at the end of [generateTableHTML]; the data rows are
    numbered from 1 to [rows - 1]. *)
Definition tableText (rows cols : nat) : jsstring :=
  border 9484 9516 9488 cols
  ++ row headerCell cols
  ++ border 9500 9532 9508 cols
  ++ flat_map (fun r => row (dataCell r) cols) (seq 1 (rows - 1))
  ++ border 9492 9524 9496 cols
  ++ [newline].

Definition generateTableHTML (rows cols : nat) : jsstring :=
  lit ("<div class=" +:+ dq +:+ "table-formatted" +:+ dq +:+ " style=" +:+ dq
       +:+ "font-family: 'Courier New', monospace; background-color: #f8f9fa; "
       +:+ "padding: 10px; border: 1px solid #ddd; border-radius: 4px; "
       +:+ "white-space: pre; line-height: 1.2;" +:+ dq +:+ ">")
  ++ tableText rows cols ++ lit "</div>".

(** The condition under which the toolbar handler inserts a table. *)
Definition tableAllowed (rows cols : nat) : bool :=
  ((0 <? rows) && (rows <=? 10) && (0 <? cols) && (cols <=? 10))%nat.

End TableText.

(* ===================================================================== *)
(** * The content route and what the views read from its answer *)
(* ===================================================================== *)

Module ContentRoute.
Import ExportJob JsText.

Section Grouping.
(** A document of the content collection and its [type] field. *)
Variable Doc : Type.
Variable typeOf : Doc -> jsstring.

(** The names that [acc[name]] finds on [Object.prototype] while [acc] has
    no such property of its own ([constructor], [toString], [__proto__] and
    the like): the value found is truthy and has no [docs]. *)
Variable inherited : jsstring -> bool.

(** [{ type, count, docs }]. *)
Record Group : Type := mkGroup {
  groupType : jsstring;
  count : nat;
  docs : list Doc
}.

(** [acc[k].docs.push(content); acc[k].count++] when [acc] has the property
    [k]; [acc] is the list of its properties in the order of creation. *)
Fixpoint addTo (k : jsstring) (content : Doc) (acc : list Group)
    : option (list Group) :=
  match acc with
  | [] => None
  | g :: rest =>
      if decide (groupType g = k)
      then Some (mkGroup (groupType g) (S (count g)) (docs g ++ [content])
                 :: rest)
      else option_map (cons g) (addTo k content rest)
  end.

(** The callback of [contents.reduce]; [None] stands for the [TypeError]
    of [acc[k].docs.push] on an inherited value. *)
Definition collect (acc : list Group) (content : Doc) : option (list Group) :=
  let k := typeOf content in
  match addTo k content acc with
  | Some acc' => Some acc'
  | None =>
      if inherited k then None
      else Some (acc ++ [mkGroup k 1 [content]])
  end.

Fixpoint reduce (contents : list Doc) (acc : list Group)
    : option (list Group) :=
  match contents with
  | [] => Some acc
  | content :: rest =>
      match collect acc content with
      | Some acc' => reduce rest acc'
      | None => None
      end
  end.

(** A property name that is an array index: the canonical decimal numeral
    of a number below [2^32 - 1]. *)
Definition arrayIndex (k : jsstring) : option N :=
  match k with
  | [] => None
  | c :: r =>
      if forallb isDigit k
         && (negb (c =? 48)%N || match r with [] => true | _ => false end)
      then
        let v := fold_left (fun a d => (10 * a + (d - 48))%N) k 0%N in
        if (v <? 4294967295)%N then Some v else None
      else None
  end.

Fixpoint insertIndexed (i : N) (g : Group) (l : list (N * Group))
    : list (N * Group) :=
  match l with
  | [] => [(i, g)]
  | (j, h) :: r =>
      if (i <? j)%N then (i, g) :: l else (j, h) :: insertIndexed i g r
  end.

Definition isNamed (g : Group) : bool :=
  match arrayIndex (groupType g) with
  | None => true
  | Some _ => false
  end.

(** [Object.values(acc)]: the properties named by an array index in
    ascending order, then the others in the order of creation. *)
Definition values (acc : list Group) : list Group :=
  let indexed :=
    fold_right (fun g l => match arrayIndex (groupType g) with
                           | Some i => insertIndexed i g l
                           | None => l
                           end) [] acc in
  List.map snd indexed ++ List.filter isNamed acc.

(** The body of the answer of [GET /content] for the documents found, or
    [None] when the grouping throws and the route answers 500. *)
Definition grouped (contents : list Doc) : option (list Group) :=
  option_map values (reduce contents []).

(** [groupedContent?.[0]?.docs || []] in the three views. *)
Definition itemsOf (groupedContent : option (list Group)) : list Doc :=
  match groupedContent with
  | Some (g :: _) => docs g
  | _ => []
  end.

(** What the grouping promises for one group of the documents [contents]:
    its count is the number of its documents, which are the documents of
    its type, in order, and there is at least one. *)
Definition groupOf (contents : list Doc) (g : Group) : Prop :=
  count g = length (docs g) /\
  docs g <> [] /\
  docs g
  = List.filter (fun c => bool_decide (typeOf c = groupType g)) contents.

(** What holds of the groups once the documents [seen] are collected:
    one group for each type seen, none for an inherited name. *)
Definition collected (seen : list Doc) (acc : list Group) : Prop :=
  List.NoDup (List.map groupType acc) /\
  Forall (groupOf seen) acc /\
  (forall c, In c seen -> In (typeOf c) (List.map groupType acc)) /\
  Forall (fun g => inherited (groupType g) = false) acc.

End Grouping.

Arguments groupType {Doc} g.
Arguments count {Doc} g.
Arguments docs {Doc} g.
Arguments mkGroup {Doc} groupType count docs.
Arguments itemsOf {Doc} groupedContent.

End ContentRoute.

(* ===================================================================== *)
(** * Facts about strings and serialisation *)
(* ===================================================================== *)

Module StringFacts.
Import Js Dom.

Lemma sapp_cons c s t : String c s +:+ t = String c (s +:+ t).
Proof. reflexivity. Qed.

Lemma sapp_nil_l s : "" +:+ s = s.
Proof. reflexivity. Qed.

Lemma sapp_nil_r s : s +:+ "" = s.
Proof. induction s as [|c s IH]; [reflexivity|]. now rewrite sapp_cons, IH. Qed.

Lemma sapp_assoc s t u : (s +:+ t) +:+ u = s +:+ (t +:+ u).
Proof.
  induction s as [|c s IH]; [reflexivity|]. now rewrite !sapp_cons, IH.
Qed.

Lemma sapp_eq_nil s t : s +:+ t = "" -> s = "" /\ t = "".
Proof. destruct s; [now rewrite sapp_nil_l|discriminate]. Qed.

Lemma sapp_ne_nil_l s t : s <> "" -> s +:+ t <> "".
Proof. intros Hs H. now apply sapp_eq_nil in H. Qed.

Lemma sapp_ne_nil_r s t : t <> "" -> s +:+ t <> "".
Proof. intros Ht H. now apply sapp_eq_nil in H. Qed.

Lemma sapp_eq_self s t : s +:+ t = s -> t = "".
Proof.
  intros H. apply (String.app_inj s). now rewrite sapp_nil_r.
Qed.

Lemma strictNe_true a b : strictNe a b = true <-> a <> b.
Proof.
  unfold strictNe. destruct (String.eqb_spec a b); simpl; split; congruence.
Qed.

Lemma strictNe_false a b : strictNe a b = false <-> a = b.
Proof.
  unfold strictNe. destruct (String.eqb_spec a b); simpl; split; congruence.
Qed.

Lemma strictNe_refl a : strictNe a a = false.
Proof. now apply strictNe_false. Qed.

Lemma concatStr_app l1 l2 :
  concatStr (l1 ++ l2) = concatStr l1 +:+ concatStr l2.
Proof.
  induction l1 as [|s l1 IH]; simpl; [reflexivity|].
  now rewrite IH, sapp_assoc.
Qed.

Lemma concatStr_ne_nil l :
  l <> [] -> Forall (fun s => s <> "") l -> concatStr l <> "".
Proof.
  destruct l as [|s l]; [congruence|]. intros _ H. inversion H; subst.
  simpl. now apply sapp_ne_nil_l.
Qed.

(** An element never serialises to the empty string. *)
Lemma outerHTML_element_ne n : isElement n = true -> outerHTML n <> "".
Proof. destruct n as [d|t a k]; [discriminate|]. intros _. discriminate. Qed.

Lemma children_elements n : Forall (fun k => isElement k = true) (children n).
Proof.
  unfold children. apply List.Forall_forall. intros k Hk.
  now apply List.filter_In in Hk.
Qed.

Lemma descendantsTagged_elements tag n :
  Forall (fun k => isElement k = true) (descendantsTagged tag n).
Proof.
  revert n. fix IH 1. intros [d|t a kids]; simpl; [constructor|].
  induction kids as [|k kids IHk]; simpl; [constructor|].
  apply Forall_app. split; [|exact IHk].
  apply Forall_app. split; [|apply IH].
  destruct (isElement k) eqn:E; simpl; [|constructor].
  destruct (String.eqb _ _); repeat constructor. exact E.
Qed.

End StringFacts.

(* ===================================================================== *)
(** * Facts shared by the three paginators *)
(* ===================================================================== *)

Module PaginatorFacts.
Import Js Dom Paginator PageModel StringFacts.

(** A property of the page state that every guarded flush and every append
    keeps is kept by the whole loop. *)
Lemma loop_preserves (P : PState -> Prop) step :
  (forall e s, P s -> P (step e s)) ->
  (forall s, P s -> P (addSpacing s)) ->
  forall l s, P s -> P (loop step l s).
Proof.
  intros Hstep Hsp l. induction l as [|e rest IH]; intros s Hs; simpl; [exact Hs|].
  apply IH. destruct rest; auto.
Qed.

Lemma fold_left_preserves {A B} (P : A -> Prop) (f : A -> B -> A) :
  (forall a b, P a -> P (f a b)) ->
  forall l a, P a -> P (fold_left f l a).
Proof.
  intros Hf l. induction l as [|b l IH]; intros a Ha; simpl; auto.
Qed.

(** ** Pages already pushed are never empty *)

Lemma flush_nonEmpty s :
  pagesNonEmpty s -> currentPageHTML s <> "" -> pagesNonEmpty (flush s).
Proof.
  unfold pagesNonEmpty, flush. simpl. intros H Hc.
  apply Forall_app. split; [exact H|]. now repeat constructor.
Qed.

Lemma headingBreak_nonEmpty e s :
  pagesNonEmpty s -> pagesNonEmpty (headingBreak e s).
Proof.
  intros H. unfold headingBreak. destruct (isHeading e); [|exact H].
  destruct (_ <? _); simpl; [|exact H].
  destruct (strictNe _ _) eqn:E; [|exact H].
  apply flush_nonEmpty; [exact H|]. now apply strictNe_true.
Qed.

Lemma breakIfOverflow_nonEmpty h s :
  pagesNonEmpty s -> pagesNonEmpty (breakIfOverflow h s).
Proof.
  intros H. unfold breakIfOverflow.
  destruct (_ >? _); simpl; [|exact H].
  destruct (strictNe _ _) eqn:E; [|exact H].
  apply flush_nonEmpty; [exact H|]. now apply strictNe_true.
Qed.

Lemma append_nonEmpty html h s :
  pagesNonEmpty s -> pagesNonEmpty (append html h s).
Proof. exact (fun H => H). Qed.

Lemma addSpacing_nonEmpty s : pagesNonEmpty s -> pagesNonEmpty (addSpacing s).
Proof.
  intros H. unfold addSpacing.
  now apply append_nonEmpty, breakIfOverflow_nonEmpty.
Qed.

Lemma finish_nonEmpty placeholder s :
  placeholder <> "" -> pagesNonEmpty s ->
  Forall (fun p => p <> "") (finish placeholder s).
Proof.
  intros Hp H. unfold finish.
  destruct (strictNe (currentPageHTML s) "") eqn:E.
  - apply strictNe_true in E.
    destruct (pages s ++ [currentPageHTML s]) eqn:El.
    + now destruct (pages s).
    + simpl. rewrite <- El. apply Forall_app. split; [exact H|].
      now repeat constructor.
  - destruct (pages s) eqn:El; simpl.
    + now repeat constructor.
    + unfold pagesNonEmpty in H. now rewrite El in H.
Qed.


Lemma keepTogether_step_nonEmpty measure e s :
  pagesNonEmpty s -> pagesNonEmpty (KeepTogether.step measure e s).
Proof.
  intros H. unfold KeepTogether.step.
  now apply append_nonEmpty, breakIfOverflow_nonEmpty, headingBreak_nonEmpty.
Qed.

Lemma placePart_nonEmpty measure name css s part :
  pagesNonEmpty s -> pagesNonEmpty (NotesView.placePart measure name css s part).
Proof.
  intros H. unfold NotesView.placePart.
  now apply append_nonEmpty, breakIfOverflow_nonEmpty.
Qed.

Lemma runStep_nonEmpty measure openT closeT r item :
  pagesNonEmpty (NotesView.page r) ->
  pagesNonEmpty (NotesView.page (NotesView.runStep measure openT closeT r item)).
Proof.
  intros H. unfold NotesView.runStep.
  destruct (_ >? _); simpl; [|exact H].
  destruct (strictNe (currentPageHTML _) "") eqn:E; simpl; [|exact H].
  apply strictNe_true in E.
  destruct (strictNe (NotesView.runHTML r) openT).
  - apply flush_nonEmpty; [exact H|]. simpl. now apply sapp_ne_nil_l.
  - now apply flush_nonEmpty.
Qed.

Lemma splitRun_nonEmpty measure openT closeT items s :
  pagesNonEmpty s -> pagesNonEmpty (NotesView.splitRun measure openT closeT items s).
Proof.
  intros H. unfold NotesView.splitRun.
  set (r := fold_left _ _ _).
  assert (Hr : pagesNonEmpty (NotesView.page r)).
  { subst r.
    apply (fold_left_preserves (fun r => pagesNonEmpty (NotesView.page r)));
      [|exact H].
    intros a b. apply runStep_nonEmpty. }
  destruct (strictNe _ _); [apply append_nonEmpty|]; exact Hr.
Qed.

Lemma notes_step_nonEmpty measure e s :
  pagesNonEmpty s -> pagesNonEmpty (NotesView.step measure e s).
Proof.
  intros H. unfold NotesView.step.
  pose proof (headingBreak_nonEmpty e s H) as H1.
  destruct (_ && _).
  - apply fold_left_preserves; [|exact H1].
    intros a b. apply placePart_nonEmpty.
  - destruct (_ || _); [now apply splitRun_nonEmpty|].
    destruct (String.eqb _ _); [now apply splitRun_nonEmpty|].
    now apply append_nonEmpty, breakIfOverflow_nonEmpty.
Qed.




End PaginatorFacts.

Import Js Dom Paginator PageModel StringFacts PaginatorFacts.

(** C9: no copy of the paginator ever returns an empty page: every string of
    the returned list differs from the empty string, whatever the content
    and whatever the heights measured. *)
Theorem no_empty_page (measure : Node -> Z) (contentContainer : Node) :
  Forall (fun p => p <> "")
    (QAView.splitContentIntoPages measure contentContainer) /\
  Forall (fun p => p <> "")
    (GenericContentView.splitContentIntoPages measure contentContainer) /\
  Forall (fun p => p <> "")
    (NotesView.splitContentIntoPages measure contentContainer).
Proof.
  repeat split.
  - apply finish_nonEmpty; [discriminate|].
    apply loop_preserves; [apply keepTogether_step_nonEmpty
                          |apply addSpacing_nonEmpty|constructor].
  - apply finish_nonEmpty; [discriminate|].
    apply loop_preserves; [apply keepTogether_step_nonEmpty
                          |apply addSpacing_nonEmpty|constructor].
  - apply finish_nonEmpty; [discriminate|].
    apply loop_preserves; [apply notes_step_nonEmpty
                          |apply addSpacing_nonEmpty|constructor].
Qed.

(** ** The heading rule *)

Lemma heading_tag_differs e t :
  isHeading e = true -> isHeading (Elem t [] []) = false ->
  String.eqb (tagName e) t = false.
Proof.
  intros H Ht. destruct (String.eqb_spec (tagName e) t) as [E|_]; [|reflexivity].
  unfold isHeading in *. change (tagName (Elem t [] [])) with t in Ht.
  rewrite E in H. congruence.
Qed.

Lemma heading_not_split e :
  isHeading e = true ->
  String.eqb (tagName e) "P" = false /\ String.eqb (tagName e) "DIV" = false /\
  String.eqb (tagName e) "UL" = false /\ String.eqb (tagName e) "OL" = false /\
  String.eqb (tagName e) "TABLE" = false.
Proof.
  intros H. repeat split; now apply heading_tag_differs.
Qed.

Lemma headingBreak_fires e s :
  isHeading e = true ->
  maxHeightPerPage - currentHeight s < headingThreshold ->
  currentPageHTML s <> "" ->
  headingBreak e s = flush s.
Proof.
  intros He Hs Hc. unfold headingBreak. rewrite He.
  apply Z.ltb_lt in Hs. rewrite Hs.
  apply strictNe_true in Hc. now rewrite Hc.
Qed.

(** The heading rule in the loop bodies: when a block that is a heading
    reaches the body with fewer than 150 of the 900 pixels left on a page
    that already holds something, the page is pushed as it is and the
    heading opens the next one, whatever the heading's own height. *)
Lemma heading_orphan_rule (measure : Node -> Z) (e : Node) (s : PState) :
  isHeading e = true ->
  maxHeightPerPage - currentHeight s < headingThreshold ->
  currentPageHTML s <> "" ->
  KeepTogether.step measure e s =
    {| pages := pages s ++ [currentPageHTML s];
       currentPageHTML := outerHTML e;
       currentHeight := measure e |} /\
  NotesView.step measure e s =
    {| pages := pages s ++ [currentPageHTML s];
       currentPageHTML := outerHTML e;
       currentHeight := measure e |}.
Proof.
  intros He Hs Hc.
  pose proof (headingBreak_fires e s He Hs Hc) as Hb.
  destruct (heading_not_split e He) as (HP & HD & HU & HO & HT).
  split.
  - unfold KeepTogether.step. rewrite Hb.
    unfold breakIfOverflow. simpl. rewrite andb_false_r. reflexivity.
  - unfold NotesView.step. rewrite Hb, HP, HD, HU, HO, HT. simpl.
    rewrite andb_false_r. simpl.
    unfold breakIfOverflow. simpl. rewrite andb_false_r. reflexivity.
Qed.

Lemma heading_orphan_rule_witness :
  let measure := fun _ : Node => 40 in
  let h2 := Elem "H2" [] [Text "Next topic"] in
  let s := {| pages := []; currentPageHTML := "<p>x</p>"; currentHeight := 800 |} in
  KeepTogether.step measure h2 s =
    {| pages := ["<p>x</p>"]; currentPageHTML := "<h2>Next topic</h2>";
       currentHeight := 40 |} /\
  NotesView.step measure h2 s =
    {| pages := ["<p>x</p>"]; currentPageHTML := "<h2>Next topic</h2>";
       currentHeight := 40 |}.
Proof.
  intros measure h2 s.
  apply (heading_orphan_rule measure h2 s);
    [reflexivity | reflexivity | discriminate].
Defined.

(** C4: a heading of a note whose body starts with a heading never reaches
    the heading rule of NotesView as a heading. The handler cuts the markup
    of such a note at the first heading tag, so the blocks of the body come
    at top level, where the flattening reads each of them as a note
    section: the heading, which holds text and no element, is rewritten
    into a paragraph. Here the third block, the heading [Title], arrives
    with 84 of the 900 pixels left on a page that holds two blocks: it
    stays on that page, as a paragraph. With the note section around the
    same blocks NotesView moves the heading to a new page, and so does
    QAView on the very same content. *)
Theorem notes_top_level_heading_not_moved :
  let body := "<h2>Water</h2><p>Intro</p><h3>Title</h3>" in
  let blocks := [Sample.chapter; Sample.paragraph; Sample.title] in
  let water := Elem "P" [] [Text "Water"] in
  NotesText.exportMarkup [ExportJob.lit body] = ExportJob.lit (body +:+ "</div>") /\
  innerHTML (Sample.cutNote blocks) = body /\
  NotesView.flatBlocks (Sample.cutNote blocks)
    = [water; Sample.paragraph; Elem "P" [] [Text "Title"]] /\
  maxHeightPerPage
    - currentHeight
        (addSpacing
           (loop (NotesView.step Sample.tallProbe) [water; Sample.paragraph]
              initial)) = 84 /\
  NotesView.splitContentIntoPages Sample.tallProbe (Sample.cutNote blocks)
    = ["<p>Water</p>" +:+ spacerHTML +:+ "<p>Intro</p>" +:+ spacerHTML
       +:+ "<p>Title</p>"] /\
  NotesView.splitContentIntoPages Sample.tallProbe (Sample.noteOf blocks)
    = ["<h2>Water</h2>" +:+ spacerHTML +:+ "<p>Intro</p>" +:+ spacerHTML;
       "<h3>Title</h3>"] /\
  QAView.splitContentIntoPages Sample.tallProbe (Sample.cutNote blocks)
    = ["<h2>Water</h2>" +:+ spacerHTML +:+ "<p>Intro</p>" +:+ spacerHTML;
       "<h3>Title</h3>"].
Proof.
  intros body blocks water.
  split; [vm_compute; reflexivity|]. repeat split; reflexivity.
Qed.

(** ** Empty input *)








(** ** Lists and tables split by item *)

Module RunFacts.
Import NotesView PageModel.

Section Run.
Variable measure : Node -> Z.
Variables openT closeT : string.

Lemma body_app l1 l2 : itemsHTML (l1 ++ l2) = itemsHTML l1 +:+ itemsHTML l2.
Proof. now rewrite List.map_app, concatStr_app. Qed.

Lemma body_ne_nil l :
  Forall (fun k => isElement k = true) l -> l <> [] -> itemsHTML l <> "".
Proof.
  intros H Hl. apply concatStr_ne_nil.
  - destruct l; [congruence|discriminate].
  - apply Forall_map. eapply Forall_impl; [exact H|].
    intros k Hk. now apply outerHTML_element_ne.
Qed.

(** The open fragment differs from the bare opening tag exactly when it
    holds an item. *)
Lemma open_run_test l :
  Forall (fun k => isElement k = true) l ->
  strictNe (openT +:+ itemsHTML l) openT = negb (bool_decide (l = [])).
Proof.
  intros H. destruct l as [|k l].
  - simpl. now rewrite sapp_nil_r, strictNe_refl.
  - rewrite bool_decide_eq_false_2 by discriminate. simpl negb.
    apply strictNe_true. intros E. apply sapp_eq_self in E.
    revert E. now apply body_ne_nil.
Qed.

(** On an empty page the item loop never pushes a page. *)
Lemma run_on_empty_page l : forall r,
  currentPageHTML (page r) = "" ->
  page (fold_left (runStep measure openT closeT) l r) = page r /\
  runHTML (fold_left (runStep measure openT closeT) l r)
    = runHTML r +:+ itemsHTML l.
Proof.
  induction l as [|k l IH]; intros r Hr; simpl.
  - now rewrite sapp_nil_r.
  - set (r' := runStep measure openT closeT r k).
    assert (Hp : page r' = page r /\ runHTML r' = runHTML r +:+ outerHTML k).
    { subst r'. unfold runStep. rewrite Hr, strictNe_refl, andb_false_r.
      now simpl. }
    destruct Hp as [Hp Hh].
    destruct (IH r') as [IH1 IH2]; [now rewrite Hp|].
    rewrite IH1, IH2, Hp, Hh. split; [reflexivity|]. now rewrite sapp_assoc.
Qed.

(** The item loop pushes at most one page. [done] are the items already
    in the open fragment. *)
Lemma run_shape l : forall r done,
  Forall (fun k => isElement k = true) done ->
  Forall (fun k => isElement k = true) l ->
  runHTML r = openT +:+ itemsHTML done ->
  let r' := fold_left (runStep measure openT closeT) l r in
  (page r' = page r /\ runHTML r' = openT +:+ itemsHTML (done ++ l)) \/
  (exists l1 l2, l = l1 ++ l2 /\ l2 <> [] /\
     pages (page r') = pages (page r) ++
       [currentPageHTML (page r) +:+ wrapItems openT closeT (done ++ l1)] /\
     currentPageHTML (page r') = "" /\
     runHTML r' = openT +:+ itemsHTML l2).
Proof.
  induction l as [|k l IH]; intros r done Hd Hl Hr; simpl.
  - left. now rewrite List.app_nil_r.
  - inversion Hl as [|? ? Hk Hl']; subst.
    set (r1 := runStep measure openT closeT r k).
    destruct ((currentHeight (page r) + runHeight r + measure k >? maxHeightPerPage)
              && strictNe (currentPageHTML (page r)) "") eqn:Hc.
    + (* the page is pushed before [k] *)
      right. exists [], (k :: l). split; [reflexivity|]. split; [discriminate|].
      assert (Hp : pages (page r1) = pages (page r) ++
                [currentPageHTML (page r) +:+ wrapItems openT closeT done]
              /\ currentPageHTML (page r1) = ""
              /\ runHTML r1 = openT +:+ outerHTML k).
      { subst r1. unfold runStep. rewrite Hc. rewrite Hr, open_run_test by exact Hd.
        destruct done as [|d done]; simpl.
        - now rewrite sapp_nil_r.
        - now rewrite sapp_assoc. }
      destruct Hp as (Hp1 & Hp2 & Hp3).
      destruct (run_on_empty_page l r1 Hp2) as [E1 E2].
      rewrite List.app_nil_r, E1, E2, Hp1, Hp2, Hp3.
      repeat split. now rewrite sapp_assoc.
    + assert (Hp : page r1 = page r /\ runHTML r1 = openT +:+ itemsHTML (done ++ [k])).
      { subst r1. unfold runStep. rewrite Hc. simpl. split; [reflexivity|].
        rewrite Hr, body_app, sapp_assoc. simpl. now rewrite sapp_nil_r. }
      destruct Hp as [Hp1 Hp2].
      assert (Hd' : Forall (fun k => isElement k = true) (done ++ [k])).
      { apply Forall_app. split; [exact Hd|]. now repeat constructor. }
      destruct (IH r1 (done ++ [k]) Hd' Hl' Hp2) as [[I1 I2]|(l1 & l2 & E & Hn & I1 & I2 & I3)].
      * left. rewrite I1, I2, Hp1, <- List.app_assoc. now split.
      * right. exists (k :: l1), l2. rewrite I1, I2, I3, Hp1, E.
        rewrite <- List.app_assoc. now repeat split.
Qed.

(** A list or table leaves the page state in one of two shapes: all its
    items in one fragment appended to the current page, or a first
    fragment (possibly none) closing the current page and a second one,
    never empty, opening the next. *)
Lemma splitRun_shape items s :
  Forall (fun k => isElement k = true) items ->
  let s' := splitRun measure openT closeT items s in
  (pages s' = pages s /\
   currentPageHTML s' = currentPageHTML s +:+ wrapItems openT closeT items) \/
  (exists l1 l2, items = l1 ++ l2 /\ l2 <> [] /\
     pages s' = pages s ++ [currentPageHTML s +:+ wrapItems openT closeT l1] /\
     currentPageHTML s' = wrapItems openT closeT l2).
Proof.
  intros Hi. unfold splitRun.
  set (r0 := {| page := s; runHTML := openT; runHeight := 0 |}).
  destruct (run_shape items r0 [] (List.Forall_nil _) Hi) as
    [[I1 I2]|(l1 & l2 & E & Hn & I1 & I2 & I3)].
  { simpl. now rewrite sapp_nil_r. }
  - left. simpl in I2. rewrite I2, I1, open_run_test by exact Hi.
    destruct items as [|k items]; simpl.
    + now rewrite sapp_nil_r.
    + split; [reflexivity|]. now rewrite sapp_assoc.
  - right. exists l1, l2. split; [exact E|]. split; [exact Hn|].
    assert (Hl2 : Forall (fun k => isElement k = true) l2).
    { rewrite E in Hi. now apply Forall_app in Hi. }
    rewrite I3, open_run_test by exact Hl2.
    destruct l2 as [|k l2]; [congruence|]. simpl.
    rewrite I1, I2. simpl. split; [reflexivity|]. now rewrite sapp_assoc.
Qed.
End Run.

Import Dom.

Lemma splittable_cases e :
  isSplittable e = true ->
  exists a k, e = Elem "UL" a k \/ e = Elem "OL" a k \/ e = Elem "TABLE" a k.
Proof.
  unfold isSplittable. destruct e as [d|t a k]; simpl; [discriminate|].
  intros H. exists a, k.
  destruct (String.eqb_spec t "UL") as [ -> |_]; [now left|].
  destruct (String.eqb_spec t "OL") as [ -> |_]; [now right; left|].
  destruct (String.eqb_spec t "TABLE") as [ -> |_]; [now right; right|].
  discriminate.
Qed.

Lemma splitItems_elements e :
  Forall (fun k => isElement k = true) (splitItems e).
Proof.
  unfold splitItems. destruct (String.eqb _ _).
  - apply descendantsTagged_elements.
  - apply children_elements.
Qed.

(** For a list or a table the loop itemsHTML is the item loop, and what it writes
    around the items is the serialisation of an element of the same tag. *)
Lemma notes_step_splittable measure e s :
  isSplittable e = true ->
  exists openT closeT,
    NotesView.step measure e s = splitRun measure openT closeT (splitItems e) s /\
    forall l, wrapItems openT closeT l = fragment e l.
Proof.
  intros H. destruct (splittable_cases e H) as (a & k & [ -> | [ -> | -> ] ]).
  - exists "<ul>", "</ul>". split.
    + unfold NotesView.step. cbn [tagName]. rewrite andb_false_r. reflexivity.
    + intros [|x l]; reflexivity.
  - exists "<ol>", "</ol>". split.
    + unfold NotesView.step. cbn [tagName]. rewrite andb_false_r. reflexivity.
    + intros [|x l]; reflexivity.
  - exists "<table>", "</table>". split.
    + unfold NotesView.step. cbn [tagName]. rewrite andb_false_r. reflexivity.
    + intros [|x l]; reflexivity.
Qed.

End RunFacts.

(** The list and table branches of the NotesView loop body: what they write
    for a block that reaches them as a list (UL/OL) or a table is made of
    complete elements, either one fragment with all the items, appended to
    the current page, or a first fragment that closes the page being pushed
    and a second, never empty, that opens the next page. Each fragment is
    the serialisation of an element with the tag of the block and a run of
    its items as children. *)
Lemma split_fragments_wellformed (measure : Node -> Z) (e : Node) (s : PState) :
  PageModel.isSplittable e = true ->
  let s' := NotesView.step measure e s in
  (pages s' = pages s /\
   currentPageHTML s'
     = currentPageHTML s +:+ PageModel.fragment e (PageModel.splitItems e)) \/
  (exists l1 l2,
     PageModel.splitItems e = l1 ++ l2 /\ l2 <> [] /\
     pages s' = pages s ++ [currentPageHTML s +:+ PageModel.fragment e l1] /\
     currentPageHTML s' = PageModel.fragment e l2).
Proof.
  intros H s'.
  destruct (RunFacts.notes_step_splittable measure e s H)
    as (openT & closeT & Hstep & Hwrap).
  subst s'. rewrite Hstep, <- !Hwrap.
  destruct (RunFacts.splitRun_shape measure openT closeT (PageModel.splitItems e) s
              (RunFacts.splitItems_elements e))
    as [Hl|(l1 & l2 & E & Hn & I1 & I2)].
  - left. exact Hl.
  - right. exists l1, l2. now rewrite <- !Hwrap.
Qed.


Lemma split_fragments_wellformed_witness :
  let measure := fun n : Node => if String.eqb (tagName n) "LI" then 400 else 100 in
  let li := fun t => Elem "LI" [] [Text t] in
  let e := Elem "OL" [("start", "4")] [li "a"; li "b"; li "c"] in
  let s := {| pages := []; currentPageHTML := "<p>x</p>"; currentHeight := 100 |} in
  let s' := NotesView.step measure e s in
  (pages s' = pages s /\
   currentPageHTML s'
     = currentPageHTML s +:+ PageModel.fragment e (PageModel.splitItems e)) \/
  (exists l1 l2,
     PageModel.splitItems e = l1 ++ l2 /\ l2 <> [] /\
     pages s' = pages s ++ [currentPageHTML s +:+ PageModel.fragment e l1] /\
     currentPageHTML s' = PageModel.fragment e l2).
Proof.
  intros measure li e s.
  apply (split_fragments_wellformed measure e s). reflexivity.
Defined.

(** C3: the list of a note whose body starts with a heading never reaches
    the list branch of NotesView. The handler cuts the markup of such a
    note at the first heading tag, so the blocks of the body come at top
    level, where the flattening reads each of them as a note section: the
    list is replaced by its items. Here the three items of 400 pixels go to
    two pages as bare [li] elements, with spacers between them and no list
    tag on either page. With the note section around the same blocks the
    list is cut into two fragments, each between its own opening and
    closing tag. *)
Theorem notes_top_level_list_unwrapped :
  let body := "<h2>Water</h2><ul><li>a</li><li>b</li><li>c</li></ul>" in
  let blocks := [Sample.chapter; Sample.steps] in
  NotesText.exportMarkup [ExportJob.lit body] = ExportJob.lit (body +:+ "</div>") /\
  innerHTML (Sample.cutNote blocks) = body /\
  NotesView.flatBlocks (Sample.cutNote blocks)
    = Elem "P" [] [Text "Water"] :: children Sample.steps /\
  NotesView.splitContentIntoPages Sample.tallProbe (Sample.cutNote blocks)
    = ["<p>Water</p>" +:+ spacerHTML +:+ "<li>a</li>" +:+ spacerHTML
       +:+ "<li>b</li>" +:+ spacerHTML;
       "<li>c</li>"] /\
  NotesView.splitContentIntoPages Sample.tallProbe (Sample.noteOf blocks)
    = ["<h2>Water</h2>" +:+ spacerHTML +:+ "<ul><li>a</li><li>b</li></ul>";
       "<ul><li>c</li></ul>"].
Proof.
  intros body blocks.
  split; [vm_compute; reflexivity|]. repeat split; reflexivity.
Qed.

(** ** The words of a paragraph split by word *)

Module WordFacts.

Lemma truthy_nil : truthy "" = false.
Proof. reflexivity. Qed.

Lemma truthy_cons c s : truthy (String c s) = true.
Proof. reflexivity. Qed.

(** After a run of white space the flag no longer matters. *)
Lemma words_go_flag s :
  List.filter truthy (splitWs_go s "" true) = List.filter truthy (splitWs_go s "" false).
Proof. destruct s as [|c r]; simpl; [reflexivity|]. now destruct (isSpace c). Qed.

Lemma words_go_space c r cur inRun :
  isSpace c = true -> (inRun = true -> cur = "") ->
  List.filter truthy (splitWs_go (String c r) cur inRun)
  = List.filter truthy [cur] ++ List.filter truthy (splitWs_go r "" true).
Proof.
  intros Hc Hst. simpl. rewrite Hc. destruct inRun.
  - now rewrite (Hst eq_refl).
  - simpl. now destruct (truthy cur).
Qed.



Lemma words_trimStart s : words (trimStart s) = words s.
Proof.
  induction s as [|c r IH]; [reflexivity|]. simpl. destruct (isSpace c) eqn:Hc.
  - rewrite IH. unfold words, splitWs. rewrite words_go_space; try assumption.
    + simpl. now rewrite words_go_flag.
    + intros H. discriminate.
  - reflexivity.
Qed.

Lemma words_go_trimEnd s : forall cur inRun,
  (inRun = true -> cur = "") ->
  List.filter truthy (splitWs_go (trimEnd s) cur inRun)
  = List.filter truthy (splitWs_go s cur inRun).
Proof.
  induction s as [|c r IH]; intros cur inRun Hst; [reflexivity|].
  cbn [trimEnd]. destruct (isSpace c) eqn:Hc.
  - destruct (String.eqb_spec (trimEnd r) "") as [E|E]; cbn [andb].
    + rewrite words_go_space by assumption.
      rewrite <- (IH "" true) by (intros _; reflexivity). rewrite E. simpl.
      now rewrite List.app_nil_r.
    + rewrite !words_go_space by assumption.
      now rewrite IH by (intros _; reflexivity).
  - cbn [andb]. simpl. rewrite Hc. apply IH. intros H. discriminate.
Qed.

Lemma words_trim s : words (trim s) = words s.
Proof.
  unfold trim, words, splitWs.
  rewrite words_go_trimEnd by (intros H; discriminate).
  apply words_trimStart.
Qed.



Lemma hasNoSpace_snoc cur c :
  hasNoSpace cur = true -> isSpace c = false ->
  hasNoSpace (cur +:+ String c "") = true.
Proof.
  induction cur as [|d r IH]; intros H Hc.
  - simpl. now rewrite Hc.
  - rewrite sapp_cons. cbn [hasNoSpace] in *.
    apply andb_true_iff in H as [Hd Hr]. now rewrite Hd, IH.
Qed.

Lemma splitWs_go_pieces s : forall cur inRun,
  hasNoSpace cur = true ->
  Forall (fun w => hasNoSpace w = true) (splitWs_go s cur inRun).
Proof.
  induction s as [|c r IH]; intros cur inRun Hcur; simpl.
  - now repeat constructor.
  - destruct (isSpace c) eqn:Hc.
    + destruct inRun; [now apply IH|]. constructor; [exact Hcur|now apply IH].
    + apply IH. now apply hasNoSpace_snoc.
Qed.

Lemma splitWs_pieces s : Forall (fun w => hasNoSpace w = true) (splitWs s).
Proof. now apply splitWs_go_pieces. Qed.

Section Words.
Variable measure : Node -> Z.
Variables name css : string.




End Words.
End WordFacts.

(** ** What the pages hold, read one after the other *)

Module ContentFacts.
Import PageModel.













Lemma splittable_not_text e :
  isSplittable e = true ->
  String.eqb (tagName e) "P" || String.eqb (tagName e) "DIV" = false.
Proof.
  intros H. destruct (RunFacts.splittable_cases e H) as (a & k & [ -> | [ -> | -> ] ]);
    reflexivity.
Qed.


End ContentFacts.






(** ** The budget in the copies that keep blocks whole *)

Module BudgetFacts.
Import PageModel.

Section Budget.
Variable measure : Node -> Z.

Lemma pageHTML_nil_iff g : Forall solid g -> (pageHTML g = "" <-> g = []).
Proof.
  intros H. split; [|now intros ->].
  destruct g as [|it g]; [reflexivity|]. inversion H; subst.
  unfold pageHTML. simpl. intros E. now apply sapp_eq_nil in E.
Qed.

Lemma pageHTML_snoc g it : pageHTML (g ++ [it]) = pageHTML g +:+ itemHTML it.
Proof.
  unfold pageHTML. rewrite List.map_app, concatStr_app. simpl.
  now rewrite sapp_nil_r.
Qed.

Lemma pageHeight_snoc g it :
  pageHeight measure (g ++ [it]) = pageHeight measure g + itemHeight measure it.
Proof. induction g as [|x g IH]; simpl; lia. Qed.

Lemma fits_single it : fits measure [it].
Proof.
  destruct it as [e|]; intros H; [now exists e|].
  simpl in H. unfold spacing, maxHeightPerPage in H. lia.
Qed.

Lemma repr_flush s gs g :
  Repr measure s gs g -> currentPageHTML s <> "" -> Repr measure (flush s) (gs ++ [g]) [].
Proof.
  intros [Hp Hc Hh Hg Hf Hs] Hne. split; simpl.
  - now rewrite Hp, List.map_app, Hc.
  - reflexivity.
  - reflexivity.
  - apply Forall_app. split; [exact Hg|]. repeat constructor; [|exact Hf].
    intros ->. now apply Hne.
  - intros H. simpl in H. unfold maxHeightPerPage in H. lia.
  - constructor.
Qed.

Lemma repr_headingBreak e s gs g :
  Repr measure s gs g ->
  exists gs' g', Repr measure (headingBreak e s) gs' g' /\
                 List.concat gs' ++ g' = List.concat gs ++ g.
Proof.
  intros H. unfold headingBreak.
  destruct (isHeading e); [|now exists gs, g].
  destruct (_ <? _); simpl; [|now exists gs, g].
  destruct (strictNe _ _) eqn:E; [|now exists gs, g].
  apply strictNe_true in E. exists (gs ++ [g]), [].
  split; [now apply repr_flush|].
  rewrite List.concat_app. simpl. now rewrite !List.app_nil_r.
Qed.

(** Placing one item: the guarded flush, then the append. *)
Lemma repr_place it s gs g :
  Repr measure s gs g -> solid it ->
  exists gs' g',
    Repr measure (append (itemHTML it) (itemHeight measure it)
            (breakIfOverflow (itemHeight measure it) s)) gs' g' /\
    List.concat gs' ++ g' = List.concat gs ++ g ++ [it].
Proof.
  intros H Hit. unfold breakIfOverflow.
  destruct (currentHeight s + itemHeight measure it >? maxHeightPerPage) eqn:Ho;
    simpl.
  - destruct (strictNe (currentPageHTML s) "") eqn:E.
    + apply strictNe_true in E.
      exists (gs ++ [g]), [it]. split.
      * destruct (repr_flush s gs g H E) as [Hp Hc Hh Hg Hf Hs].
        split; simpl in *.
        -- exact Hp.
        -- unfold pageHTML. simpl. now rewrite sapp_nil_r.
        -- lia.
        -- exact Hg.
        -- apply fits_single.
        -- now repeat constructor.
      * rewrite List.concat_app. simpl. now rewrite List.app_nil_r, <- List.app_assoc.
    + apply strictNe_false in E.
      destruct H as [Hp Hc Hh Hg Hf Hs].
      assert (Hnil : g = []).
      { apply pageHTML_nil_iff; [exact Hs|]. now rewrite <- Hc. }
      subst g. exists gs, [it]. split; [|reflexivity].
      split; simpl in *.
      * exact Hp.
      * rewrite E. unfold pageHTML. simpl. now rewrite sapp_nil_r.
      * lia.
      * exact Hg.
      * apply fits_single.
      * now repeat constructor.
  - destruct H as [Hp Hc Hh Hg Hf Hs].
    exists gs, (g ++ [it]). split; [|reflexivity].
    split; simpl.
    + exact Hp.
    + now rewrite pageHTML_snoc, Hc.
    + now rewrite pageHeight_snoc, Hh.
    + exact Hg.
    + intros Hbig. rewrite pageHeight_snoc, <- Hh in Hbig.
      rewrite Z.gtb_ltb in Ho. unfold maxHeightPerPage in *.
      rewrite Z.ltb_ge in Ho. lia.
    + apply Forall_app. split; [exact Hs|now repeat constructor].
Qed.

Lemma solid_spacer : solid Spacer.
Proof. discriminate. Qed.

Lemma solid_block e : isElement e = true -> solid (Block e).
Proof. apply outerHTML_element_ne. Qed.

Lemma repr_step e s gs g :
  Repr measure s gs g -> isElement e = true ->
  exists gs' g', Repr measure (KeepTogether.step measure e s) gs' g' /\
                 List.concat gs' ++ g' = List.concat gs ++ g ++ [Block e].
Proof.
  intros H He. unfold KeepTogether.step.
  destruct (repr_headingBreak e s gs g H) as (gs1 & g1 & H1 & E1).
  destruct (repr_place (Block e) _ gs1 g1 H1 (solid_block e He))
    as (gs2 & g2 & H2 & E2).
  exists gs2, g2. split; [exact H2|].
  now rewrite E2, List.app_assoc, E1, <- List.app_assoc.
Qed.

Lemma repr_addSpacing s gs g :
  Repr measure s gs g ->
  exists gs' g', Repr measure (addSpacing s) gs' g' /\
                 List.concat gs' ++ g' = List.concat gs ++ g ++ [Spacer].
Proof. intros H. exact (repr_place Spacer s gs g H solid_spacer). Qed.

Lemma repr_loop l : forall s gs g,
  Repr measure s gs g -> Forall (fun e => isElement e = true) l ->
  exists gs' g', Repr measure (loop (KeepTogether.step measure) l s) gs' g' /\
                 List.concat gs' ++ g' = List.concat gs ++ g ++ interleave l.
Proof.
  induction l as [|e rest IH]; intros s gs g H Hl.
  - exists gs, g. split; [exact H|]. simpl. now rewrite List.app_nil_r.
  - inversion Hl as [|? ? He Hrest]; subst. cbn [loop].
    destruct (repr_step e s gs g H He) as (gs1 & g1 & H1 & E1).
    destruct rest as [|e' rest'].
    + exists gs1, g1. split; [exact H1|exact E1].
    + destruct (repr_addSpacing _ gs1 g1 H1) as (gs2 & g2 & H2 & E2).
      destruct (IH _ gs2 g2 H2 Hrest) as (gs3 & g3 & H3 & E3).
      exists gs3, g3. split; [exact H3|].
      rewrite E3, List.app_assoc, E2, List.app_assoc, E1.
      cbn [interleave]. now rewrite <- !List.app_assoc.
Qed.

Lemma repr_initial : Repr measure initial [] [].
Proof.
  split; simpl; try reflexivity; try constructor.
  intros H. simpl in H. unfold maxHeightPerPage in H. lia.
Qed.
End Budget.
End BudgetFacts.

(** X1: the budget holds in QAView and GenericContentView. The pages returned
    for a content with at least one block are the blocks, with a spacer
    between neighbours, cut into consecutive non-empty groups; the height
    accounted for a group (measured heights of its blocks, 8 for a spacer)
    exceeds 900 only when the group is one block alone, taller than 900. *)
Theorem keepTogether_budget (measure : Node -> Z) (placeholder : string)
    (contentContainer : Node) :
  children contentContainer <> [] ->
  exists groups : list (list PageModel.Item),
    List.concat groups = PageModel.interleave (children contentContainer) /\
    KeepTogether.splitContentIntoPages measure placeholder contentContainer
      = List.map PageModel.pageHTML groups /\
    Forall (fun g =>
              g <> [] /\
              (PageModel.pageHeight measure g > maxHeightPerPage ->
               exists e, g = [PageModel.Block e] /\ measure e > maxHeightPerPage))
      groups.
Proof.
  intros Hne. unfold KeepTogether.splitContentIntoPages.
  destruct (BudgetFacts.repr_loop measure (children contentContainer) initial [] []
              (BudgetFacts.repr_initial measure) (children_elements _))
    as (gs & g & [Hp Hc Hh Hg Hf Hs] & E).
  simpl in E.
  assert (Hgroup : forall g', g' <> [] /\ PageModel.fits measure g' ->
            g' <> [] /\
            (PageModel.pageHeight measure g' > maxHeightPerPage ->
             exists e, g' = [PageModel.Block e] /\ measure e > maxHeightPerPage)).
  { intros g' [Hn Hfit]. split; [exact Hn|]. intros Hbig.
    destruct (Hfit Hbig) as [e ->]. exists e. split; [reflexivity|].
    simpl in Hbig. lia. }
  unfold finish.
  destruct (strictNe (currentPageHTML _) "") eqn:Ecur.
  - apply strictNe_true in Ecur.
    assert (Hg' : g <> []) by (intros ->; now apply Ecur).
    exists (gs ++ [g]). split; [|split].
    + rewrite List.concat_app. simpl. now rewrite List.app_nil_r.
    + rewrite Hp, Hc, List.map_app. simpl.
      destruct (List.map PageModel.pageHTML gs ++ [PageModel.pageHTML g]) eqn:El;
        [now destruct (List.map PageModel.pageHTML gs)|reflexivity].
    + apply Forall_app. split.
      * eapply Forall_impl; [exact Hg|]. exact Hgroup.
      * repeat constructor; [exact Hg'|]. now apply Hgroup.
  - apply strictNe_false in Ecur.
    assert (Hnil : g = []).
    { apply BudgetFacts.pageHTML_nil_iff; [exact Hs|]. now rewrite <- Hc. }
    subst g. rewrite List.app_nil_r in E.
    exists gs. split; [exact E|]. split.
    + rewrite Hp. destruct gs as [|g0 gs'].
      * simpl in E. destruct (children contentContainer) as [|b [|b' r]];
          [congruence|discriminate|discriminate].
      * reflexivity.
    + eapply Forall_impl; [exact Hg|]. exact Hgroup.
Qed.

(** ** The budget in NotesView *)

Lemma run_height_on_empty_page measure openT closeT l : forall r,
  currentPageHTML (NotesView.page r) = "" ->
  NotesView.runHeight (fold_left (NotesView.runStep measure openT closeT) l r)
  = NotesView.runHeight r + PageModel.totalHeight measure l.
Proof.
  induction l as [|k l IH]; intros r Hr; simpl; [lia|].
  set (r1 := NotesView.runStep measure openT closeT r k).
  assert (H1 : NotesView.page r1 = NotesView.page r /\
               NotesView.runHeight r1 = NotesView.runHeight r + measure k).
  { subst r1. unfold NotesView.runStep.
    rewrite Hr, strictNe_refl, andb_false_r. now simpl. }
  destruct H1 as [Hp Hh]. rewrite IH by now rewrite Hp. lia.
Qed.

(** X2: a list or table that the NotesView loop reaches with an empty current
    page is never split: no page is pushed, all its items go into one
    fragment on the current page, and the height accounted for the page
    grows by the sum of the item heights, whatever that sum is. The flush
    inside the item loop is guarded by the page being non-empty, and the
    items waiting in the open fragment are not yet part of the page. *)
Lemma notes_list_unsplit_on_empty_page (measure : Node -> Z) (e : Node)
    (s : PState) :
  PageModel.isSplittable e = true ->
  currentPageHTML s = "" ->
  let s' := NotesView.step measure e s in
  pages s' = pages s /\
  currentPageHTML s' = PageModel.fragment e (PageModel.splitItems e) /\
  currentHeight s'
    = currentHeight s + PageModel.totalHeight measure (PageModel.splitItems e).
Proof.
  intros He Hs s'.
  destruct (RunFacts.notes_step_splittable measure e s He)
    as (openT & closeT & Hstep & Hwrap).
  subst s'. rewrite Hstep, <- Hwrap. unfold NotesView.splitRun.
  set (r0 := {| NotesView.page := s; NotesView.runHTML := openT;
                NotesView.runHeight := 0 |}).
  destruct (RunFacts.run_on_empty_page measure openT closeT
              (PageModel.splitItems e) r0 Hs) as [E1 E2].
  pose proof (run_height_on_empty_page measure openT closeT
                (PageModel.splitItems e) r0 Hs) as E3.
  simpl in E2, E3. rewrite E1, E2, E3.
  rewrite RunFacts.open_run_test by apply RunFacts.splitItems_elements.
  destruct (PageModel.splitItems e) as [|k l]; simpl.
  - repeat split; [exact Hs|lia].
  - rewrite Hs. repeat split. now rewrite sapp_nil_l, sapp_assoc.
Qed.

(** C1 fails in NotesView, on lists whose items are 60 pixels tall each.
    A note whose only block is a list of twenty items comes back as one
    page holding the whole list, 1200 pixels by the loop's own account. A
    note with a paragraph of 100 pixels and a list of forty items comes back
    as two pages: the first holds the paragraph, the spacer and thirteen
    items (888 pixels); the second holds the other twenty-seven items, 1620
    pixels, in one fragment. Neither oversized page is an atomic block: each
    is a run of items every one of which fits a page many times over. *)
Theorem notes_list_overflows_budget :
  NotesView.splitContentIntoPages Sample.probe (Sample.noteOf [Sample.listOf 20])
    = [outerHTML (Sample.listOf 20)] /\
  PageModel.totalHeight Sample.probe (children (Sample.listOf 20)) = 1200 /\
  NotesView.splitContentIntoPages Sample.probe
    (Sample.noteOf [Sample.paragraph; Sample.listOf 40])
    = [outerHTML Sample.paragraph +:+ spacerHTML +:+ outerHTML (Sample.listOf 13);
       outerHTML (Sample.listOf 27)] /\
  PageModel.totalHeight Sample.probe (children (Sample.listOf 27)) = 1620 /\
  Forall (fun li => Sample.probe li = 60) (children (Sample.listOf 40)).
Proof.
  split; [vm_compute; reflexivity|]. split; [vm_compute; reflexivity|].
  split; [vm_compute; reflexivity|]. split; [vm_compute; reflexivity|].
  vm_compute. repeat (constructor; [reflexivity|]). constructor.
Qed.

(* ===================================================================== *)
(** * The export handlers *)
(* ===================================================================== *)

Module ExportFacts.
Import ExportJob.

(** Rasterising changes nothing the handlers keep; it succeeds or throws. *)
Lemma rasterize_pure env pages : forall i w,
  rasterize env pages i w = (inr tt, w) \/
  exists e, rasterize env pages i w = (inl e, w).
Proof.
  induction pages as [|p rest IH]; intros i w; simpl.
  - now left.
  - unfold bind. destruct (html2canvas env i) as [[]|e]; simpl.
    + apply IH.
    + right. now exists e.
Qed.

Lemma succeeded_failure user e w :
  succeeded (setContainerHTML "" (setIsExporting false
               (setSweetAlert (failureAlert user e) w))) = false.
Proof. unfold failureAlert. now destruct (isAdmin user). Qed.

(** A [try] block that completes went through every stage. *)
Lemma exportBody_ok v env user items lessonId email w wf :
  exportBody v env user items lessonId email w = (inr tt, wf) ->
  exists h, getHierarchy env = Resolved h /\
    let ws := setContainerHTML
                (stage env (splitContentIntoPages v (measure env)
                              (assemble env items)))
                (setContainerHTML "" w) in
    if isAdmin user then
      exists wc,
        countLocal v env lessonId
          (clickDownload
             (downloadName (lessonNameOf v h) (label v) (isoNow env)) ws)
          = (inr tt, wc) /\
        wf = setExportModalOpen false
               (setSweetAlert (mkAlert Success DownloadStarted) wc)
    else
      exists res wc,
        sendPdf env = Resolved res /\ ok res && success res = true /\
        countRemote v env lessonId
          (postSubmission (submissionOf v user (lessonNameOf v h) lessonId email)
             (setSweetAlert (mkAlert Loading SendingEmail) ws))
          = (inr tt, wc) /\
        wf = setExportModalOpen false
               (setSweetAlert (mkAlert Success (SentTo email)) wc).
Proof.
  unfold exportBody.
  destruct (getHierarchy env) as [h|e] eqn:Eh; cbn [bind await ret throw];
    [|discriminate].
  destruct (length items =? 0)%nat; cbn [throw]; [discriminate|].
  cbn [bind gets].
  destruct (exportContainer w) as [html|] eqn:Ec; cbn [throw]; [|discriminate].
  cbn [bind modify].
  set (ws := setContainerHTML _ (setContainerHTML "" w)).
  unfold bind at 1.
  destruct (rasterize_pure env
              (splitContentIntoPages v (measure env) (assemble env items)) 0 ws)
    as [Er|[e Er]]; rewrite Er; [|discriminate].
  intros H. exists h. split; [reflexivity|]. cbn zeta.
  unfold bind at 1 in H.
  destruct (isAdmin user).
  - cbn [bind modify] in H. unfold bind at 1 in H.
    destruct (countLocal v env lessonId _) as [[e|[]] wc] eqn:Ecount;
      [discriminate|].
    exists wc. split; [reflexivity|]. cbn [bind modify] in H. now inversion H.
  - cbn [bind modify await] in H.
    destruct (sendPdf env) as [res|e] eqn:Es; cbn [bind ret throw await] in H;
      [|discriminate].
    destruct (ok res && success res) eqn:Eok; cbn [bind throw] in H;
      [|discriminate].
    unfold bind at 1 in H.
    destruct (countRemote v env lessonId _) as [[e|[]] wc] eqn:Ecount;
      [discriminate|].
    exists res, wc. split; [reflexivity|]. split; [exact Eok|].
    split; [reflexivity|]. cbn [bind modify] in H. now inversion H.
Qed.

(** A job that succeeded completed its [try] block. *)
Lemma success_inv v env user items lessonId email w :
  succeeded (handleExportConfirm v env user items lessonId email w) = true ->
  exists wf,
    exportBody v env user items lessonId email
      (setSweetAlert (mkAlert Loading GeneratingPdf) (setIsExporting true w))
      = (inr tt, wf) /\
    handleExportConfirm v env user items lessonId email w
      = setContainerHTML "" (setIsExporting false wf).
Proof.
  unfold handleExportConfirm, finally, catch.
  destruct (exportBody _ _ _ _ _ _ _) as [[e|[]] wf]; cbn [modify snd].
  - now rewrite succeeded_failure.
  - intros _. now exists wf.
Qed.

(** What a job that succeeded leaves in the logs, given what the view's
    counting step does to them. [P w wc] relates the world before the
    counting step to the world after it. *)
Lemma success_counts (P : World -> World -> Prop) v env user items lessonId
    email w :
  (forall w0 wc, countLocal v env lessonId w0 = (inr tt, wc) -> P w0 wc) ->
  (forall w0 wc, countRemote v env lessonId w0 = (inr tt, wc) -> P w0 wc) ->
  succeeded (handleExportConfirm v env user items lessonId email w) = true ->
  exists h w0 wc,
    getHierarchy env = Resolved h /\ P w0 wc /\
    sessionStorage w0 = sessionStorage w /\
    incrementRequests w0 = incrementRequests w /\
    downloads w0 = downloads w ++
      (if isAdmin user
       then [downloadName (lessonNameOf v h) (label v) (isoNow env)] else []) /\
    incrementRequests (handleExportConfirm v env user items lessonId email w)
      = incrementRequests wc /\
    downloads (handleExportConfirm v env user items lessonId email w)
      = downloads wc.
Proof.
  intros HL HR Hs.
  destruct (success_inv _ _ _ _ _ _ _ Hs) as (wf & Hbody & ->).
  destruct (exportBody_ok _ _ _ _ _ _ _ _ Hbody) as (h & Hh & Hcase).
  cbn zeta in Hcase. exists h.
  destruct (isAdmin user).
  - destruct Hcase as (wc & Hc & ->).
    eexists _, wc. split; [exact Hh|]. split; [exact (HL _ _ Hc)|].
    repeat split.
  - destruct Hcase as (res & wc & _ & _ & Hc & ->).
    eexists _, wc. split; [exact Hh|]. split; [exact (HR _ _ Hc)|].
    repeat split. cbn. now rewrite List.app_nil_r.
Qed.

(** ** The counting step of each view *)

Lemma increment_run env lessonId type w :
  incrementLessonDownload env lessonId type w
  = match incrementOutcome env with
    | Resolved _ => (inr tt, logIncrement lessonId type w)
    | Rejected e => (inl e, logIncrement lessonId type w)
    end.
Proof.
  unfold incrementLessonDownload. cbn [bind modify].
  now destruct (incrementOutcome env) as [[]|e].
Qed.

Lemma qa_countLocal env lessonId w wc :
  countLocal qaView env lessonId w = (inr tt, wc) ->
  countedOnce lessonId (lit "qa") w wc.
Proof.
  cbn [countLocal qaView]. rewrite increment_run.
  destruct (incrementOutcome env); [|discriminate].
  intros H. inversion H; subst. now split.
Qed.

Lemma qa_countRemote env lessonId w wc :
  countRemote qaView env lessonId w = (inr tt, wc) ->
  countedOnce lessonId (lit "qa") w wc.
Proof.
  cbn [countRemote qaView]. unfold catch. rewrite increment_run.
  destruct (incrementOutcome env); cbn [ret];
    intros H; inversion H; subst; now split.
Qed.

Lemma generic_count rt lbl env lessonId w wc :
  countLocal (genericView rt lbl) env lessonId w = (inr tt, wc) ->
  countedOnce lessonId rt w wc.
Proof.
  cbn [countLocal genericView]. unfold bind, catch. rewrite increment_run.
  destruct (incrementOutcome env); cbn [ret modify];
    intros H; inversion H; subst; now split.
Qed.

Lemma notes_countLocal env lessonId w wc :
  countLocal notesView env lessonId w = (inr tt, wc) ->
  countedOncePerSession lessonId w wc.
Proof.
  cbn [countLocal notesView]. unfold catch, bind at 1. cbn [gets].
  unfold countedOncePerSession.
  destruct (itemMissing (downloadKey lessonId) w).
  - unfold bind. rewrite increment_run.
    destruct (incrementOutcome env); cbn [ret modify];
      intros H; inversion H; subst; now split.
  - cbn [ret]. intros H. inversion H; subst.
    now rewrite List.app_nil_r.
Qed.

Lemma notes_countRemote env lessonId w wc :
  countRemote notesView env lessonId w = (inr tt, wc) ->
  countedOncePerSession lessonId w wc.
Proof.
  cbn [countRemote notesView]. unfold bind at 1. cbn [gets].
  unfold countedOncePerSession.
  destruct (itemMissing (downloadKey lessonId) w).
  - unfold bind, catch. rewrite increment_run.
    destruct (incrementOutcome env); cbn [ret modify];
      intros H; inversion H; subst; now split.
  - cbn [ret]. intros H. inversion H; subst.
    now rewrite List.app_nil_r.
Qed.

End ExportFacts.

Import ExportJob ExportFacts.

(** C10: whatever the view, the caller, the content and the answers of the
    collaborators, once the handler has settled the exporting flag is off and
    the staging container, if there is one, holds the empty string; the
    [finally] block runs after success and after every error alike. *)
Theorem staging_cleared_after_export (v : View) (env : Env) (user : User)
    (items : list Content) (lessonId email : jsstring) (w : World) :
  let w' := handleExportConfirm v env user items lessonId email w in
  isExporting w' = false /\
  (forall html, exportContainer w' = Some html -> html = "").
Proof.
  unfold handleExportConfirm, finally.
  destruct (catch _ _ _) as [r w2]. cbn [snd]. split; [reflexivity|].
  intros html. cbn. destruct (exportContainer w2); congruence.
Qed.




(** ** The suggested file name *)

Lemma replace_unsafe_spec (s : jsstring) :
  replaceAll unsafeNameChar (lit "_") s
  = List.map (fun c => if isAsciiAlnum c || isTamil c then c else underscore) s.
Proof.
  induction s as [|c s IH]; [reflexivity|].
  cbn [replaceAll flat_map List.map]. fold (replaceAll unsafeNameChar (lit "_") s).
  rewrite IH.
  assert (E : matches unsafeNameChar c = negb (isAsciiAlnum c || isTamil c)).
  { unfold matches, unsafeNameChar, inRanges, isAsciiAlnum, isTamil.
    cbn [negated ranges existsb fst snd xorb].
    repeat match goal with
           | |- context [(?a <=? ?b)%N] => destruct (a <=? b)%N
           end; reflexivity. }
  rewrite E. now destruct (isAsciiAlnum c || isTamil c).
Qed.

Lemma downloadName_spec lessonName label isoNow :
  downloadName lessonName label isoNow
  = specFileName (fun c => isAsciiAlnum c || isTamil c) lessonName label isoNow.
Proof. unfold downloadName, specFileName. now rewrite replace_unsafe_spec. Qed.

(** C7, as the code has it: the file a privileged caller is offered after a
    job that succeeded is named after the lesson (or after the resource
    label when the lesson has no name), the resource label and the first
    ten characters of the ISO date, joined by underscores and followed by
    [.pdf]. In the lesson name every character is replaced by an underscore
    except ASCII letters, ASCII digits and the characters of the Tamil block
    U+0B80 to U+0BFF; label and date are written as they are. *)
Theorem local_file_name (v : View) (env : Env) (user : User)
    (items : list Content) (lessonId email : jsstring) (w : World) :
  v = qaView \/ v = notesView \/
    (exists resourceType label, v = genericView resourceType label) ->
  isAdmin user = true ->
  succeeded (handleExportConfirm v env user items lessonId email w) = true ->
  exists h,
    getHierarchy env = Resolved h /\
    downloads (handleExportConfirm v env user items lessonId email w)
    = downloads w ++
      [specFileName (fun c => isAsciiAlnum c || isTamil c)
         (lessonNameOf v h) (label v) (isoNow env)].
Proof.
  intros Hv Ha Hs.
  assert (Hc : exists P : World -> World -> Prop,
             (forall w0 wc, P w0 wc -> downloads wc = downloads w0) /\
             (forall w0 wc, countLocal v env lessonId w0 = (inr tt, wc) -> P w0 wc) /\
             (forall w0 wc, countRemote v env lessonId w0 = (inr tt, wc) -> P w0 wc)).
  { destruct Hv as [ -> | [ -> | (rt & lbl & ->) ] ].
    - exists (countedOnce lessonId (lit "qa")). split; [now intros ? ? [_ ?]|].
      split; [apply qa_countLocal|apply qa_countRemote].
    - exists (countedOncePerSession lessonId). split; [now intros ? ? [_ ?]|].
      split; [apply notes_countLocal|apply notes_countRemote].
    - exists (countedOnce lessonId rt). split; [now intros ? ? [_ ?]|].
      split; apply (generic_count rt lbl). }
  destruct Hc as (P & HP & HL & HR).
  destruct (success_counts P _ _ _ _ _ _ _ HL HR Hs)
    as (h & w0 & wc & Hh & Hp & _ & _ & Hd & _ & ->).
  exists h. split; [exact Hh|].
  now rewrite (HP _ _ Hp), Hd, Ha, downloadName_spec.
Qed.

Lemma local_file_name_witness :
  exists h,
    getHierarchy Sample.env = Resolved h /\
    downloads
      (handleExportConfirm qaView Sample.env Sample.admin Sample.items
         Sample.lessonId [] Sample.fresh)
    = downloads Sample.fresh ++
      [specFileName (fun c => isAsciiAlnum c || isTamil c)
         (lessonNameOf qaView h) (label qaView) (isoNow Sample.env)].
Proof.
  refine (local_file_name qaView Sample.env Sample.admin Sample.items
            Sample.lessonId [] Sample.fresh (or_introl eq_refl) _ _);
    vm_compute; reflexivity.
Defined.

(** C7 as stated fails: the Tamil letters and signs of a lesson name are
    not alphanumeric characters, yet they are kept; only the space of the
    sample name becomes an underscore. *)
Lemma tamil_lesson_name_kept :
  downloads
    (handleExportConfirm qaView Sample.env Sample.admin Sample.items
       Sample.lessonId [] Sample.fresh)
  = [[2980; 2990; 3007; 2996; 3021]%N ++ lit "_7_QA_2026-11-02.pdf"] /\
  specFileName isAsciiAlnum Sample.lessonName (lit "QA") (isoNow Sample.env)
  = lit "______7_QA_2026-11-02.pdf" /\
  downloads
    (handleExportConfirm qaView Sample.env Sample.admin Sample.items
       Sample.lessonId [] Sample.fresh)
  <> [specFileName isAsciiAlnum Sample.lessonName (lit "QA") (isoNow Sample.env)].
Proof.
  split; [vm_compute; reflexivity|]. split; [vm_compute; reflexivity|].
  vm_compute. discriminate.
Qed.

(* ===================================================================== *)
(** * Further properties of the code *)
(* ===================================================================== *)

Import Js Dom Paginator StringFacts PaginatorFacts ExportJob ExportFacts.

(* ===================================================================== *)
(** * More about the pages *)
(* ===================================================================== *)

Module PageFacts.
Import Js Dom Paginator PageModel StringFacts PaginatorFacts.

Lemma loop_ext_in step1 step2 : forall l s,
  (forall e, In e l -> forall s', step1 e s' = step2 e s') ->
  loop step1 l s = loop step2 l s.
Proof.
  induction l as [|e rest IH]; intros s H; cbn [loop]; [reflexivity|].
  rewrite (H e) by now left.
  apply IH. intros e' He'. apply H. now right.
Qed.

(** On a block that is neither a list, a table nor an oversized paragraph
    the loop body of NotesView is the one of the other two views. *)
Lemma notes_step_plain measure e s :
  isSplittable e = false -> isOversizedText measure e = false ->
  NotesView.step measure e s = KeepTogether.step measure e s.
Proof.
  unfold isSplittable, isOversizedText, NotesView.step, KeepTogether.step.
  intros Hs Ho. cbn zeta. rewrite Ho.
  apply orb_false_iff in Hs. destruct Hs as [Hl Ht].
  now rewrite Hl, Ht.
Qed.

Lemma flattenSection_elements n :
  Forall (fun k => isElement k = true) (NotesView.flattenSection n).
Proof.
  unfold NotesView.flattenSection.
  destruct (_ && _); [now repeat constructor|apply children_elements].
Qed.

Lemma flatBlocks_elements c :
  Forall (fun k => isElement k = true) (NotesView.flatBlocks c).
Proof.
  unfold NotesView.flatBlocks.
  destruct (_ && _); [apply children_elements|].
  induction (children c) as [|n l IH]; cbn [List.map List.concat];
    [constructor|].
  apply Forall_app. split; [apply flattenSection_elements|exact IH].
Qed.

(** The budget of the loop that keeps blocks whole, for any list of
    blocks. *)
Lemma keepTogether_loop_budget measure placeholder l :
  l <> [] -> Forall (fun e => isElement e = true) l ->
  exists groups : list (list Item),
    List.concat groups = interleave l /\
    finish placeholder (loop (KeepTogether.step measure) l initial)
      = List.map pageHTML groups /\
    Forall (fun g =>
              g <> [] /\
              (pageHeight measure g > maxHeightPerPage ->
               exists e, g = [Block e] /\ measure e > maxHeightPerPage))
      groups.
Proof.
  intros Hne Hel.
  destruct (BudgetFacts.repr_loop measure l initial [] []
              (BudgetFacts.repr_initial measure) Hel)
    as (gs & g & [Hp Hc Hh Hg Hf Hs] & E).
  simpl in E.
  assert (Hgroup : forall g', g' <> [] /\ fits measure g' ->
            g' <> [] /\
            (pageHeight measure g' > maxHeightPerPage ->
             exists e, g' = [Block e] /\ measure e > maxHeightPerPage)).
  { intros g' [Hn Hfit]. split; [exact Hn|]. intros Hbig.
    destruct (Hfit Hbig) as [e ->]. exists e. split; [reflexivity|].
    simpl in Hbig. lia. }
  unfold finish.
  destruct (strictNe (currentPageHTML _) "") eqn:Ecur.
  - apply strictNe_true in Ecur.
    assert (Hg' : g <> []) by (intros ->; now apply Ecur).
    exists (gs ++ [g]). split; [|split].
    + rewrite List.concat_app. simpl. now rewrite List.app_nil_r.
    + rewrite Hp, Hc, List.map_app. simpl.
      destruct (List.map pageHTML gs ++ [pageHTML g]) eqn:El;
        [now destruct (List.map pageHTML gs)|reflexivity].
    + apply Forall_app. split.
      * eapply Forall_impl; [exact Hg|]. exact Hgroup.
      * repeat constructor; [exact Hg'|]. now apply Hgroup.
  - apply strictNe_false in Ecur.
    assert (Hnil : g = []).
    { apply BudgetFacts.pageHTML_nil_iff; [exact Hs|]. now rewrite <- Hc. }
    subst g. rewrite List.app_nil_r in E.
    exists gs. split; [exact E|]. split.
    + rewrite Hp. destruct gs as [|g0 gs'].
      * simpl in E. destruct l as [|b [|b' r]];
          [congruence|discriminate|discriminate].
      * reflexivity.
    + eapply Forall_impl; [exact Hg|]. exact Hgroup.
Qed.

(** ** Content that fits one page *)

Lemma interleave_cons b rest :
  rest <> [] -> interleave (b :: rest) = Block b :: Spacer :: interleave rest.
Proof. destruct rest; [congruence|reflexivity]. Qed.

Lemma pageHeight_interleave_nonneg measure l :
  Forall (fun e => 0 <= measure e) l -> 0 <= pageHeight measure (interleave l).
Proof.
  induction l as [|b rest IH]; intros H; [simpl; lia|].
  inversion H as [|? ? Hb Hrest]; subst.
  destruct rest as [|b' rest']; [simpl; lia|].
  rewrite interleave_cons by discriminate. cbn [pageHeight itemHeight].
  specialize (IH Hrest). unfold spacing. lia.
Qed.

Lemma keepTogether_step_fits measure e s :
  currentHeight s + measure e <= maxHeightPerPage ->
  (isHeading e = true -> currentHeight s <= maxHeightPerPage - headingThreshold) ->
  KeepTogether.step measure e s = append (outerHTML e) (measure e) s.
Proof.
  intros Hfit Hhead. unfold KeepTogether.step, headingBreak, breakIfOverflow.
  cbn zeta.
  assert (E1 : (if isHeading e
                then if (maxHeightPerPage - currentHeight s <? headingThreshold)
                        && strictNe (currentPageHTML s) ""
                     then flush s else s
                else s) = s).
  { destruct (isHeading e); [|reflexivity].
    specialize (Hhead eq_refl).
    destruct (Z.ltb_spec (maxHeightPerPage - currentHeight s) headingThreshold);
      [lia|reflexivity]. }
  rewrite E1.
  destruct (Z.gtb_spec (currentHeight s + measure e) maxHeightPerPage);
    [lia|reflexivity].
Qed.

Lemma addSpacing_fits s :
  currentHeight s + spacing <= maxHeightPerPage ->
  addSpacing s = append spacerHTML spacing s.
Proof.
  intros H. unfold addSpacing, breakIfOverflow.
  destruct (Z.gtb_spec (currentHeight s + spacing) maxHeightPerPage);
    [lia|reflexivity].
Qed.

Lemma keepTogether_loop_fits measure : forall l s,
  Forall (fun e => 0 <= measure e) l ->
  0 <= currentHeight s ->
  currentHeight s + pageHeight measure (interleave l)
    <= (if existsb isHeading l then maxHeightPerPage - headingThreshold
        else maxHeightPerPage) ->
  loop (KeepTogether.step measure) l s
  = {| pages := pages s;
       currentPageHTML := currentPageHTML s +:+ pageHTML (interleave l);
       currentHeight := currentHeight s + pageHeight measure (interleave l) |}.
Proof.
  induction l as [|e rest IH]; intros s Hpos Hs Hfit.
  - cbn. rewrite sapp_nil_r, Z.add_0_r. now destruct s.
  - inversion Hpos as [|? ? He Hrest]; subst.
    pose proof (pageHeight_interleave_nonneg measure rest Hrest) as Hr.
    cbn [loop existsb] in *.
    destruct rest as [|e' rest'].
    + cbn [interleave pageHeight itemHeight pageHTML List.map concatStr
           existsb] in *.
      rewrite orb_false_r in Hfit.
      rewrite keepTogether_step_fits.
      * unfold append. now rewrite sapp_nil_r, Z.add_0_r.
      * destruct (isHeading e); unfold maxHeightPerPage, headingThreshold in *;
          lia.
      * intros Hh. rewrite Hh in Hfit. lia.
    + rewrite interleave_cons in * by discriminate.
      cbn [pageHeight itemHeight pageHTML List.map concatStr itemHTML] in *.
      assert (Hlim : currentHeight s + measure e + spacing
                       + pageHeight measure (interleave (e' :: rest'))
                     <= (if existsb isHeading (e' :: rest')
                         then maxHeightPerPage - headingThreshold
                         else maxHeightPerPage) /\
                     (isHeading e = true ->
                      currentHeight s <= maxHeightPerPage - headingThreshold)).
      { destruct (isHeading e); cbn [orb] in Hfit.
        - split; [|intros _; unfold spacing in *; lia].
          destruct (existsb isHeading (e' :: rest'));
            unfold maxHeightPerPage, headingThreshold, spacing in *; lia.
        - split; [|discriminate]. unfold spacing in *. lia. }
      destruct Hlim as [Hlim Hhead].
      assert (Hmax : (if existsb isHeading (e' :: rest')
                      then maxHeightPerPage - headingThreshold
                      else maxHeightPerPage) <= maxHeightPerPage)
        by (destruct (existsb _ _); unfold maxHeightPerPage, headingThreshold;
            lia).
      rewrite keepTogether_step_fits;
        [|unfold spacing in *; lia|exact Hhead].
      rewrite addSpacing_fits by (cbn [append currentHeight];
                                  unfold spacing in *; lia).
      rewrite IH.
      * cbn [append pages currentPageHTML currentHeight]. f_equal.
        -- now rewrite !sapp_assoc.
        -- lia.
      * exact Hrest.
      * cbn [append currentHeight]. unfold spacing. lia.
      * cbn [append currentHeight]. exact Hlim.
Qed.

(** ** Blocks that fill a page *)

Lemma headingBreak_empty e s : currentPageHTML s = "" -> headingBreak e s = s.
Proof.
  intros H. unfold headingBreak.
  now rewrite H, strictNe_refl, andb_false_r; destruct (isHeading e).
Qed.

Lemma headingBreak_room e s :
  headingThreshold <= maxHeightPerPage - currentHeight s ->
  headingBreak e s = s.
Proof.
  intros H. unfold headingBreak.
  destruct (Z.ltb_spec (maxHeightPerPage - currentHeight s) headingThreshold);
    [lia|]. now destruct (isHeading e).
Qed.

Lemma breakIfOverflow_empty h s :
  currentPageHTML s = "" -> breakIfOverflow h s = s.
Proof.
  intros H. unfold breakIfOverflow.
  now rewrite H, strictNe_refl, andb_false_r.
Qed.

Lemma breakIfOverflow_over h s :
  currentPageHTML s <> "" -> currentHeight s + h > maxHeightPerPage ->
  breakIfOverflow h s = flush s.
Proof.
  intros Hne Hh. unfold breakIfOverflow.
  apply strictNe_true in Hne. rewrite Hne.
  now destruct (Z.gtb_spec (currentHeight s + h) maxHeightPerPage); [|lia].
Qed.

Lemma keepTogether_loop_tall measure placeholder : forall l s,
  Forall (fun e => isElement e = true /\
                   measure e > maxHeightPerPage - spacing) l ->
  l <> [] ->
  0 <= currentHeight s ->
  (currentPageHTML s = "" \/
   currentPageHTML s = spacerHTML /\ currentHeight s = spacing) ->
  finish placeholder (loop (KeepTogether.step measure) l s)
  = pages s ++ (if strictNe (currentPageHTML s) "" then [spacerHTML] else [])
    ++ List.map itemHTML (interleave l).
Proof.
  induction l as [|e rest IH]; intros s Hl Hne Hpos Hs; [congruence|].
  inversion Hl as [|? ? [He Hm] Hrest]; subst. cbn [loop].
  assert (Hout : strictNe (outerHTML e) "" = true)
    by now apply strictNe_true, outerHTML_element_ne.
  assert (E1 : KeepTogether.step measure e s
               = {| pages := pages s ++ (if strictNe (currentPageHTML s) ""
                                         then [spacerHTML] else []);
                    currentPageHTML := outerHTML e;
                    currentHeight := measure e |}
                 \/ (currentPageHTML s = "" /\
                     KeepTogether.step measure e s
                     = {| pages := pages s;
                          currentPageHTML := outerHTML e;
                          currentHeight := currentHeight s + measure e |})).
  { unfold KeepTogether.step. cbn zeta.
    destruct Hs as [Hs|[Hs Hh]].
    - right. split; [exact Hs|].
      rewrite headingBreak_empty, breakIfOverflow_empty by assumption.
      unfold append. now rewrite Hs, sapp_nil_l.
    - left. rewrite headingBreak_room
        by (rewrite Hh; unfold headingThreshold, maxHeightPerPage, spacing; lia).
      rewrite breakIfOverflow_over.
      + unfold append, flush. cbn. rewrite Hs.
        change (strictNe spacerHTML "") with true. reflexivity.
      + now rewrite Hs.
      + rewrite Hh. unfold maxHeightPerPage, spacing in *. lia. }
  set (s1 := KeepTogether.step measure e s) in *.
  assert (H1 : pages s1 = pages s ++ (if strictNe (currentPageHTML s) ""
                                      then [spacerHTML] else []) /\
               currentPageHTML s1 = outerHTML e /\
               currentHeight s1 > maxHeightPerPage - spacing).
  { destruct E1 as [->|[Hs' ->]]; cbn.
    - repeat split. exact Hm.
    - rewrite Hs', strictNe_refl, List.app_nil_r. repeat split. lia. }
  clearbody s1. clear E1. destruct H1 as (Hp1 & Hc1 & Hh1).
  destruct rest as [|e' rest'].
  - cbn [loop interleave List.map]. unfold finish.
    rewrite Hc1, Hout, Hp1.
    destruct ((pages s ++ _) ++ [outerHTML e]) eqn:El.
    + apply List.app_eq_nil in El. destruct El as [_ El]. discriminate.
    + cbn [length Nat.eqb List.map itemHTML]. rewrite <- El.
      now rewrite <- List.app_assoc.
  - rewrite interleave_cons by discriminate. cbn [List.map itemHTML].
    assert (E2 : addSpacing s1
                 = {| pages := pages s1 ++ [outerHTML e];
                      currentPageHTML := spacerHTML;
                      currentHeight := spacing |}).
    { unfold addSpacing. rewrite breakIfOverflow_over.
      - unfold append, flush. cbn [pages currentPageHTML currentHeight].
        now rewrite Hc1.
      - rewrite Hc1. now apply strictNe_true.
      - unfold spacing, maxHeightPerPage in *. lia. }
    rewrite E2, IH.
    + cbn [pages currentPageHTML]. change (strictNe spacerHTML "") with true.
      rewrite Hp1. now rewrite <- !List.app_assoc.
    + exact Hrest.
    + discriminate.
    + cbn. unfold spacing. lia.
    + right. now split.
Qed.

(** ** Pages already pushed stay *)

Lemma loop_app step : forall l1 l2 s,
  l1 <> [] -> l2 <> [] ->
  loop step (l1 ++ l2) s = loop step l2 (addSpacing (loop step l1 s)).
Proof.
  induction l1 as [|e rest IH]; intros l2 s H1 H2; [congruence|].
  destruct rest as [|e' rest'].
  - cbn [app loop]. now destruct l2.
  - change ((e :: e' :: rest') ++ l2) with (e :: (e' :: rest') ++ l2).
    cbn [loop]. change (e' :: rest' ++ l2) with ((e' :: rest') ++ l2).
    now rewrite IH.
Qed.

Section Grows.
Variable p0 : list string.

Lemma flush_grows s :
  (exists more, pages s = p0 ++ more) ->
  exists more, pages (flush s) = p0 ++ more.
Proof.
  intros [more H]. exists (more ++ [currentPageHTML s]). cbn.
  now rewrite H, List.app_assoc.
Qed.

Lemma headingBreak_grows e s :
  (exists more, pages s = p0 ++ more) ->
  exists more, pages (headingBreak e s) = p0 ++ more.
Proof.
  intros H. unfold headingBreak. destruct (isHeading e); [|exact H].
  destruct (_ && _); [now apply flush_grows|exact H].
Qed.

Lemma breakIfOverflow_grows h s :
  (exists more, pages s = p0 ++ more) ->
  exists more, pages (breakIfOverflow h s) = p0 ++ more.
Proof.
  intros H. unfold breakIfOverflow.
  destruct (_ && _); [now apply flush_grows|exact H].
Qed.

Lemma addSpacing_grows s :
  (exists more, pages s = p0 ++ more) ->
  exists more, pages (addSpacing s) = p0 ++ more.
Proof. intros H. unfold addSpacing. cbn. now apply breakIfOverflow_grows. Qed.

Lemma keepTogether_step_grows measure e s :
  (exists more, pages s = p0 ++ more) ->
  exists more, pages (KeepTogether.step measure e s) = p0 ++ more.
Proof.
  intros H. unfold KeepTogether.step. cbn.
  now apply breakIfOverflow_grows, headingBreak_grows.
Qed.

Lemma placePart_grows measure name css s part :
  (exists more, pages s = p0 ++ more) ->
  exists more, pages (NotesView.placePart measure name css s part) = p0 ++ more.
Proof.
  intros H. unfold NotesView.placePart. cbn. now apply breakIfOverflow_grows.
Qed.

Lemma runStep_grows measure openT closeT r item :
  (exists more, pages (NotesView.page r) = p0 ++ more) ->
  exists more,
    pages (NotesView.page (NotesView.runStep measure openT closeT r item))
    = p0 ++ more.
Proof.
  intros H. unfold NotesView.runStep. cbn zeta.
  destruct (_ && _); cbn [NotesView.page]; [|exact H].
  apply flush_grows. now destruct (strictNe _ _).
Qed.

Lemma splitRun_grows measure openT closeT items s :
  (exists more, pages s = p0 ++ more) ->
  exists more, pages (NotesView.splitRun measure openT closeT items s)
               = p0 ++ more.
Proof.
  intros H. unfold NotesView.splitRun.
  assert (Hr : exists more,
            pages (NotesView.page
                     (fold_left (NotesView.runStep measure openT closeT) items
                        {| NotesView.page := s; NotesView.runHTML := openT;
                           NotesView.runHeight := 0 |})) = p0 ++ more).
  { apply (fold_left_preserves
             (fun r => exists more, pages (NotesView.page r) = p0 ++ more)).
    - intros r item. apply runStep_grows.
    - exact H. }
  cbn zeta. now destruct (strictNe _ _).
Qed.

Lemma notes_step_grows measure e s :
  (exists more, pages s = p0 ++ more) ->
  exists more, pages (NotesView.step measure e s) = p0 ++ more.
Proof.
  intros H. unfold NotesView.step. cbn zeta.
  pose proof (headingBreak_grows e s H) as H1.
  destruct (_ && _).
  - apply (fold_left_preserves (fun s => exists more, pages s = p0 ++ more));
      [|exact H1].
    intros s' part. apply placePart_grows.
  - destruct (_ || _); [now apply splitRun_grows|].
    destruct (String.eqb _ _); [now apply splitRun_grows|].
    cbn. now apply breakIfOverflow_grows.
Qed.
End Grows.

Lemma removelast_finish placeholder s :
  exists more, pages s = removelast (finish placeholder s) ++ more.
Proof.
  unfold finish. destruct (strictNe (currentPageHTML s) "").
  - destruct (pages s ++ [currentPageHTML s]) eqn:El.
    + apply List.app_eq_nil in El. destruct El as [_ El]. discriminate.
    + cbn [length Nat.eqb]. rewrite <- El, List.removelast_last.
      exists []. now rewrite List.app_nil_r.
  - destruct (pages s) as [|p l] eqn:El.
    + now exists [].
    + cbn [length Nat.eqb]. exists [List.last (p :: l) ""].
      apply List.app_removelast_last. discriminate.
Qed.

Lemma finish_grows placeholder p0 s :
  (exists more, pages s = p0 ++ more) ->
  exists more, finish placeholder s = p0 ++ more.
Proof.
  intros [more H]. unfold finish.
  destruct (strictNe (currentPageHTML s) "").
  - destruct (pages s ++ [currentPageHTML s]) eqn:El.
    + apply List.app_eq_nil in El. destruct El as [_ El]. discriminate.
    + cbn [length Nat.eqb]. rewrite <- El, H. eexists.
      now rewrite <- List.app_assoc.
  - destruct (pages s) as [|p l] eqn:El.
    + symmetry in H. apply List.app_eq_nil in H. destruct H as [-> _].
      now eexists.
    + cbn [length Nat.eqb]. now exists more.
Qed.

(** Laying out a longer content changes no page of the shorter one but
    the last. *)
Lemma loop_pages_kept step placeholder l1 l2 :
  (forall p0 e s, (exists more, pages s = p0 ++ more) ->
                  exists more, pages (step e s) = p0 ++ more) ->
  exists more,
    finish placeholder (loop step (l1 ++ l2) initial)
    = removelast (finish placeholder (loop step l1 initial)) ++ more.
Proof.
  intros Hstep.
  destruct l2 as [|e2 l2'].
  { rewrite List.app_nil_r.
    destruct (finish placeholder (loop step l1 initial)) as [|p l] eqn:E;
      [now exists []|].
    exists [List.last (p :: l) ""]. apply List.app_removelast_last.
    discriminate. }
  destruct l1 as [|e1 l1'].
  { cbn [app loop finish removelast]. unfold finish at 2. cbn. now eexists. }
  rewrite loop_app by discriminate.
  apply finish_grows.
  destruct (removelast_finish placeholder (loop step (e1 :: l1') initial))
    as [m Hm].
  apply (loop_preserves (fun s => exists more,
           pages s = removelast (finish placeholder
                                   (loop step (e1 :: l1') initial)) ++ more)).
  - intros e s. apply Hstep.
  - intros s. apply addSpacing_grows.
  - apply addSpacing_grows. now exists m.
Qed.

End PageFacts.

Import PageModel PageFacts.

Lemma keepTogether_budget_witness :
  exists groups : list (list PageModel.Item),
    List.concat groups
    = PageModel.interleave
        (children (Sample.noteOf [Sample.paragraph; Sample.paragraph])) /\
    KeepTogether.splitContentIntoPages Sample.probe QAView.placeholder
      (Sample.noteOf [Sample.paragraph; Sample.paragraph])
      = List.map PageModel.pageHTML groups /\
    Forall (fun g =>
              g <> [] /\
              (PageModel.pageHeight Sample.probe g > maxHeightPerPage ->
               exists e, g = [PageModel.Block e] /\
                         Sample.probe e > maxHeightPerPage))
      groups.
Proof.
  refine (keepTogether_budget Sample.probe QAView.placeholder
            (Sample.noteOf [Sample.paragraph; Sample.paragraph]) _).
  discriminate.
Defined.

Lemma notes_list_unsplit_on_empty_page_witness :
  let s' := NotesView.step Sample.probe (Sample.listOf 20) initial in
  pages s' = pages initial /\
  currentPageHTML s'
  = PageModel.fragment (Sample.listOf 20)
      (PageModel.splitItems (Sample.listOf 20)) /\
  currentHeight s'
  = currentHeight initial
    + PageModel.totalHeight Sample.probe
        (PageModel.splitItems (Sample.listOf 20)).
Proof.
  refine (notes_list_unsplit_on_empty_page Sample.probe (Sample.listOf 20)
            initial _ _); reflexivity.
Defined.

(** X3: on a note without list, table and paragraph or div taller than a
    page, NotesView paginates its flattened blocks with the loop of the
    other two views, so the page budget holds there: the pages are the
    blocks with a spacer between neighbours, cut into consecutive non-empty
    groups, and a group accounted for more than 900 pixels is one block
    alone, taller than 900. *)
Theorem notes_plain_blocks_budget (measure : Node -> Z)
    (contentContainer : Node) :
  NotesView.flatBlocks contentContainer <> [] ->
  Forall (fun e => isSplittable e = false /\
                   isOversizedText measure e = false)
    (NotesView.flatBlocks contentContainer) ->
  NotesView.splitContentIntoPages measure contentContainer
  = finish NotesView.placeholder
      (loop (KeepTogether.step measure)
         (NotesView.flatBlocks contentContainer) initial) /\
  exists groups : list (list Item),
    List.concat groups = interleave (NotesView.flatBlocks contentContainer) /\
    NotesView.splitContentIntoPages measure contentContainer
      = List.map pageHTML groups /\
    Forall (fun g =>
              g <> [] /\
              (pageHeight measure g > maxHeightPerPage ->
               exists e, g = [Block e] /\ measure e > maxHeightPerPage))
      groups.
Proof.
  intros Hne Hplain.
  assert (E : NotesView.splitContentIntoPages measure contentContainer
              = finish NotesView.placeholder
                  (loop (KeepTogether.step measure)
                     (NotesView.flatBlocks contentContainer) initial)).
  { unfold NotesView.splitContentIntoPages. cbn zeta. f_equal.
    apply loop_ext_in. intros e He s.
    rewrite List.Forall_forall in Hplain. destruct (Hplain e He) as [H1 H2].
    now apply notes_step_plain. }
  split; [exact E|]. rewrite E.
  apply keepTogether_loop_budget; [exact Hne|apply flatBlocks_elements].
Qed.

Lemma notes_plain_blocks_budget_witness :
  NotesView.splitContentIntoPages Sample.probe
    (Sample.noteOf [Sample.paragraph; Sample.paragraph])
  = finish NotesView.placeholder
      (loop (KeepTogether.step Sample.probe)
         (NotesView.flatBlocks
            (Sample.noteOf [Sample.paragraph; Sample.paragraph])) initial).
Proof.
  refine (proj1 (notes_plain_blocks_budget Sample.probe
                   (Sample.noteOf [Sample.paragraph; Sample.paragraph]) _ _)).
  - discriminate.
  - repeat constructor.
Defined.

(** X4: content that fits is not paginated. In QAView and
    GenericContentView, when no height is negative and the blocks with
    their spacers add up to at most 900 pixels, or to at most 750 pixels
    when one of the blocks is a heading, the result is one page holding
    every block in order with a spacer between neighbours. *)
Theorem short_content_single_page (measure : Node -> Z) (placeholder : string)
    (contentContainer : Node) :
  children contentContainer <> [] ->
  Forall (fun e => 0 <= measure e) (children contentContainer) ->
  pageHeight measure (interleave (children contentContainer))
    <= (if existsb isHeading (children contentContainer)
        then maxHeightPerPage - headingThreshold else maxHeightPerPage) ->
  KeepTogether.splitContentIntoPages measure placeholder contentContainer
  = [pageHTML (interleave (children contentContainer))].
Proof.
  intros Hne Hpos Hfit. unfold KeepTogether.splitContentIntoPages. cbn zeta.
  rewrite keepTogether_loop_fits; [|exact Hpos|reflexivity|exact Hfit].
  unfold finish. cbn [pages currentPageHTML initial].
  rewrite sapp_nil_l.
  assert (Hs : pageHTML (interleave (children contentContainer)) <> "").
  { pose proof (children_elements contentContainer) as Hel.
    destruct (children contentContainer) as [|b rest]; [congruence|].
    inversion Hel as [|? ? Hb _]; subst.
    assert (Hi : exists g, interleave (b :: rest) = Block b :: g)
      by (destruct rest; eexists; reflexivity).
    destruct Hi as [g ->]. cbn [pageHTML List.map concatStr itemHTML].
    now apply sapp_ne_nil_l, outerHTML_element_ne. }
  apply strictNe_true in Hs. now rewrite Hs.
Qed.

Lemma short_content_single_page_witness :
  KeepTogether.splitContentIntoPages Sample.probe QAView.placeholder
    (Elem "DIV" [] [Sample.paragraph; Sample.paragraph])
  = [pageHTML (interleave
                 (children (Elem "DIV" [] [Sample.paragraph; Sample.paragraph])))].
Proof.
  refine (short_content_single_page Sample.probe QAView.placeholder
            (Elem "DIV" [] [Sample.paragraph; Sample.paragraph]) _ _ _).
  - discriminate.
  - repeat constructor; discriminate.
  - vm_compute. discriminate.
Defined.

(** X5: blocks that fill a page are separated by pages that hold nothing but
    the spacer. In QAView and GenericContentView, when every block measures
    more than 892 pixels, each block is a page of its own and between two
    of them comes a page whose whole content is the 8-pixel spacer: n
    blocks give 2n - 1 pages. *)
Theorem tall_blocks_spacer_pages (measure : Node -> Z) (placeholder : string)
    (contentContainer : Node) :
  children contentContainer <> [] ->
  Forall (fun e => measure e > maxHeightPerPage - spacing)
    (children contentContainer) ->
  KeepTogether.splitContentIntoPages measure placeholder contentContainer
  = List.map itemHTML (interleave (children contentContainer)).
Proof.
  intros Hne Htall. unfold KeepTogether.splitContentIntoPages. cbn zeta.
  rewrite keepTogether_loop_tall.
  - reflexivity.
  - pose proof (children_elements contentContainer) as Hel.
    rewrite List.Forall_forall in *. intros e He. split; auto.
  - exact Hne.
  - reflexivity.
  - now left.
Qed.

Lemma tall_blocks_spacer_pages_witness :
  KeepTogether.splitContentIntoPages (fun _ => 895) QAView.placeholder
    (Elem "DIV" [] [Sample.paragraph; Sample.paragraph])
  = List.map itemHTML
      (interleave (children (Elem "DIV" [] [Sample.paragraph; Sample.paragraph]))).
Proof.
  refine (tall_blocks_spacer_pages (fun _ => 895) QAView.placeholder
            (Elem "DIV" [] [Sample.paragraph; Sample.paragraph]) _ _).
  - discriminate.
  - repeat constructor.
Defined.

(** X6: more content changes no completed page. In the three views, when
    the blocks of one content are the blocks of another followed by more,
    the pages of the shorter content except its last are the first pages of
    the longer one. *)
Theorem completed_pages_kept (measure : Node -> Z) (shorter longer : Node) :
  (forall placeholder more,
     children longer = children shorter ++ more ->
     exists pages',
       KeepTogether.splitContentIntoPages measure placeholder longer
       = removelast
           (KeepTogether.splitContentIntoPages measure placeholder shorter)
         ++ pages') /\
  (forall more,
     NotesView.flatBlocks longer = NotesView.flatBlocks shorter ++ more ->
     exists pages',
       NotesView.splitContentIntoPages measure longer
       = removelast (NotesView.splitContentIntoPages measure shorter)
         ++ pages').
Proof.
  split.
  - intros placeholder more E. unfold KeepTogether.splitContentIntoPages.
    cbn zeta. rewrite E. apply loop_pages_kept.
    intros p0 e s. apply keepTogether_step_grows.
  - intros more E. unfold NotesView.splitContentIntoPages.
    cbn zeta. rewrite E. apply loop_pages_kept.
    intros p0 e s. apply notes_step_grows.
Qed.

Lemma completed_pages_kept_witness :
  exists pages',
    NotesView.splitContentIntoPages Sample.probe
      (Sample.noteOf [Sample.paragraph; Sample.listOf 40])
    = removelast (NotesView.splitContentIntoPages Sample.probe
                    (Sample.noteOf [Sample.paragraph]))
      ++ pages'.
Proof.
  refine (proj2 (completed_pages_kept Sample.probe
                   (Sample.noteOf [Sample.paragraph])
                   (Sample.noteOf [Sample.paragraph; Sample.listOf 40]))
            [Sample.listOf 40] _).
  reflexivity.
Defined.

Module CountFacts.
Import Js Dom Paginator PageModel StringFacts PaginatorFacts PageFacts.

Lemma length_interleave l :
  length (interleave l) = (2 * length l - 1)%nat.
Proof.
  induction l as [|b rest IH]; [reflexivity|].
  destruct rest as [|b' rest']; [reflexivity|].
  rewrite interleave_cons by discriminate.
  cbn [length] in *. lia.
Qed.

Lemma length_concat_nonempty {A} (groups : list (list A)) :
  Forall (fun g => g <> []) groups ->
  (length groups <= length (List.concat groups))%nat.
Proof.
  induction 1 as [|g groups Hg _ IH]; [reflexivity|].
  cbn [List.concat length]. rewrite List.length_app.
  destruct g; [congruence|]. cbn [length]. lia.
Qed.

Lemma trim_noSpace w : hasNoSpace w = true -> Js.trim w = w.
Proof.
  intros H. unfold Js.trim.
  assert (Hs : Js.trimStart w = w).
  { destruct w as [|c r]; [reflexivity|]. cbn [hasNoSpace] in H.
    apply andb_true_iff in H as [Hc _]. cbn [Js.trimStart].
    now destruct (isSpace c). }
  rewrite Hs. clear Hs. induction w as [|c r IH]; [reflexivity|].
  cbn [hasNoSpace] in H. apply andb_true_iff in H as [Hc Hr].
  cbn [Js.trimEnd]. rewrite (IH Hr).
  destruct (isSpace c); [discriminate|reflexivity].
Qed.

Lemma textContent_styledText name css t :
  textContent (NotesView.styledText name css t) = t.
Proof.
  unfold NotesView.styledText. destruct t as [|c r]; [reflexivity|].
  cbn [truthy strictNe String.eqb negb textContent List.map concatStr].
  apply sapp_nil_r.
Qed.

(** What the word loop of NotesView holds as the part being built: nothing,
    one piece of the text, or a text it measured within the budget. Once
    trimmed it is a part of one of these three kinds, for a probe that does
    not see white space at the ends of a text. *)
Section Parts.
Variable measure : Node -> Z.
Variables name css : string.
Variable textNodes : list string.
Hypothesis pieces : Forall (fun w => hasNoSpace w = true) textNodes.
Hypothesis trimmed : forall t,
  measure (NotesView.styledText name css (Js.trim t))
  = measure (NotesView.styledText name css t).

Lemma held_trimmed cur :
  cur = "" \/ In cur textNodes \/
    measure (NotesView.styledText name css cur) <= maxHeightPerPage ->
  Js.trim cur = "" \/ In (Js.trim cur) textNodes \/
    measure (NotesView.styledText name css (Js.trim cur)) <= maxHeightPerPage.
Proof using pieces trimmed.
  intros [-> | [Hin | Hle]].
  - now left.
  - right. left. rewrite trim_noSpace; [exact Hin|].
    rewrite List.Forall_forall in pieces. now apply pieces.
  - right. right. now rewrite trimmed.
Qed.

Lemma wordStep_holds acc word :
  In word textNodes ->
  let kept p := p = "" \/ In p textNodes \/
                measure (NotesView.styledText name css p) <= maxHeightPerPage in
  Forall kept (fst acc) /\ kept (snd acc) ->
  Forall kept (fst (NotesView.wordStep measure name css acc word)) /\
  kept (snd (NotesView.wordStep measure name css acc word)).
Proof using pieces trimmed.
  intros Hw kept. destruct acc as [parts cur]. cbn [fst snd]. intros [Hp Hc].
  unfold NotesView.wordStep.
  destruct (Z.gtb_spec
              (measure (NotesView.styledText name css (cur +:+ " " +:+ word)))
              maxHeightPerPage) as [Hgt|Hle]; cbn [fst snd].
  - split.
    + apply Forall_app. split; [exact Hp|].
      constructor; [|constructor]. now apply held_trimmed.
    + right. now left.
  - split; [exact Hp|]. right. now right.
Qed.
End Parts.

End CountFacts.

Import PageModel PageFacts CountFacts.

(** X7: how many pages QAView and GenericContentView make. A content of n
    blocks, n at least 1, gives at least one page and at most 2n - 1: no
    page is empty, and there are n blocks and n - 1 spacers to place. *)
Theorem page_count_bounded (measure : Node -> Z) (placeholder : string)
    (contentContainer : Node) :
  children contentContainer <> [] ->
  (1 <= length (KeepTogether.splitContentIntoPages measure placeholder
                  contentContainer)
   <= 2 * length (children contentContainer) - 1)%nat.
Proof.
  intros Hne. unfold KeepTogether.splitContentIntoPages. cbn zeta.
  destruct (keepTogether_loop_budget measure placeholder
              (children contentContainer) Hne (children_elements _))
    as (groups & Hc & -> & Hg).
  rewrite List.length_map, <- length_interleave, <- Hc.
  split.
  - destruct groups as [|g groups']; [|cbn [length]; lia].
    cbn in Hc. destruct (children contentContainer) as [|b [|b' r]];
      [congruence|discriminate|discriminate].
  - apply length_concat_nonempty.
    eapply Forall_impl; [exact Hg|]. now intros g [H _].
Qed.

Lemma page_count_bounded_witness :
  (1 <= length (KeepTogether.splitContentIntoPages Sample.probe
                  QAView.placeholder
                  (Elem "DIV" [] [Sample.paragraph; Sample.paragraph]))
   <= 2 * length (children (Elem "DIV" [] [Sample.paragraph; Sample.paragraph]))
      - 1)%nat.
Proof.
  refine (page_count_bounded Sample.probe QAView.placeholder
            (Elem "DIV" [] [Sample.paragraph; Sample.paragraph]) _).
  discriminate.
Defined.

(** X8: the parts into which NotesView cuts the text of an oversized
    paragraph, for a probe that does not see white space at the ends of a
    text. A part that the probe finds taller than the page, placed alone in
    an element of the paragraph's tag and style, is a single word of the
    paragraph, or the empty part written when the first word alone is
    already too tall: every part of two words or more fits the page. *)
Theorem split_parts_measured (measure : Node -> Z) (name css text : string) :
  (forall t, measure (NotesView.styledText name css (Js.trim t))
             = measure (NotesView.styledText name css t)) ->
  Forall (fun part =>
            measure (NotesView.styledText name css part) > maxHeightPerPage ->
            part = "" \/ In part (words text))
    (NotesView.splitWords measure name css (splitWs text)).
Proof.
  intros Htrim.
  pose proof (WordFacts.splitWs_pieces text) as Hpieces.
  set (kept := fun p : string =>
         p = "" \/ In p (splitWs text) \/
         measure (NotesView.styledText name css p) <= maxHeightPerPage).
  assert (Hparts : Forall kept
                     (NotesView.splitWords measure name css (splitWs text))).
  { unfold NotesView.splitWords.
    assert (H : forall l acc,
              (forall w, In w l -> In w (splitWs text)) ->
              Forall kept (fst acc) /\ kept (snd acc) ->
              let r := fold_left (NotesView.wordStep measure name css) l acc in
              Forall kept (fst r) /\ kept (snd r)).
    { induction l as [|w l IH]; intros acc Hl Hacc; [exact Hacc|].
      cbn [fold_left]. apply IH; [intros w' Hw'; apply Hl; now right|].
      apply (wordStep_holds measure name css (splitWs text) Hpieces Htrim);
        [apply Hl; now left|exact Hacc]. }
    specialize (H (splitWs text) ([], "") (fun w Hw => Hw)
                  (conj (List.Forall_nil _) (or_introl eq_refl))).
    cbn zeta in H.
    destruct (fold_left _ (splitWs text) ([], "")) as [parts cur].
    cbn [fst snd] in H. destruct H as [Hp Hc].
    destruct (truthy cur); [|exact Hp].
    apply Forall_app. split; [exact Hp|]. constructor; [|constructor].
    now apply (held_trimmed measure name css (splitWs text) Hpieces Htrim). }
  eapply Forall_impl; [exact Hparts|].
  intros part [-> | [Hin | Hle]] Htall.
  - now left.
  - destruct part as [|c r]; [now left|]. right.
    unfold words. apply List.filter_In. split; [exact Hin|reflexivity].
  - lia.
Qed.

Lemma split_parts_measured_witness :
  let measure := fun n : Node =>
    1000 * Z.of_nat (length (words (textContent n))) in
  NotesView.splitWords measure "p" "" (splitWs "aa bb  cc")
    = [""; "aa"; "bb"; "cc"] /\
  Forall (fun part =>
            measure (NotesView.styledText "p" "" part) > maxHeightPerPage ->
            part = "" \/ In part (words "aa bb  cc"))
    (NotesView.splitWords measure "p" "" (splitWs "aa bb  cc")).
Proof.
  intros measure. split; [reflexivity|].
  refine (split_parts_measured measure "p" "" "aa bb  cc" _).
  intros t. unfold measure.
  now rewrite !textContent_styledText, WordFacts.words_trim.
Defined.

Module FlowFacts.
Import ExportJob ExportFacts ExportFlow.

(** Every way a job can go, stage by stage. *)
Lemma confirm_trace v env user items lessonId email w :
  let w1 := setSweetAlert (mkAlert Loading GeneratingPdf)
              (setIsExporting true w) in
  let pages := splitContentIntoPages v (measure env) (assemble env items) in
  let ws := setContainerHTML (stage env pages) (setContainerHTML "" w1) in
  let w' := handleExportConfirm v env user items lessonId email w in
  (exists e, w' = failedIn user e w1 /\
     (getHierarchy env = Rejected e \/
      (e = NoContent /\ items = []) \/
      (e = ContainerNotFound /\ exportContainer w = None))) \/
  (exists h, getHierarchy env = Resolved h /\ items <> [] /\
     exportContainer w <> None /\
     ((exists e, rasterize env pages 0 ws = (inl e, ws) /\
                 w' = failedIn user e ws) \/
      (rasterize env pages 0 ws = (inr tt, ws) /\
       if isAdmin user then
         let wd := clickDownload
                     (downloadName (lessonNameOf v h) (label v) (isoNow env))
                     ws in
         exists r wc, countLocal v env lessonId wd = (r, wc) /\
           w' = match r with
                | inl e => failedIn user e wc
                | inr _ => doneIn DownloadStarted wc
                end
       else
         let wp := postSubmission
                     (submissionOf v user (lessonNameOf v h) lessonId email)
                     (setSweetAlert (mkAlert Loading SendingEmail) ws) in
         (exists e, sendPdf env = Rejected e /\ w' = failedIn user e wp) \/
         (exists res, sendPdf env = Resolved res /\
            if ok res && success res then
              exists r wc, countRemote v env lessonId wp = (r, wc) /\
                w' = match r with
                     | inl e => failedIn user e wc
                     | inr _ => doneIn (SentTo email) wc
                     end
            else w' = failedIn user (SendRejected (message res)) wp)))).
Proof.
  cbn zeta.
  remember (handleExportConfirm v env user items lessonId email w) as w' eqn:Ew.
  unfold handleExportConfirm, finally, catch, exportBody in Ew.
  set (w1 := setSweetAlert _ (setIsExporting true w)) in *.
  destruct (getHierarchy env) as [h|e] eqn:Eh; cbn [bind await ret throw] in Ew.
  2:{ left. exists e. split; [exact Ew|now left]. }
  destruct items as [|it items'] eqn:Ei; cbn [length Nat.eqb throw] in Ew.
  { left. exists NoContent. split; [exact Ew|]. right. now left. }
  rewrite <- Ei in *. cbn [bind gets] in Ew.
  change (exportContainer w1) with (exportContainer w) in Ew.
  destruct (exportContainer w) as [html|] eqn:Ec; cbn [throw] in Ew.
  2:{ left. exists ContainerNotFound. split; [exact Ew|]. right. now right. }
  right. exists h. split; [reflexivity|]. split; [now rewrite Ei|].
  split; [discriminate|].
  cbn [bind modify] in Ew.
  set (ws := setContainerHTML _ (setContainerHTML "" w1)) in *.
  unfold bind at 1 in Ew.
  destruct (rasterize_pure env
              (splitContentIntoPages v (measure env) (assemble env items)) 0 ws)
    as [Er|[e Er]]; rewrite Er in *.
  2:{ left. exists e. split; [reflexivity|exact Ew]. }
  right. split; [reflexivity|].
  unfold bind at 1 in Ew.
  destruct (isAdmin user).
  - cbn [bind modify] in Ew. unfold bind at 1 in Ew.
    destruct (countLocal v env lessonId _) as [[e|[]] wc] eqn:Ecount.
    + exists (inl e), wc. split; [reflexivity|exact Ew].
    + exists (inr tt), wc. split; [reflexivity|exact Ew].
  - cbn [bind modify await] in Ew.
    destruct (sendPdf env) as [res|e] eqn:Es; cbn [bind ret throw await] in Ew.
    2:{ left. exists e. split; [reflexivity|exact Ew]. }
    right. exists res. split; [reflexivity|].
    destruct (ok res && success res) eqn:Eok; cbn [bind throw] in Ew.
    + unfold bind at 1 in Ew.
      destruct (countRemote v env lessonId _) as [[e|[]] wc] eqn:Ecount.
      * exists (inl e), wc. split; [reflexivity|exact Ew].
      * exists (inr tt), wc. split; [reflexivity|exact Ew].
    + exact Ew.
Qed.

(** The counting step of each view, whatever the counter answers. *)
Lemma countLocal_cases k env lessonId w r wc :
  countLocal (viewOf k) env lessonId w = (r, wc) ->
  countsOnly w wc /\
  (incrementRequests wc = incrementRequests w \/
   incrementRequests wc
   = incrementRequests w ++ [(lessonId, resourceType (viewOf k))]) /\
  match r with
  | inl e => k = QA /\ incrementOutcome env = Rejected e
  | inr _ => k = QA -> incrementOutcome env = Resolved tt
  end.
Proof.
  destruct k as [| |rt lbl]; cbn [viewOf countLocal qaView notesView genericView
                                   resourceType].
  - rewrite increment_run.
    destruct (incrementOutcome env) as [[]|e]; intros H; inversion H; subst;
      (split; [now repeat split|split; [now right|]]); [easy|now split].
  - unfold catch, bind at 1. cbn [gets].
    destruct (itemMissing (downloadKey lessonId) w).
    + unfold bind. rewrite increment_run.
      destruct (incrementOutcome env) as [[]|e]; cbn [ret modify];
        intros H; inversion H; subst;
        (split; [now repeat split|split; [now right|discriminate]]).
    + cbn [ret]. intros H. inversion H; subst.
      split; [now repeat split|split; [now left|discriminate]].
  - unfold bind, catch. rewrite increment_run.
    destruct (incrementOutcome env) as [[]|e]; cbn [ret modify];
      intros H; inversion H; subst;
      (split; [now repeat split|split; [now right|discriminate]]).
Qed.

Lemma countRemote_cases k env lessonId w r wc :
  countRemote (viewOf k) env lessonId w = (r, wc) ->
  countsOnly w wc /\
  (incrementRequests wc = incrementRequests w \/
   incrementRequests wc
   = incrementRequests w ++ [(lessonId, resourceType (viewOf k))]) /\
  r = inr tt.
Proof.
  destruct k as [| |rt lbl]; cbn [viewOf countRemote qaView notesView genericView
                                   resourceType].
  - unfold catch. rewrite increment_run.
    destruct (incrementOutcome env) as [[]|e]; cbn [ret];
      intros H; inversion H; subst;
      (split; [now repeat split|split; [now right|reflexivity]]).
  - unfold bind at 1. cbn [gets].
    destruct (itemMissing (downloadKey lessonId) w).
    + unfold bind, catch. rewrite increment_run.
      destruct (incrementOutcome env) as [[]|e]; cbn [ret modify];
        intros H; inversion H; subst;
        (split; [now repeat split|split; [now right|reflexivity]]).
    + cbn [ret]. intros H. inversion H; subst.
      split; [now repeat split|split; [now left|reflexivity]].
  - unfold bind, catch. rewrite increment_run.
    destruct (incrementOutcome env) as [[]|e]; cbn [ret modify];
      intros H; inversion H; subst;
      (split; [now repeat split|split; [now right|reflexivity]]).
Qed.

(** What a job can post, and to whom. *)
Lemma confirm_posts (k : ViewName) (env : Env) (user : User)
    (items : list Content) (lessonId email : jsstring) (w : World) :
  let w' := handleExportConfirm (viewOf k) env user items lessonId email w in
  submissions w' = submissions w \/
  isAdmin user = false /\
  exists s, submissions w' = submissions w ++ [s] /\ recipient s = email.
Proof.
  cbn zeta.
  destruct (confirm_trace (viewOf k) env user items lessonId email w)
    as [(e & -> & _)|(h & _ & _ & _ & [(e & _ & ->)|[_ H]])];
    [now left|now left|].
  destruct (isAdmin user).
  - left. destruct H as (r & wc & Hc & ->).
    apply countLocal_cases in Hc.
    destruct Hc as ((_ & _ & _ & _ & _ & Hs) & _ & _).
    destruct r as [e|[]]; cbn; now rewrite Hs.
  - right. split; [reflexivity|]. cbn zeta in H.
    destruct H as [(e & _ & ->)|(res & _ & H)].
    + eexists. split; reflexivity.
    + destruct (ok res && success res).
      * destruct H as (r & wc & Hc & ->).
        apply countRemote_cases in Hc.
        destruct Hc as ((_ & _ & _ & _ & _ & Hs) & _ & _).
        destruct r as [e|[]]; cbn; rewrite Hs; (eexists; split; reflexivity).
      * rewrite H. eexists. split; reflexivity.
Qed.

Lemma rasterize_ok env pages : forall i w,
  rasterize env pages i w = (inr tt, w) <->
  (forall j, (j < length pages)%nat -> html2canvas env (i + j) = Resolved tt).
Proof.
  induction pages as [|p rest IH]; intros i w; cbn [rasterize length].
  - split; [intros _ j Hj; lia|reflexivity].
  - unfold bind. split.
    + destruct (html2canvas env i) as [[]|e] eqn:Ei; cbn [await ret throw];
        [|discriminate].
      intros H j Hj. destruct j as [|j].
      * now rewrite Nat.add_0_r.
      * replace (i + S j)%nat with (S i + j)%nat by lia.
        apply (proj1 (IH (S i) w) H j). lia.
    + intros H. rewrite <- (Nat.add_0_r i) at 1.
      rewrite (H 0%nat) by lia. cbn [await ret].
      apply IH. intros j Hj.
      replace (S i + j)%nat with (i + S j)%nat by lia. apply H. lia.
Qed.

Lemma rasterize_all env pages w :
  rasterize env pages 0 w = (inr tt, w) <-> rendersAll env (length pages).
Proof. exact (rasterize_ok env pages 0 w). Qed.

Lemma succeeded_failedIn user e x : succeeded (failedIn user e x) = false.
Proof. apply succeeded_failure. Qed.

Lemma itemMissing_setItem key key' w :
  itemMissing key w = false ->
  itemMissing key (setItem key' (lit "true") w) = false.
Proof.
  unfold itemMissing. cbn [sessionStorage setItem].
  rewrite lookup_insert. now destruct (decide (key' = key)).
Qed.

Lemma itemMissing_marked key w :
  itemMissing key (setItem key (lit "true") w) = false.
Proof.
  unfold itemMissing. cbn [sessionStorage setItem].
  now rewrite lookup_insert_eq.
Qed.

Lemma notes_countLocal_storage env lessonId w r wc :
  countLocal notesView env lessonId w = (r, wc) ->
  (forall key, itemMissing key w = false -> itemMissing key wc = false) /\
  (itemMissing (downloadKey lessonId) w = false ->
   incrementRequests wc = incrementRequests w) /\
  (incrementOutcome env = Resolved tt ->
   itemMissing (downloadKey lessonId) wc = false).
Proof.
  cbn [countLocal notesView]. unfold catch, bind at 1. cbn [gets].
  destruct (itemMissing (downloadKey lessonId) w) eqn:Em.
  - unfold bind. rewrite increment_run.
    destruct (incrementOutcome env) as [[]|e]; cbn [ret modify];
      intros H; inversion H; subst.
    + split; [intros key Hk; now apply itemMissing_setItem|].
      split; [discriminate|]. intros _. apply itemMissing_marked.
    + split; [intros key Hk; exact Hk|]. split; discriminate.
  - cbn [ret]. intros H. inversion H; subst. now repeat split.
Qed.

Lemma notes_countRemote_storage env lessonId w r wc :
  countRemote notesView env lessonId w = (r, wc) ->
  (forall key, itemMissing key w = false -> itemMissing key wc = false) /\
  (itemMissing (downloadKey lessonId) w = false ->
   incrementRequests wc = incrementRequests w) /\
  itemMissing (downloadKey lessonId) wc = false.
Proof.
  cbn [countRemote notesView]. unfold bind at 1. cbn [gets].
  destruct (itemMissing (downloadKey lessonId) w) eqn:Em.
  - unfold bind, catch. rewrite increment_run.
    destruct (incrementOutcome env) as [[]|e]; cbn [ret modify];
      intros H; inversion H; subst;
      (split; [intros key Hk; now apply itemMissing_setItem|];
       split; [discriminate|]; apply itemMissing_marked).
  - cbn [ret]. intros H. inversion H; subst. now repeat split.
Qed.

Lemma confirm_email_unused v env user items lessonId email email' w :
  isAdmin user = true ->
  handleExportConfirm v env user items lessonId email w
  = handleExportConfirm v env user items lessonId email' w.
Proof.
  intros H. unfold handleExportConfirm, exportBody. now rewrite H.
Qed.

End FlowFacts.

Import ExportJob ExportFacts ExportFlow FlowFacts.

(** X9: a job of a user who may edit never posts to the delivery channel and
    triggers at most one download; a job of any other user never triggers a
    download and posts at most one document, addressed to the given address
    for the lesson and resource type of the view. *)
Theorem export_channels_exclusive (k : ViewName) (env : Env) (user : User)
    (items : list Content) (lessonId email : jsstring) (w : World) :
  let w' := handleExportConfirm (viewOf k) env user items lessonId email w in
  if isAdmin user then
    submissions w' = submissions w /\
    (downloads w' = downloads w \/
     exists name, downloads w' = downloads w ++ [name])
  else
    downloads w' = downloads w /\
    (submissions w' = submissions w \/
     exists s, submissions w' = submissions w ++ [s] /\
       recipient s = email /\ forLesson s = lessonId /\
       forType s = resourceType (viewOf k)).
Proof.
  cbn zeta.
  destruct (confirm_trace (viewOf k) env user items lessonId email w)
    as [(e & -> & _)|(h & _ & _ & _ & [(e & _ & ->)|[_ H]])].
  - destruct (isAdmin user); (split; [reflexivity|now left]).
  - destruct (isAdmin user); (split; [reflexivity|now left]).
  - destruct (isAdmin user).
    + destruct H as (r & wc & Hc & ->).
      apply countLocal_cases in Hc.
      destruct Hc as ((_ & _ & _ & _ & Hd & Hs) & _ & _).
      destruct r as [e|[]]; cbn; rewrite ?Hd, ?Hs; cbn;
        (split; [reflexivity|right; eexists; reflexivity]).
    + cbn zeta in H.
      destruct H as [(e & _ & ->)|(res & _ & H)].
      * split; [reflexivity|]. right. eexists. split; [reflexivity|].
        now repeat split.
      * destruct (ok res && success res).
        -- destruct H as (r & wc & Hc & ->).
           apply countRemote_cases in Hc.
           destruct Hc as ((_ & _ & _ & _ & Hd & Hs) & _ & _).
           destruct r as [e|[]]; cbn; rewrite ?Hd, ?Hs; cbn;
             (split; [reflexivity|right; eexists; split; [reflexivity|];
                                  now repeat split]).
        -- rewrite H. split; [reflexivity|]. right. eexists.
           split; [reflexivity|]. now repeat split.
Qed.

(** X10: when the handler has settled, the alert shown is the success or the
    failure alert, never a loading alert; after success the address dialog
    is closed, after failure it is as it was. *)
Theorem export_alert_settles (k : ViewName) (env : Env) (user : User)
    (items : list Content) (lessonId email : jsstring) (w : World) :
  let w' := handleExportConfirm (viewOf k) env user items lessonId email w in
  exists a, sweetAlert w' = Some a /\
    match alertType a with
    | Loading => False
    | Success => exportModalOpen w' = false
    | Failure => exportModalOpen w' = exportModalOpen w
    end.
Proof.
  cbn zeta.
  assert (Hf : forall e, alertType (failureAlert user e) = Failure)
    by (intros e; unfold failureAlert; now destruct (isAdmin user)).
  destruct (confirm_trace (viewOf k) env user items lessonId email w)
    as [(e & -> & _)|(h & _ & _ & _ & [(e & _ & ->)|[_ H]])].
  - eexists. split; [reflexivity|]. now rewrite Hf.
  - eexists. split; [reflexivity|]. now rewrite Hf.
  - destruct (isAdmin user).
    + destruct H as (r & wc & Hc & ->).
      apply countLocal_cases in Hc.
      destruct Hc as ((_ & _ & Hm & _) & _ & _).
      destruct r as [e|[]]; (eexists; split; [reflexivity|]).
      * rewrite Hf. cbn. now rewrite Hm.
      * reflexivity.
    + cbn zeta in H.
      destruct H as [(e & _ & ->)|(res & _ & H)].
      * eexists. split; [reflexivity|]. now rewrite Hf.
      * destruct (ok res && success res).
        -- destruct H as (r & wc & Hc & ->).
           apply countRemote_cases in Hc.
           destruct Hc as ((_ & _ & Hm & _) & _ & _).
           destruct r as [e|[]]; (eexists; split; [reflexivity|]).
           ++ rewrite Hf. cbn. now rewrite Hm.
           ++ reflexivity.
        -- rewrite H. eexists. split; [reflexivity|]. now rewrite Hf.
Qed.

(** X11: a job started without content ends with the failure alert and sends
    nothing: no download, no document, no count; the dialog, the session
    storage and the figure shown stay as they were. When the hierarchy
    lookup answered, the error reported is the missing content. *)
Theorem export_without_content (v : View) (env : Env) (user : User)
    (lessonId email : jsstring) (w : World) :
  let w' := handleExportConfirm v env user [] lessonId email w in
  succeeded w' = false /\
  downloads w' = downloads w /\
  submissions w' = submissions w /\
  incrementRequests w' = incrementRequests w /\
  sessionStorage w' = sessionStorage w /\
  statsDownloads w' = statsDownloads w /\
  exportModalOpen w' = exportModalOpen w /\
  (forall h, getHierarchy env = Resolved h ->
     sweetAlert w' = Some (failureAlert user NoContent)).
Proof.
  cbn zeta.
  unfold handleExportConfirm, finally, catch, exportBody.
  destruct (getHierarchy env) as [h|e]; cbn [bind await ret throw length Nat.eqb
                                              modify snd].
  - rewrite succeeded_failure. repeat split.
  - rewrite succeeded_failure. repeat split. discriminate.
Qed.

Lemma export_without_content_witness :
  sweetAlert (handleExportConfirm qaView Sample.env Sample.pupil []
                Sample.lessonId (lit "a@b.c") Sample.fresh)
  = Some (failureAlert Sample.pupil NoContent).
Proof.
  refine (proj2 (proj2 (proj2 (proj2 (proj2 (proj2 (proj2
            (export_without_content qaView Sample.env Sample.pupil
               Sample.lessonId (lit "a@b.c") Sample.fresh))))))) _ _).
  reflexivity.
Defined.

(** X12: a job succeeds exactly when every stage passes and the distribution
    does: for a user who may edit, the download, which in QAView also needs
    the counter to answer; for any other user, a delivery channel that
    accepts the document, whatever the counter answers. *)
Theorem export_succeeds_iff (k : ViewName) (env : Env) (user : User)
    (items : list Content) (lessonId email : jsstring) (w : World) :
  succeeded (handleExportConfirm (viewOf k) env user items lessonId email w)
  = true <->
  stagesPass (viewOf k) env items w /\
  if isAdmin user then k = QA -> incrementOutcome env = Resolved tt
  else exists res, sendPdf env = Resolved res /\ ok res && success res = true.
Proof.
  unfold stagesPass, rendersAll.
  destruct (confirm_trace (viewOf k) env user items lessonId email w)
    as [(e & -> & He)|(h & Hh & Hi & Hc & [(e & Hr & ->)|[Hr H]])].
  - rewrite succeeded_failedIn. split; [discriminate|].
    intros [([h Hh] & Hi & Hc & _) _].
    destruct He as [He|[[_ He]|[_ He]]]; congruence.
  - rewrite succeeded_failedIn. split; [discriminate|].
    intros [(_ & _ & _ & Hall) _].
    apply rasterize_all with (w := setContainerHTML
      (stage env (splitContentIntoPages (viewOf k) (measure env)
                    (assemble env items)))
      (setContainerHTML "" (setSweetAlert (mkAlert Loading GeneratingPdf)
                              (setIsExporting true w)))) in Hall.
    rewrite Hall in Hr. discriminate.
  - pose proof (proj1 (rasterize_all env _ _) Hr) as Hall.
    destruct (isAdmin user).
    + destruct H as (r & wc & Hcount & ->).
      apply countLocal_cases in Hcount. destruct Hcount as (_ & _ & Hk).
      destruct r as [e|[]].
      * rewrite succeeded_failedIn. split; [discriminate|].
        intros [_ Hq]. destruct Hk as [-> Hrej]. rewrite Hq in Hrej; easy.
      * split; [|reflexivity]. intros _.
        split; [|exact Hk]. split; [now exists h|]. now repeat split.
    + cbn zeta in H. destruct H as [(e & Hs & ->)|(res & Hs & H)].
      * rewrite succeeded_failedIn. split; [discriminate|].
        intros [_ (res & Hres & _)]. congruence.
      * destruct (ok res && success res) eqn:Eok.
        -- destruct H as (r & wc & Hcount & ->).
           apply countRemote_cases in Hcount. destruct Hcount as (_ & _ & ->).
           split; [|reflexivity]. intros _.
           split; [|now exists res]. split; [now exists h|]. now repeat split.
        -- rewrite H, succeeded_failedIn. split; [discriminate|].
           intros [_ (res' & Hres & Hok)]. congruence.
Qed.

Lemma export_succeeds_iff_witness :
  succeeded (handleExportConfirm (viewOf QA) Sample.env Sample.pupil
               Sample.items Sample.lessonId (lit "a@b.c") Sample.fresh)
  = true.
Proof.
  refine (proj2 (export_succeeds_iff QA Sample.env Sample.pupil Sample.items
                   Sample.lessonId (lit "a@b.c") Sample.fresh) _).
  split.
  - split; [eexists; reflexivity|]. split; [discriminate|].
    split; [discriminate|]. intros i _. reflexivity.
  - exists (mkResponse true true None). split; reflexivity.
Defined.

(** X13: in QAView the count is awaited bare after the download link was
    clicked: when every stage passes for a user who may edit and the counter
    rejects, the file is downloaded and the request sent, yet the job ends
    with the failure alert carrying the counter's error, and the dialog is
    left as it was. *)
Theorem qa_download_uncounted_fails (env : Env) (user : User)
    (items : list Content) (lessonId email : jsstring) (w : World)
    (h : option Hierarchy) (e : Error)
    (Hadmin : isAdmin user = true)
    (Hh : getHierarchy env = Resolved h)
    (Hpass : stagesPass qaView env items w)
    (Hrej : incrementOutcome env = Rejected e) :
  let w' := handleExportConfirm qaView env user items lessonId email w in
  downloads w'
  = downloads w ++ [downloadName (lessonNameOf qaView h) (lit "QA") (isoNow env)] /\
  incrementRequests w' = incrementRequests w ++ [(lessonId, lit "qa")] /\
  sweetAlert w' = Some (mkAlert Failure (ExportFailed e)) /\
  exportModalOpen w' = exportModalOpen w.
Proof.
  cbn zeta. destruct Hpass as (_ & Hi & Hc & Hall).
  destruct (confirm_trace qaView env user items lessonId email w)
    as [(e' & _ & He)|(h' & Hh' & _ & _ & [(e' & Hr & _)|[_ H]])].
  - destruct He as [He|[[_ He]|[_ He]]]; congruence.
  - apply rasterize_all with (w := setContainerHTML
      (stage env (splitContentIntoPages qaView (measure env)
                    (assemble env items)))
      (setContainerHTML "" (setSweetAlert (mkAlert Loading GeneratingPdf)
                              (setIsExporting true w)))) in Hall.
    rewrite Hall in Hr. discriminate.
  - rewrite Hadmin in H. cbn zeta in H. destruct H as (r & wc & Hcount & ->).
    assert (h' = h) as -> by congruence.
    cbn [countLocal qaView] in Hcount. rewrite increment_run, Hrej in Hcount.
    inversion Hcount; subst. unfold failedIn, failureAlert. rewrite Hadmin.
    repeat split.
Qed.

Lemma qa_download_uncounted_fails_witness :
  let env := withCounter (Rejected (External (lit "503"))) Sample.env in
  let w' := handleExportConfirm qaView env Sample.admin Sample.items
              Sample.lessonId [] Sample.fresh in
  downloads w'
  = downloads Sample.fresh ++
    [downloadName
       (lessonNameOf qaView
          (Some (mkHierarchy (lit "7") (lit "Tamil") (lit "U1") []
                   Sample.lessonName)))
       (lit "QA") (isoNow env)] /\
  incrementRequests w'
  = incrementRequests Sample.fresh ++ [(Sample.lessonId, lit "qa")] /\
  sweetAlert w' = Some (mkAlert Failure (ExportFailed (External (lit "503")))) /\
  exportModalOpen w' = exportModalOpen Sample.fresh.
Proof.
  intros env.
  refine (qa_download_uncounted_fails env Sample.admin Sample.items
            Sample.lessonId [] Sample.fresh _ _ _ _ _ _).
  - vm_compute; reflexivity.
  - reflexivity.
  - split; [eexists; reflexivity|]. split; [discriminate|].
    split; [discriminate|]. intros i _. reflexivity.
  - reflexivity.
Defined.

(** X14: a job sends at most one request to the counter, for the lesson and
    the resource type of the view, and only after the document was handed
    over: after the download link was clicked for a user who may edit, after
    the delivery channel accepted the document for any other user. *)
Theorem count_only_after_handover (k : ViewName) (env : Env) (user : User)
    (items : list Content) (lessonId email : jsstring) (w : World) :
  let w' := handleExportConfirm (viewOf k) env user items lessonId email w in
  incrementRequests w' = incrementRequests w \/
  (incrementRequests w'
   = incrementRequests w ++ [(lessonId, resourceType (viewOf k))] /\
   if isAdmin user then exists name, downloads w' = downloads w ++ [name]
   else (exists s, submissions w' = submissions w ++ [s]) /\
        exists res, sendPdf env = Resolved res /\ ok res && success res = true).
Proof.
  cbn zeta.
  destruct (confirm_trace (viewOf k) env user items lessonId email w)
    as [(e & -> & _)|(h & _ & _ & _ & [(e & _ & ->)|[_ H]])];
    [now left|now left|].
  destruct (isAdmin user).
  - destruct H as (r & wc & Hc & ->). apply countLocal_cases in Hc.
    destruct Hc as ((_ & _ & _ & _ & Hd & _) & [Hi|Hi] & _).
    + left. now destruct r as [e|[]].
    + right. split; [now destruct r as [e|[]]|].
      eexists. destruct r as [e|[]]; cbn; rewrite Hd; reflexivity.
  - cbn zeta in H. destruct H as [(e & _ & ->)|(res & Hs & H)]; [now left|].
    destruct (ok res && success res) eqn:Eok; [|left; now rewrite H].
    destruct H as (r & wc & Hc & ->). apply countRemote_cases in Hc.
    destruct Hc as ((_ & _ & _ & _ & _ & Hsub) & [Hi|Hi] & ->).
    + now left.
    + right. split; [exact Hi|]. split; [|now exists res].
      eexists. cbn. rewrite Hsub. reflexivity.
Qed.

(** X15: when the rasteriser rejects one of the pages the job ends with the
    failure alert and nothing leaves the browser: no download, no document,
    no count. *)
Theorem failed_render_sends_nothing (k : ViewName) (env : Env) (user : User)
    (items : list Content) (lessonId email : jsstring) (w : World)
    (i : nat) (e : Error)
    (Hi : (i < length (splitContentIntoPages (viewOf k) (measure env)
                         (assemble env items)))%nat)
    (He : html2canvas env i = Rejected e) :
  let w' := handleExportConfirm (viewOf k) env user items lessonId email w in
  succeeded w' = false /\
  downloads w' = downloads w /\
  submissions w' = submissions w /\
  incrementRequests w' = incrementRequests w.
Proof.
  cbn zeta.
  destruct (confirm_trace (viewOf k) env user items lessonId email w)
    as [(e' & -> & _)|(h & _ & _ & _ & [(e' & _ & ->)|[Hr _]])].
  - now rewrite succeeded_failedIn.
  - now rewrite succeeded_failedIn.
  - apply rasterize_all in Hr. rewrite (Hr i Hi) in He. discriminate.
Qed.

Lemma failed_render_sends_nothing_witness :
  let env := withRasteriser (fun _ => Rejected (External (lit "canvas")))
               Sample.env in
  let w' := handleExportConfirm (viewOf Notes) env Sample.admin Sample.items
              Sample.lessonId [] Sample.fresh in
  succeeded w' = false /\
  downloads w' = downloads Sample.fresh /\
  submissions w' = submissions Sample.fresh /\
  incrementRequests w' = incrementRequests Sample.fresh.
Proof.
  intros env.
  refine (failed_render_sends_nothing Notes env Sample.admin Sample.items
            Sample.lessonId [] Sample.fresh 0 (External (lit "canvas")) _ _).
  - vm_compute; reflexivity.
  - reflexivity.
Defined.

(** X16: the session mark of NotesView. A job never removes a mark; a job for
    a lesson that is marked sends no count; and a job that succeeded leaves
    its lesson marked, provided the counter answered when the document was
    downloaded (after a delivery the lesson is marked whatever the counter
    answers). *)
Theorem notes_session_mark (env : Env) (user : User) (items : list Content)
    (lessonId email : jsstring) (w : World) :
  let w' := handleExportConfirm notesView env user items lessonId email w in
  (forall key, itemMissing key w = false -> itemMissing key w' = false) /\
  (itemMissing (downloadKey lessonId) w = false ->
   incrementRequests w' = incrementRequests w) /\
  (succeeded w' = true ->
   (isAdmin user = true -> incrementOutcome env = Resolved tt) ->
   itemMissing (downloadKey lessonId) w' = false).
Proof.
  cbn zeta.
  destruct (confirm_trace notesView env user items lessonId email w)
    as [(e & -> & _)|(h & _ & _ & _ & [(e & _ & ->)|[_ H]])].
  - rewrite succeeded_failedIn. split; [easy|]. split; [easy|discriminate].
  - rewrite succeeded_failedIn. split; [easy|]. split; [easy|discriminate].
  - destruct (isAdmin user).
    + destruct H as (r & wc & Hc & ->).
      apply notes_countLocal_storage in Hc. destruct Hc as (Hk & Hr & Hm).
      split; [|split].
      * intros key Hkey. specialize (Hk key Hkey). now destruct r as [e|[]].
      * intros Hkey. specialize (Hr Hkey). now destruct r as [e|[]].
      * destruct r as [e|[]]; [now rewrite succeeded_failedIn|].
        intros _ Ho. exact (Hm (Ho eq_refl)).
    + cbn zeta in H. destruct H as [(e & _ & ->)|(res & _ & H)].
      * rewrite succeeded_failedIn. split; [easy|]. split; [easy|discriminate].
      * destruct (ok res && success res).
        -- destruct H as (r & wc & Hc & ->).
           apply notes_countRemote_storage in Hc. destruct Hc as (Hk & Hr & Hm).
           split; [|split].
           ++ intros key Hkey. specialize (Hk key Hkey). now destruct r as [e|[]].
           ++ intros Hkey. specialize (Hr Hkey). now destruct r as [e|[]].
           ++ intros _ _. now destruct r as [e|[]].
        -- rewrite H, succeeded_failedIn.
           split; [easy|]. split; [easy|discriminate].
Qed.

Lemma notes_session_mark_witness :
  itemMissing (downloadKey Sample.lessonId)
    (handleExportConfirm notesView Sample.env Sample.admin Sample.items
       Sample.lessonId [] Sample.fresh)
  = false.
Proof.
  refine (proj2 (proj2 (notes_session_mark Sample.env Sample.admin Sample.items
                          Sample.lessonId [] Sample.fresh)) _ _).
  - vm_compute; reflexivity.
  - reflexivity.
Defined.

(** X17: the export button. A user who may not edit and has no address only
    gets the address dialog; otherwise a job is started, and the only
    document it can post goes to the user's own, non-empty address. For a
    user who may edit nothing is posted, and the address written as a
    fallback in the views plays no part. *)
Theorem export_button_recipient (k : ViewName) (env : Env) (user : User)
    (items : list Content) (lessonId : jsstring) (w : World) :
  let w' := handleExportInitiate k env user items lessonId w in
  (isAdmin user = false -> userEmail user = [] ->
   w' = setExportModalOpen true w) /\
  (isAdmin user = true ->
   forall email,
     w' = handleExportConfirm (viewOf k) env user items lessonId email w) /\
  (submissions w' = submissions w \/
   isAdmin user = false /\ userEmail user <> [] /\
   exists s, submissions w' = submissions w ++ [s] /\
     recipient s = userEmail user).
Proof.
  cbn zeta. unfold handleExportInitiate.
  destruct (isAdmin user) eqn:Ea.
  - split; [discriminate|]. split.
    + intros _ email. now apply confirm_email_unused.
    + left.
      destruct (confirm_posts k env user items lessonId
                  (orElse (userEmail user) (fallbackOf k)) w)
        as [H|[H _]]; [exact H|congruence].
  - destruct (userEmail user) as [|c rest] eqn:Ee.
    + split; [reflexivity|]. split; [discriminate|]. now left.
    + split; [discriminate|]. split; [discriminate|].
      destruct (confirm_posts k env user items lessonId (c :: rest) w)
        as [H|(_ & s & Hs & Hr)].
      * now left.
      * right. split; [reflexivity|]. split; [discriminate|]. now exists s.
Qed.

Lemma export_button_recipient_witness :
  handleExportInitiate QA Sample.env guest Sample.items Sample.lessonId
    Sample.fresh
  = setExportModalOpen true Sample.fresh.
Proof.
  refine (proj1 (export_button_recipient QA Sample.env guest Sample.items
                   Sample.lessonId Sample.fresh) _ _).
  - vm_compute; reflexivity.
  - reflexivity.
Defined.

(* ===================================================================== *)
(** * Facts about the markup of the notes and about titles *)
(* ===================================================================== *)

Module TextFacts.
Import Js ExportJob JsText NotesText.

Lemma headingTagAt_start s :
  headingTagAt s = headingStartAt s && existsb (N.eqb closeAngle) (skipn 3 s).
Proof.
  destruct s as [|c0 [|c1 [|c2 rest]]]; try reflexivity.
Qed.

Lemma hasHeadingStart_cons c s :
  hasHeadingStart (c :: s) = false -> hasHeadingStart s = false.
Proof.
  cbn [hasHeadingStart]. intros H. now apply orb_false_iff in H.
Qed.

Lemma hasHeadingStart_here s :
  hasHeadingStart s = false -> headingStartAt s = false.
Proof.
  destruct s; cbn [hasHeadingStart]; intros H; now apply orb_false_iff in H.
Qed.

(** A suffix that starts with [<] cannot complete a heading start begun
    before it. *)
Lemma hasHeadingStart_app_lt a b :
  hasHeadingStart a = false ->
  hasHeadingStart (a ++ openAngle :: b) = hasHeadingStart (openAngle :: b).
Proof.
  induction a as [|c a IH]; intros H; [reflexivity|].
  pose proof (hasHeadingStart_cons _ _ H) as Ha.
  pose proof (hasHeadingStart_here _ H) as Hc.
  change ((c :: a) ++ openAngle :: b) with (c :: (a ++ openAngle :: b)).
  cbn [hasHeadingStart]. rewrite (IH Ha).
  replace (headingStartAt (c :: a ++ openAngle :: b)) with false; [reflexivity|].
  symmetry. destruct a as [|c1 [|c2 a']].
  - destruct b; [reflexivity|].
    cbn. destruct (c =? openAngle)%N; reflexivity.
  - cbn. destruct (c =? openAngle)%N, ((c1 =? 104) || (c1 =? 72))%N; reflexivity.
  - exact Hc.
Qed.

Lemma firstMatch_none s :
  hasHeadingStart s = false -> firstMatch headingTagAt s = None.
Proof.
  induction s as [|c s IH]; intros H; [reflexivity|].
  cbn [firstMatch]. rewrite headingTagAt_start.
  rewrite (hasHeadingStart_here _ H). cbn [andb].
  now rewrite (IH (hasHeadingStart_cons _ _ H)).
Qed.

(** The first heading is found where it starts. *)
Lemma firstMatch_heading before h d rest :
  hasHeadingStart before = false ->
  headingTagAt (openAngle :: h :: d :: rest) = true ->
  firstMatch headingTagAt (before ++ openAngle :: h :: d :: rest)
  = Some (length before).
Proof.
  intros Hb Ht. induction before as [|c a IH]; cbn [app firstMatch length].
  - now rewrite Ht.
  - pose proof (hasHeadingStart_cons _ _ Hb) as Ha.
    rewrite (IH Ha). cbn [option_map].
    replace (headingTagAt (c :: a ++ openAngle :: h :: d :: rest)) with false;
      [reflexivity|].
    symmetry. rewrite headingTagAt_start.
    replace (headingStartAt (c :: a ++ openAngle :: h :: d :: rest)) with false;
      [reflexivity|].
    symmetry.
    pose proof (hasHeadingStart_app_lt (c :: a) (h :: d :: rest) Hb) as E.
    change ((c :: a) ++ openAngle :: h :: d :: rest)
      with (c :: a ++ openAngle :: h :: d :: rest) in E.
    pose proof (hasHeadingStart_here _ Hb) as Hc.
    destruct a as [|c1 [|c2 a']].
    + cbn. destruct (c =? openAngle)%N; reflexivity.
    + cbn. destruct (c =? openAngle)%N, ((c1 =? 104) || (c1 =? 72))%N; reflexivity.
    + exact Hc.
Qed.

Lemma skipn_length_app {A} (a b : list A) : skipn (length a) (a ++ b) = b.
Proof. induction a; [reflexivity|assumption]. Qed.

Lemma cutAtMatch_heading before h d rest :
  before <> [] ->
  hasHeadingStart before = false ->
  headingTagAt (openAngle :: h :: d :: rest) = true ->
  cutAtMatch headingTagAt (before ++ openAngle :: h :: d :: rest)
  = Some (openAngle :: h :: d :: rest).
Proof.
  intros Hne Hb Ht. unfold cutAtMatch.
  rewrite (firstMatch_heading before h d rest Hb Ht).
  destruct before as [|c a]; [congruence|].
  cbn [length]. f_equal.
  exact (skipn_length_app (c :: a) (openAngle :: h :: d :: rest)).
Qed.

Lemma existsb_app_r {A} (p : A -> bool) a b :
  existsb p b = true -> existsb p (a ++ b) = true.
Proof. intros H. rewrite existsb_app, H. apply orb_true_r. Qed.

Lemma sectionOpen_noStart s :
  hasHeadingStart (sectionOpen ++ s) = hasHeadingStart s.
Proof.
  destruct s as [|c0 [|c1 s']]; reflexivity.
Qed.

Lemma allNotesHTML_cons b bs :
  allNotesHTML (b :: bs) = sectionOpen ++ b ++ sectionClose ++ allNotesHTML bs.
Proof.
  unfold allNotesHTML. cbn [flat_map]. now rewrite <- !List.app_assoc.
Qed.

Lemma allNotesHTML_app l1 l2 :
  allNotesHTML (l1 ++ l2) = allNotesHTML l1 ++ allNotesHTML l2.
Proof. apply List.flat_map_app. Qed.

Lemma sectionClose_lt s : exists t, sectionClose ++ s = openAngle :: t.
Proof. now eexists. Qed.

Lemma allNotesHTML_lt bs : bs <> [] -> exists t, allNotesHTML bs = openAngle :: t.
Proof.
  destruct bs as [|b bs]; [congruence|]. intros _.
  rewrite allNotesHTML_cons. now eexists.
Qed.

Lemma allNotesHTML_noStart bs :
  Forall (fun b => hasHeadingStart b = false) bs ->
  hasHeadingStart (allNotesHTML bs) = false.
Proof.
  induction bs as [|b bs IH]; intros H; [reflexivity|].
  inversion H as [|? ? Hb Hbs]; subst.
  rewrite allNotesHTML_cons, sectionOpen_noStart.
  change (sectionClose ++ allNotesHTML bs)
    with (openAngle :: List.tl sectionClose ++ allNotesHTML bs).
  rewrite (hasHeadingStart_app_lt b _ Hb).
  change (openAngle :: List.tl sectionClose ++ allNotesHTML bs)
    with (sectionClose ++ allNotesHTML bs).
  destruct bs as [|b' bs'].
  - reflexivity.
  - destruct (allNotesHTML_lt (b' :: bs')) as [t Et]; [discriminate|].
    rewrite Et.
    rewrite (hasHeadingStart_app_lt sectionClose t eq_refl), <- Et.
    exact (IH Hbs).
Qed.

Lemma trimStart_head s c r :
  trimStart s = c :: r -> isWhiteSpace c = false.
Proof.
  induction s as [|c0 s IH]; cbn [trimStart]; [discriminate|].
  destruct (isWhiteSpace c0) eqn:E; [exact IH|].
  intros H. inversion H; subst. exact E.
Qed.

Lemma trimEnd_head s c r :
  trimEnd s = c :: r -> exists r', s = c :: r'.
Proof.
  destruct s as [|c0 s]; cbn [trimEnd]; [discriminate|].
  destruct (trimEnd s).
  - destruct (isWhiteSpace c0); [discriminate|].
    intros H. inversion H; subst. now eexists.
  - intros H. inversion H; subst. now eexists.
Qed.

Lemma trim_head s c r : trim s = c :: r -> isWhiteSpace c = false.
Proof.
  unfold trim. intros H. apply trimEnd_head in H. destruct H as [r' H].
  now apply trimStart_head in H.
Qed.

(** ** Titles *)

Lemma trimStart_spaces ws rest :
  forallb isWhiteSpace ws = true -> startsOutside isWhiteSpace rest = true ->
  trimStart (ws ++ rest) = rest.
Proof.
  intros Hws Hrest. induction ws as [|c ws IH]; cbn [app].
  - destruct rest as [|c r]; [reflexivity|]. cbn in *.
    now destruct (isWhiteSpace c).
  - cbn [forallb] in Hws. apply andb_true_iff in Hws. destruct Hws as [Hc Hws].
    cbn [trimStart]. rewrite Hc. now apply IH.
Qed.

Lemma trimStart_outside rest :
  startsOutside isWhiteSpace rest = true -> trimStart rest = rest.
Proof. exact (trimStart_spaces [] rest eq_refl). Qed.

Lemma span_outside p rest :
  startsOutside p rest = true -> span p rest = ([], rest).
Proof.
  destruct rest as [|c r]; [reflexivity|]. cbn. now destruct (p c).
Qed.

Lemma span_all p ds rest :
  forallb p ds = true -> startsOutside p rest = true ->
  span p (ds ++ rest) = (ds, rest).
Proof.
  intros Hds Hrest. induction ds as [|c ds IH]; cbn [app].
  - destruct rest as [|c r]; [reflexivity|]. cbn in *.
    now destruct (p c).
  - cbn [forallb] in Hds. apply andb_true_iff in Hds. destruct Hds as [Hc Hds].
    cbn [span]. now rewrite Hc, (IH Hds).
Qed.

Lemma separator_not_digit c : Titles.isSeparator c = true -> isDigit c = false.
Proof.
  unfold Titles.isSeparator, isDigit, isWhiteSpace. intros H.
  destruct (N.leb_spec 48 c); [|reflexivity].
  destruct (N.leb_spec c 57); [|reflexivity].
  exfalso.
  repeat match type of H with
         | (_ || _ = true) => apply orb_true_iff in H; destruct H as [H|H]
         | (_ && _ = true) => apply andb_true_iff in H; destruct H as [H ?]
         end;
    try (apply N.eqb_eq in H; lia);
    repeat match goal with
           | H' : (_ <=? _)%N = true |- _ => apply N.leb_le in H'
           end; lia.
Qed.

Lemma digit_not_space c : isDigit c = true -> isWhiteSpace c = false.
Proof.
  intros H. destruct (isWhiteSpace c) eqn:E; [|reflexivity].
  assert (Hs : Titles.isSeparator c = true)
    by (unfold Titles.isSeparator; rewrite E; apply orb_true_r).
  apply separator_not_digit in Hs. congruence.
Qed.

Lemma digit_not_lt c : isDigit c = true -> (c =? openAngle)%N = false.
Proof.
  unfold isDigit, openAngle. intros H. apply andb_true_iff in H. destruct H as [H1 H2].
  apply N.leb_le in H1, H2. apply N.eqb_neq. lia.
Qed.

Section Scan.
Import Titles.

Lemma markup_spaces ws : forall acc s,
  forallb isWhiteSpace ws = true ->
  markup Between acc (ws ++ s) = markup Between (List.rev ws ++ acc) s.
Proof.
  induction ws as [|c ws IH]; intros acc s H; [reflexivity|].
  cbn [forallb] in H. apply andb_true_iff in H. destruct H as [Hc Hws].
  cbn [app markup]. rewrite Hc, (IH _ _ Hws). cbn [List.rev].
  now rewrite <- List.app_assoc.
Qed.

Lemma markup_inside inner : forall acc s,
  existsb (N.eqb closeAngle) inner = false ->
  markup Inside acc (inner ++ closeAngle :: s)
  = markup Between (closeAngle :: List.rev inner ++ acc) s.
Proof.
  induction inner as [|c inner IH]; intros acc s H.
  - cbn [app markup]. now rewrite N.eqb_refl.
  - cbn [existsb] in H. apply orb_false_iff in H. destruct H as [Hc Hi].
    cbn [app markup]. rewrite N.eqb_sym in Hc. rewrite Hc, (IH _ _ Hi).
    cbn [List.rev]. now rewrite <- List.app_assoc.
Qed.

Lemma markup_tag_step inner acc s :
  inner <> [] -> existsb (N.eqb closeAngle) inner = false ->
  markup Between acc (openAngle :: inner ++ closeAngle :: s)
  = markup Between (closeAngle :: List.rev inner ++ openAngle :: acc) s.
Proof.
  intros Hne H. destruct inner as [|c inner]; [congruence|].
  cbn [existsb] in H. apply orb_false_iff in H. destruct H as [Hc Hi].
  cbn [markup app]. change (isWhiteSpace openAngle) with false. cbn iota.
  rewrite N.eqb_refl. rewrite N.eqb_sym in Hc. rewrite Hc.
  rewrite (markup_inside _ _ _ Hi). cbn [List.rev].
  now rewrite <- !List.app_assoc.
Qed.

(** The scan reads a prefix the pattern matches and stops where neither
    white space nor a tag follows. *)
Lemma markup_prefix pre : Markup pre -> forall acc rest,
  startsOutside (fun c => isWhiteSpace c || (c =? openAngle)%N) rest = true ->
  markup Between acc (pre ++ rest) = Some (List.rev acc ++ pre, rest).
Proof.
  induction 1 as [ws Hws|ws inner more Hws Hne Hgt Hmore IH];
    intros acc rest Hrest.
  - rewrite (markup_spaces _ _ _ Hws).
    destruct rest as [|c r].
    + cbn [markup]. now rewrite List.rev_app_distr, List.rev_involutive.
    + cbn [startsOutside] in Hrest. apply negb_true_iff in Hrest.
      apply orb_false_iff in Hrest. destruct Hrest as [H1 H2].
      cbn [markup]. rewrite H1, H2.
      now rewrite List.rev_app_distr, List.rev_involutive.
  - rewrite <- !List.app_assoc. rewrite (markup_spaces _ _ _ Hws).
    cbn [app].
    rewrite (markup_tag_step _ _ _ Hne Hgt).
    rewrite (IH _ _ Hrest). f_equal. f_equal.
    cbn [List.rev]. rewrite !List.rev_app_distr, !List.rev_involutive.
    cbn [List.rev app]. rewrite !List.rev_app_distr, !List.rev_involutive.
    now rewrite <- !List.app_assoc.
Qed.
End Scan.

End TextFacts.

Import JsText NotesText TextFacts.

(** X18: what NotesView hands to its paginator when a note holds a heading.
    The removal of unformatted duplicates cuts the markup of all notes at
    the first heading tag, so the wrapper of the note that holds it, what
    that note says before the heading, and every earlier note are not part
    of the document: the markup starts at the heading tag. *)
Theorem notes_before_first_heading_dropped (earlier : list jsstring)
    (before rest : jsstring) (h d : N) (later : list jsstring) :
  Forall (fun body => hasHeadingStart body = false) earlier ->
  hasHeadingStart before = false ->
  headingStartAt [openAngle; h; d] = true ->
  exportMarkup (earlier ++ (before ++ openAngle :: h :: d :: rest) :: later)
  = openAngle :: h :: d :: rest ++ sectionClose ++ allNotesHTML later.
Proof.
  intros Hearlier Hbefore Hstart.
  remember (rest ++ sectionClose ++ allNotesHTML later) as tail eqn:Etail.
  assert (Ehtml : allNotesHTML (earlier ++ (before ++ openAngle :: h :: d :: rest)
                                  :: later)
                  = (allNotesHTML earlier ++ sectionOpen ++ before)
                    ++ openAngle :: h :: d :: tail).
  { rewrite allNotesHTML_app, allNotesHTML_cons, Etail.
    rewrite <- !List.app_assoc. cbn [app]. reflexivity. }
  assert (Hgt : existsb (N.eqb closeAngle) tail = true).
  { rewrite Etail. apply existsb_app_r.
    rewrite existsb_app. reflexivity. }
  assert (Htag : headingTagAt (openAngle :: h :: d :: tail) = true).
  { rewrite headingTagAt_start.
    change (skipn 3 (openAngle :: h :: d :: tail)) with tail.
    rewrite Hgt, andb_true_r. exact Hstart. }
  assert (Hpre : hasHeadingStart (allNotesHTML earlier ++ sectionOpen ++ before)
                 = false).
  { change (sectionOpen ++ before)
      with (openAngle :: List.tl sectionOpen ++ before).
    rewrite (hasHeadingStart_app_lt _ _ (allNotesHTML_noStart _ Hearlier)).
    change (openAngle :: List.tl sectionOpen ++ before) with (sectionOpen ++ before).
    now rewrite sectionOpen_noStart. }
  unfold exportMarkup, removeUnformattedDuplicates. cbn zeta.
  rewrite Ehtml, (cutAtMatch_heading _ h d tail); [|now destruct (allNotesHTML earlier)|exact Hpre|exact Htag].
  assert (Hfirst : tagAt (openAngle :: h :: d :: tail) = true).
  { cbn [tagAt existsb]. rewrite Hgt, orb_true_r, andb_true_r.
    cbn [headingStartAt] in Hstart.
    destruct (h =? closeAngle)%N eqn:E; [|reflexivity].
    apply N.eqb_eq in E. subst h. discriminate. }
  unfold cutAtMatch. cbn [firstMatch]. now rewrite Hfirst.
Qed.

Lemma notes_before_first_heading_dropped_witness :
  exportMarkup ([lit "Seen in class."]
                ++ (lit "Intro"
                    ++ openAngle :: 104%N :: 50%N :: lit ">Title</h2><p>Text</p>")
                :: [])
  = openAngle :: 104%N :: 50%N :: lit ">Title</h2><p>Text</p>" ++ sectionClose
    ++ allNotesHTML [].
Proof.
  refine (notes_before_first_heading_dropped [lit "Seen in class."]
            (lit "Intro") (lit ">Title</h2><p>Text</p>") 104 50 [] _ _ _).
  - repeat constructor.
  - reflexivity.
  - reflexivity.
Defined.

(** X19: when no note holds the start of a heading tag, the markup handed
    to the paginator is the markup of all notes, each in its wrapper, with
    nothing removed. *)
Theorem notes_without_heading_kept (bodies : list jsstring) :
  Forall (fun body => hasHeadingStart body = false) bodies ->
  exportMarkup bodies = allNotesHTML bodies.
Proof.
  intros H.
  assert (E : removeUnformattedDuplicates (allNotesHTML bodies)
              = allNotesHTML bodies).
  { unfold removeUnformattedDuplicates, cutAtMatch.
    rewrite (firstMatch_none _ (allNotesHTML_noStart _ H)).
    destruct bodies as [|b bs]; [reflexivity|].
    rewrite allNotesHTML_cons.
    assert (E1 : firstMatch (startsWithCI noteSectionStart)
                   (sectionOpen ++ b ++ sectionClose ++ allNotesHTML bs)
                 = Some 0%nat) by reflexivity.
    now rewrite E1. }
  unfold exportMarkup. cbn zeta. rewrite E.
  destruct bodies as [|b bs]; [reflexivity|].
  rewrite allNotesHTML_cons.
  assert (E2 : tagAt (sectionOpen ++ b ++ sectionClose ++ allNotesHTML bs)
               = true).
  { change (tagAt (sectionOpen ++ b ++ sectionClose ++ allNotesHTML bs))
      with (existsb (N.eqb closeAngle)
              (skipn 2 sectionOpen ++ b ++ sectionClose ++ allNotesHTML bs)).
    rewrite existsb_app. reflexivity. }
  unfold cutAtMatch.
  destruct (sectionOpen ++ b ++ sectionClose ++ allNotesHTML bs) eqn:El;
    [discriminate E2|].
  cbn [firstMatch]. now rewrite E2.
Qed.

Lemma notes_without_heading_kept_witness :
  exportMarkup [lit "<p>One</p>"; lit "Two"]
  = allNotesHTML [lit "<p>One</p>"; lit "Two"].
Proof.
  refine (notes_without_heading_kept [lit "<p>One</p>"; lit "Two"] _).
  repeat constructor.
Defined.

(** X20: the title sent with a new note is never empty and never starts with
    white space. It is the first 50 code units of the trimmed text of the
    body, and the text Note, a hyphen and the date when the body holds no
    text. *)
Theorem new_note_title_shape (textContent today : jsstring) :
  let title := newNoteTitle textContent today in
  title <> [] /\
  (forall c, head title = Some c -> isWhiteSpace c = false) /\
  (trim textContent <> [] ->
   title = firstn 50 (trim textContent) /\ (length title <= 50)%nat) /\
  (trim textContent = [] -> title = lit "Note - " ++ today).
Proof.
  cbn zeta. unfold newNoteTitle.
  destruct (trim textContent) as [|c r] eqn:E.
  - cbn. split; [discriminate|]. split.
    + intros c Hc. inversion Hc; subst. reflexivity.
    + split; [congruence|reflexivity].
  - cbn [firstn orElse]. split; [discriminate|]. split.
    + intros c' Hc. inversion Hc; subst. exact (trim_head _ _ _ E).
    + split; [|discriminate]. intros _. split; [reflexivity|].
      cbn [length]. pose proof (List.firstn_le_length 49 r). lia.
Qed.

Lemma new_note_title_shape_witness :
  newNoteTitle (lit "  Water cycle ") (lit "2/11/2026")
  = firstn 50 (trim (lit "  Water cycle ")) /\
  (length (newNoteTitle (lit "  Water cycle ") (lit "2/11/2026")) <= 50)%nat.
Proof.
  refine (proj1 (proj2 (proj2 (new_note_title_shape (lit "  Water cycle ")
                                 (lit "2/11/2026")))) _).
  discriminate.
Defined.

Import Titles.

(** X21: QAView strips one leading number from a title before it writes its
    own. When the title is markup (white space and tags), then digits, one
    separator (full stop, closing parenthesis, hyphen or white space),
    white space and a rest, the digits, the separator and the white space
    are removed and the markup and the rest are kept; a number that opens
    the sentence is removed like a numbering. *)
Theorem qa_title_number_stripped (pre digits ws rest : jsstring) (sep : N) :
  Markup pre ->
  digits <> [] -> forallb isDigit digits = true ->
  isSeparator sep = true ->
  forallb isWhiteSpace ws = true ->
  startsOutside isWhiteSpace rest = true ->
  cleanTitleText (pre ++ digits ++ sep :: ws ++ rest) = pre ++ rest.
Proof.
  intros Hpre Hne Hdigits Hsep Hws Hrest. unfold cleanTitleText.
  destruct digits as [|d ds]; [congruence|].
  cbn [forallb] in Hdigits. apply andb_true_iff in Hdigits.
  destruct Hdigits as [Hd Hds].
  rewrite (markup_prefix pre Hpre).
  2:{ cbn [app startsOutside].
      now rewrite (digit_not_space _ Hd), (digit_not_lt _ Hd). }
  rewrite (span_all isDigit (d :: ds) (sep :: ws ++ rest)).
  - rewrite Hsep. cbn [List.rev app]. now rewrite trimStart_spaces.
  - cbn [forallb]. now rewrite Hd, Hds.
  - cbn [startsOutside]. now rewrite (separator_not_digit _ Hsep).
Qed.

Lemma qa_title_number_stripped_witness :
  cleanTitleText (lit "<p> " ++ lit "12" ++ 41%N :: lit " " ++ lit "Why?</p>")
  = lit "<p> " ++ lit "Why?</p>".
Proof.
  refine (qa_title_number_stripped (lit "<p> ") (lit "12") (lit " ")
            (lit "Why?</p>") 41 _ _ _ _ _ _).
  - apply (markup_tag [] (lit "p") (lit " ")); try reflexivity.
    + discriminate.
    + now apply markup_space.
  - discriminate.
  - reflexivity.
  - reflexivity.
  - reflexivity.
  - reflexivity.
Defined.

(** X22: GenericContentView strips a leading number with every separator
    that follows it, and the white space that ended the markup before it:
    markup, digits, one or more separators and a rest become the markup
    without its trailing white space, followed by the rest. *)
Theorem generic_title_number_stripped (pre digits seps rest : jsstring) :
  Markup pre ->
  digits <> [] -> forallb isDigit digits = true ->
  seps <> [] -> forallb isSeparator seps = true ->
  startsOutside isSeparator rest = true ->
  cleanTitleTextGeneric (pre ++ digits ++ seps ++ rest) = trimEnd pre ++ rest.
Proof.
  intros Hpre Hne Hdigits Hnes Hseps Hrest. unfold cleanTitleTextGeneric.
  destruct digits as [|d ds]; [congruence|].
  destruct seps as [|sep seps']; [congruence|].
  cbn [forallb] in Hdigits, Hseps.
  apply andb_true_iff in Hdigits, Hseps.
  destruct Hdigits as [Hd Hds]. destruct Hseps as [Hsep Hseps].
  rewrite (markup_prefix pre Hpre).
  2:{ cbn [app startsOutside].
      now rewrite (digit_not_space _ Hd), (digit_not_lt _ Hd). }
  cbn [app trimStart]. rewrite (digit_not_space _ Hd).
  change (d :: ds ++ sep :: seps' ++ rest)
    with ((d :: ds) ++ (sep :: seps') ++ rest).
  rewrite (span_all isDigit (d :: ds)).
  - rewrite (span_all isSeparator (sep :: seps') rest).
    + cbn [List.rev app].
      assert (Hr : startsOutside isWhiteSpace rest = true).
      { destruct rest as [|c r]; [reflexivity|]. cbn [startsOutside] in *.
        apply negb_true_iff in Hrest. apply negb_true_iff.
        unfold isSeparator in Hrest. now apply orb_false_iff in Hrest. }
      now rewrite (trimStart_outside rest Hr).
    + cbn [forallb]. now rewrite Hsep, Hseps.
    + exact Hrest.
  - cbn [forallb]. now rewrite Hd, Hds.
  - cbn [app startsOutside]. now rewrite (separator_not_digit _ Hsep).
Qed.

Lemma generic_title_number_stripped_witness :
  cleanTitleTextGeneric (lit "<p> " ++ lit "12" ++ lit ".) " ++ lit "Why?</p>")
  = trimEnd (lit "<p> ") ++ lit "Why?</p>".
Proof.
  refine (generic_title_number_stripped (lit "<p> ") (lit "12") (lit ".) ")
            (lit "Why?</p>") _ _ _ _ _ _).
  - apply (markup_tag [] (lit "p") (lit " ")); try reflexivity.
    + discriminate.
    + now apply markup_space.
  - discriminate.
  - reflexivity.
  - discriminate.
  - reflexivity.
  - reflexivity.
Defined.

(** X23: a title without leading number is written as it is. In both views,
    when the markup at the start of the title is followed by nothing, or by
    a code unit that is neither a digit, white space nor the start of a
    tag, the title is unchanged. *)
Theorem title_without_number_kept (pre rest : jsstring) :
  Markup pre ->
  startsOutside (fun c => isWhiteSpace c || (c =? openAngle)%N || isDigit c) rest
  = true ->
  cleanTitleText (pre ++ rest) = pre ++ rest /\
  cleanTitleTextGeneric (pre ++ rest) = pre ++ rest.
Proof.
  intros Hpre Hrest.
  assert (H : startsOutside (fun c => isWhiteSpace c || (c =? openAngle)%N) rest = true
              /\ startsOutside isDigit rest = true
              /\ startsOutside isWhiteSpace rest = true).
  { destruct rest as [|c r]; [now repeat split|]. cbn [startsOutside] in *.
    apply negb_true_iff in Hrest. apply orb_false_iff in Hrest.
    destruct Hrest as [Hrest Hd]. apply orb_false_iff in Hrest.
    destruct Hrest as [Hw Hl]. now rewrite Hw, Hl, Hd. }
  destruct H as (H1 & H2 & H3).
  unfold cleanTitleText, cleanTitleTextGeneric.
  rewrite (markup_prefix pre Hpre [] rest H1).
  rewrite (trimStart_outside rest H3).
  rewrite (span_outside isDigit rest H2). now split.
Qed.

Lemma title_without_number_kept_witness :
  cleanTitleText (lit "<p>" ++ lit "Why 2?</p>") = lit "<p>" ++ lit "Why 2?</p>" /\
  cleanTitleTextGeneric (lit "<p>" ++ lit "Why 2?</p>")
  = lit "<p>" ++ lit "Why 2?</p>".
Proof.
  refine (title_without_number_kept (lit "<p>") (lit "Why 2?</p>") _ _).
  - apply (markup_tag [] (lit "p") []); try reflexivity.
    + discriminate.
    + now apply markup_space.
  - reflexivity.
Defined.

Module TableFacts.
Import Js ExportJob TableText.

Lemma decimal_small n :
  (n <= 10)%nat ->
  (length (decimal n) <= 2)%nat /\ ~ In newline (decimal n).
Proof.
  intros H.
  do 11 (destruct n as [|n];
         [split; [vm_compute; lia
                 |vm_compute; intros Hin;
                  repeat (destruct Hin as [Hin|Hin]; [discriminate|]);
                  exact Hin]|]).
  lia.
Qed.

Lemma lit_no_newline_header : ~ In newline (lit "Header ").
Proof.
  vm_compute. intros Hin.
  repeat (destruct Hin as [Hin|Hin]; [discriminate|]). exact Hin.
Qed.

Lemma lit_no_newline_cell : ~ In newline (lit "Cell ").
Proof.
  vm_compute. intros Hin.
  repeat (destruct Hin as [Hin|Hin]; [discriminate|]). exact Hin.
Qed.

Lemma headerCell_small col :
  (col < 10)%nat ->
  (length (headerCell col) <= cellWidth)%nat /\ ~ In newline (headerCell col).
Proof.
  intros H. destruct (decimal_small (col + 1)) as [Hl Hn]; [lia|].
  unfold headerCell. split.
  - rewrite List.length_app. change (length (lit "Header ")) with 7%nat.
    unfold cellWidth. lia.
  - intros Hin. apply List.in_app_or in Hin. destruct Hin as [Hin|Hin];
      [now apply lit_no_newline_header|now apply Hn].
Qed.

Lemma dataCell_small r col :
  (r <= 10)%nat -> (col < 10)%nat ->
  (length (dataCell r col) <= cellWidth)%nat /\ ~ In newline (dataCell r col).
Proof.
  intros Hr H. destruct (decimal_small (col + 1)) as [Hl Hn]; [lia|].
  destruct (decimal_small r Hr) as [Hlr Hnr].
  unfold dataCell. split.
  - rewrite !List.length_app. change (length (lit "Cell ")) with 5%nat.
    change (length (lit "_")) with 1%nat. unfold cellWidth. lia.
  - intros Hin. apply List.in_app_or in Hin. destruct Hin as [Hin|Hin];
      [now apply lit_no_newline_cell|].
    apply List.in_app_or in Hin. destruct Hin as [Hin|Hin]; [now apply Hnr|].
    apply List.in_app_or in Hin. destruct Hin as [Hin|Hin]; [|now apply Hn].
    destruct Hin as [Hin|[]]. discriminate.
Qed.

(** A line without its line feed. *)
Lemma border_line left middle right cols :
  (0 < cols)%nat ->
  left <> newline -> middle <> newline -> right <> newline ->
  exists line,
    border left middle right cols = line ++ [newline] /\
    length line = (16 * cols + 1)%nat /\ ~ In newline line.
Proof.
  intros Hc Hl Hm Hr. unfold border.
  set (f := fun col => repeat horizontal cellWidth
                       ++ (if (col + 1 <? cols)%nat then [middle] else [])).
  exists ([left] ++ flat_map f (seq 0 cols) ++ [right]).
  split; [now rewrite <- !List.app_assoc|].
  assert (H : forall n start, (start + n = cols)%nat ->
            length (flat_map f (seq start n)) = (16 * n - 1)%nat /\
            ~ In newline (flat_map f (seq start n))).
  { induction n as [|n IH]; intros start E; [split; [reflexivity|easy]|].
    cbn [seq flat_map].
    destruct (IH (S start)) as [IHl IHn]; [lia|].
    split.
    - rewrite List.length_app, IHl. unfold f at 1.
      rewrite List.length_app, List.repeat_length. unfold cellWidth.
      destruct (Nat.ltb_spec (start + 1) cols); cbn [length]; lia.
    - intros Hin. apply List.in_app_or in Hin. destruct Hin as [Hin|Hin];
        [|now apply IHn].
      unfold f in Hin. apply List.in_app_or in Hin. destruct Hin as [Hin|Hin].
      + apply List.repeat_spec in Hin. discriminate.
      + destruct (_ <? _)%nat; [|easy]. destruct Hin as [Hin|[]]. congruence. }
  destruct (H cols 0%nat eq_refl) as [Hlen Hno]. split.
  - rewrite !List.length_app, Hlen. cbn [length]. lia.
  - intros Hin. apply List.in_app_or in Hin. destruct Hin as [[Hin|[]]|Hin];
      [congruence|].
    apply List.in_app_or in Hin. destruct Hin as [Hin|[Hin|[]]];
      [now apply Hno|congruence].
Qed.

Lemma row_line cell cols :
  (forall col, (col < cols)%nat ->
     (length (cell col) <= cellWidth)%nat /\ ~ In newline (cell col)) ->
  exists line,
    row cell cols = line ++ [newline] /\
    length line = (16 * cols + 1)%nat /\ ~ In newline line.
Proof.
  intros Hcell. unfold row.
  set (f := fun col => cell col ++ repeat space (cellWidth - length (cell col))
                       ++ [vertical]).
  exists ([vertical] ++ flat_map f (seq 0 cols)).
  split; [now rewrite <- !List.app_assoc|].
  assert (H : forall n start, (start + n <= cols)%nat ->
            length (flat_map f (seq start n)) = (16 * n)%nat /\
            ~ In newline (flat_map f (seq start n))).
  { induction n as [|n IH]; intros start E; [split; [reflexivity|easy]|].
    cbn [seq flat_map].
    destruct (IH (S start)) as [IHl IHn]; [lia|].
    destruct (Hcell start) as [Hl Hn]; [lia|].
    split.
    - rewrite List.length_app, IHl. unfold f at 1.
      rewrite !List.length_app, List.repeat_length. cbn [length].
      unfold cellWidth in *. lia.
    - intros Hin. apply List.in_app_or in Hin. destruct Hin as [Hin|Hin];
        [|now apply IHn].
      unfold f in Hin. apply List.in_app_or in Hin. destruct Hin as [Hin|Hin];
        [now apply Hn|].
      apply List.in_app_or in Hin. destruct Hin as [Hin|[Hin|[]]].
      + apply List.repeat_spec in Hin. discriminate.
      + discriminate. }
  destruct (H cols 0%nat (Nat.le_refl _)) as [Hlen Hno]. split.
  - rewrite List.length_app, Hlen. cbn [length]. lia.
  - intros Hin. apply List.in_app_or in Hin. destruct Hin as [[Hin|[]]|Hin];
      [discriminate|now apply Hno].
Qed.

Lemma rows_lines cols : forall n start,
  (0 < cols <= 10)%nat -> (start + n <= 11)%nat ->
  exists lines,
    flat_map (fun r => row (dataCell r) cols) (seq start n)
    = flat_map (fun l => l ++ [newline]) lines /\
    length lines = n /\
    Forall (fun l => length l = (16 * cols + 1)%nat /\ ~ In newline l) lines.
Proof.
  induction n as [|n IH]; intros start Hc Hn.
  - exists []. now repeat split.
  - destruct (IH (S start) Hc) as (ls & E & Hl & Hf); [lia|].
    destruct (row_line (dataCell start) cols) as (l & El & Hlen & Hno).
    { intros col Hcol. apply dataCell_small; lia. }
    exists (l :: ls). cbn [seq flat_map length]. rewrite El, E, Hl.
    split; [reflexivity|]. split; [reflexivity|]. now constructor.
Qed.

End TableFacts.

Import TableText TableFacts.

(** X24: the table drawn by the editor is rectangular. For the sizes the
    toolbar accepts (1 to 10 rows, 1 to 10 columns) the text is rows + 3
    lines of 16 * cols + 1 code units each, every one ended by a line feed,
    followed by one more line feed: the top border, the header row, its
    separator, rows - 1 data rows (the header counts as a row) and the
    bottom border. *)
Theorem table_is_rectangular (rows cols : nat) :
  tableAllowed rows cols = true ->
  exists lines,
    tableText rows cols
    = flat_map (fun line => line ++ [newline]) lines ++ [newline] /\
    length lines = (rows + 3)%nat /\
    Forall (fun line => length line = (16 * cols + 1)%nat /\
                        ~ In newline line) lines.
Proof.
  unfold tableAllowed. intros H.
  repeat (apply andb_true_iff in H; destruct H as [H ?]).
  apply Nat.ltb_lt in H. 
  repeat match goal with
         | H' : (_ <? _)%nat = true |- _ => apply Nat.ltb_lt in H'
         | H' : (_ <=? _)%nat = true |- _ => apply Nat.leb_le in H'
         end.
  destruct (border_line 9484 9516 9488 cols) as (top & Et & Ht);
    [lia|discriminate..|].
  destruct (border_line 9500 9532 9508 cols) as (mid & Em & Hm);
    [lia|discriminate..|].
  destruct (border_line 9492 9524 9496 cols) as (bot & Eb & Hb);
    [lia|discriminate..|].
  destruct (row_line headerCell cols) as (hd & Eh & Hh).
  { intros col Hcol. apply headerCell_small. lia. }
  destruct (rows_lines cols (rows - 1) 1) as (data & Ed & Hdl & Hd);
    [lia|lia|].
  exists ([top; hd; mid] ++ data ++ [bot]).
  split; [|split].
  - unfold tableText. rewrite Et, Eh, Em, Ed, Eb.
    rewrite !List.flat_map_app. cbn [flat_map].
    now rewrite <- !List.app_assoc.
  - rewrite !List.length_app, Hdl. cbn [length]. lia.
  - apply Forall_app. split; [now repeat constructor|].
    apply Forall_app. split; [exact Hd|now repeat constructor].
Qed.

Lemma table_is_rectangular_witness :
  exists lines,
    tableText 3 3
    = flat_map (fun line => line ++ [newline]) lines ++ [newline] /\
    length lines = (3 + 3)%nat /\
    Forall (fun line => length line = (16 * 3 + 1)%nat /\
                        ~ In newline line) lines.
Proof.
  refine (table_is_rectangular 3 3 _). reflexivity.
Defined.

Module RouteFacts.
Import ExportJob JsText ContentRoute.

Section Grouping.
Variable Doc : Type.
Variable typeOf : Doc -> jsstring.
Variable inherited : jsstring -> bool.

Lemma addTo_none k content acc :
  addTo Doc k content acc = None <-> ~ In k (List.map groupType acc).
Proof.
  induction acc as [|g rest IH]; cbn [addTo List.map In]; [easy|].
  destruct (decide (groupType g = k)) as [E|E].
  - split; [discriminate|]. intros H. exfalso. apply H. now left.
  - destruct (addTo Doc k content rest).
    + cbn. split; [discriminate|]. intros H. exfalso.
      destruct IH as [_ IH]. 
      assert (Hn : ~ In k (List.map groupType rest)) by (intros X; apply H; now right).
      specialize (IH Hn). discriminate.
    + cbn. split; [|reflexivity]. intros _ [H|H]; [congruence|].
      now apply (proj1 IH).
Qed.

(** An existing group takes the document; the others stay. *)
Lemma addTo_some k content acc acc' :
  addTo Doc k content acc = Some acc' ->
  exists l1 g l2,
    acc = l1 ++ g :: l2 /\ groupType g = k /\
    ~ In k (List.map groupType l1) /\
    acc' = l1 ++ mkGroup k (S (count g)) (docs g ++ [content]) :: l2.
Proof.
  revert acc'. induction acc as [|g rest IH]; intros acc';
    cbn [addTo]; [discriminate|].
  destruct (decide (groupType g = k)) as [E|E].
  - intros H. inversion H; subst. exists [], g, rest. now repeat split.
  - destruct (addTo Doc k content rest) as [r|]; [|discriminate].
    cbn. intros H. inversion H; subst.
    destruct (IH r eq_refl) as (l1 & g0 & l2 & -> & Hk & Hn & ->).
    exists (g :: l1), g0, l2. repeat split; [exact Hk|].
    cbn. intros [X|X]; [congruence|now apply Hn].
Qed.

Lemma filter_snoc {A} (p : A -> bool) l c :
  List.filter p (l ++ [c]) = List.filter p l ++ (if p c then [c] else []).
Proof. rewrite List.filter_app. cbn. now destruct (p c). Qed.

Lemma filter_type_none k (seen : list Doc) :
  (forall c, In c seen -> typeOf c <> k) ->
  List.filter (fun c => bool_decide (typeOf c = k)) seen = [].
Proof.
  induction seen as [|s seen' IH]; intros H; [reflexivity|].
  cbn [List.filter]. rewrite bool_decide_eq_false_2 by (apply H; now left).
  apply IH. intros c Hc. apply H. now right.
Qed.

Lemma groupOf_other seen c g :
  groupOf Doc typeOf seen g -> typeOf c <> groupType g ->
  groupOf Doc typeOf (seen ++ [c]) g.
Proof.
  intros (Hc & Hn & Hd) Hne. split; [exact Hc|]. split; [exact Hn|].
  rewrite filter_snoc, bool_decide_eq_false_2 by exact Hne.
  now rewrite List.app_nil_r.
Qed.

Lemma collect_keeps seen acc c acc' :
  collected Doc typeOf inherited seen acc ->
  collect Doc typeOf inherited acc c = Some acc' ->
  collected Doc typeOf inherited (seen ++ [c]) acc'.
Proof.
  intros (Hnd & Hg & Hin & Hinh). unfold collect. cbn zeta.
  destruct (addTo Doc (typeOf c) c acc) as [r|] eqn:Ea.
  - intros H. inversion H; subst acc'. clear H.
    destruct (addTo_some _ _ _ _ Ea) as (l1 & g & l2 & -> & Hk & Hn1 & ->).
    assert (Etypes : List.map groupType
                       (l1 ++ mkGroup (typeOf c) (S (count g))
                                 (docs g ++ [c]) :: l2)
                     = List.map groupType (l1 ++ g :: l2)).
    { rewrite !List.map_app. cbn [List.map groupType]. now rewrite Hk. }
    assert (Hn2 : ~ In (typeOf c) (List.map groupType l2)).
    { rewrite List.map_app in Hnd. cbn [List.map] in Hnd.
      apply List.NoDup_remove_2 in Hnd. rewrite Hk in Hnd.
      intros X. apply Hnd. apply List.in_or_app. now right. }
    apply Forall_app in Hg. destruct Hg as [Hg1 Hg2].
    inversion Hg2 as [|? ? Hgg Hg2']; subst.
    apply Forall_app in Hinh. destruct Hinh as [Hi1 Hi2].
    inversion Hi2 as [|? ? Hig Hi2']; subst.
    split; [now rewrite Etypes|]. split; [|split].
    + apply Forall_app. split.
      * rewrite List.Forall_forall in *. intros h Hh.
        apply groupOf_other; [now apply Hg1|].
        intros X. apply Hn1. rewrite X. now apply List.in_map.
      * constructor.
        -- destruct Hgg as (Hc & Hne & Hd). split; [|split]; cbn [count docs groupType].
           ++ rewrite List.length_app. cbn [length]. lia.
           ++ now destruct (docs g).
           ++ rewrite filter_snoc, bool_decide_eq_true_2 by reflexivity.
              rewrite Hd, Hk. reflexivity.
        -- rewrite List.Forall_forall in *. intros h Hh.
           apply groupOf_other; [now apply Hg2'|].
           intros X. apply Hn2. rewrite X. now apply List.in_map.
    + intros c' Hc'. rewrite Etypes. apply List.in_app_or in Hc'.
      destruct Hc' as [Hc'|[<-|[]]]; [now apply Hin|].
      rewrite List.map_app. apply List.in_or_app. right. left. exact Hk.
    + apply Forall_app. split; [exact Hi1|]. constructor; [|exact Hi2'].
      cbn. now rewrite <- Hk.
  - destruct (inherited (typeOf c)) eqn:Ei; [discriminate|].
    intros H. inversion H; subst acc'. clear H.
    apply addTo_none in Ea.
    split; [|split; [|split]].
    + rewrite List.map_app. cbn [List.map groupType].
      apply List.NoDup_app; [exact Hnd| |].
      * apply List.NoDup_cons; [easy|apply List.NoDup_nil].
      * intros k Hk [<-|[]]. now apply Ea.
    + apply Forall_app. split.
      * rewrite List.Forall_forall in *. intros h Hh.
        apply groupOf_other; [now apply Hg|].
        intros X. apply Ea. rewrite X. now apply List.in_map.
      * repeat constructor; cbn [count docs groupType]; [discriminate|].
        rewrite filter_snoc, bool_decide_eq_true_2 by reflexivity.
        rewrite filter_type_none; [reflexivity|].
        intros c' Hc' X. apply Ea. rewrite <- X. now apply Hin.
    + intros c' Hc'. rewrite List.map_app. apply List.in_or_app.
      apply List.in_app_or in Hc'. destruct Hc' as [Hc'|[<-|[]]].
      * left. now apply Hin.
      * right. now left.
    + apply Forall_app. split; [exact Hinh|]. now repeat constructor.
Qed.

Lemma collect_throws seen acc c :
  collected Doc typeOf inherited seen acc ->
  inherited (typeOf c) = true ->
  collect Doc typeOf inherited acc c = None.
Proof.
  intros (_ & _ & _ & Hinh) Hc. unfold collect. cbn zeta.
  destruct (addTo Doc (typeOf c) c acc) as [r|] eqn:Ea; [|now rewrite Hc].
  destruct (addTo_some _ _ _ _ Ea) as (l1 & g & l2 & -> & Hk & _).
  apply Forall_app in Hinh. destruct Hinh as [_ Hinh].
  inversion Hinh as [|? ? Hg _]; subst. congruence.
Qed.

Lemma collect_total seen acc c :
  collected Doc typeOf inherited seen acc ->
  inherited (typeOf c) = false ->
  exists acc', collect Doc typeOf inherited acc c = Some acc'.
Proof.
  intros _ Hc. unfold collect. cbn zeta.
  destruct (addTo Doc (typeOf c) c acc); [now eexists|].
  rewrite Hc. now eexists.
Qed.

Lemma reduce_collected contents : forall seen acc,
  collected Doc typeOf inherited seen acc ->
  if existsb (fun c => inherited (typeOf c)) contents
  then reduce Doc typeOf inherited contents acc = None
  else exists final,
    reduce Doc typeOf inherited contents acc = Some final /\
    collected Doc typeOf inherited (seen ++ contents) final.
Proof.
  induction contents as [|c rest IH]; intros seen acc H; cbn [existsb reduce].
  - exists acc. now rewrite List.app_nil_r.
  - destruct (inherited (typeOf c)) eqn:Ec; cbn [orb].
    + now rewrite (collect_throws seen acc c H Ec).
    + destruct (collect_total seen acc c H Ec) as [acc' Ea]. rewrite Ea.
      specialize (IH (seen ++ [c]) acc' (collect_keeps _ _ _ _ H Ea)).
      destruct (existsb _ rest); [exact IH|].
      destruct IH as (final & Ef & Hf). exists final. split; [exact Ef|].
      now rewrite <- List.app_assoc in Hf.
Qed.

Lemma collected_nil : collected Doc typeOf inherited [] [].
Proof. repeat split; try constructor. intros c []. Qed.

(** [Object.values] lists every property once. *)
Lemma insertIndexed_perm i g l :
  Permutation (List.map snd (insertIndexed Doc i g l)) (g :: List.map snd l).
Proof.
  induction l as [|[j h] r IH]; cbn [insertIndexed List.map snd]; [reflexivity|].
  destruct (i <? j)%N; cbn [List.map snd]; [reflexivity|].
  rewrite IH. apply perm_swap.
Qed.

Lemma filter_split_perm {A} (p : A -> bool) l :
  Permutation (List.filter (fun a => negb (p a)) l ++ List.filter p l) l.
Proof.
  induction l as [|a l IH]; [reflexivity|].
  cbn [List.filter]. destruct (p a); cbn [negb app].
  - rewrite <- Permutation_middle. now apply perm_skip.
  - now apply perm_skip.
Qed.

Lemma indexed_perm acc :
  Permutation
    (List.map snd
       (fold_right (fun g l => match arrayIndex (groupType g) with
                               | Some i => insertIndexed Doc i g l
                               | None => l
                               end) [] acc))
    (List.filter (fun g => negb (isNamed Doc g)) acc).
Proof.
  induction acc as [|g rest IH]; [reflexivity|].
  cbn [fold_right List.filter]. unfold isNamed at 1.
  destruct (arrayIndex (groupType g)) as [i|]; cbn [negb].
  - rewrite insertIndexed_perm. now apply perm_skip.
  - exact IH.
Qed.

Lemma values_perm acc : Permutation (values Doc acc) acc.
Proof.
  unfold values. cbn zeta. rewrite indexed_perm. apply filter_split_perm.
Qed.

End Grouping.
End RouteFacts.

Import ContentRoute RouteFacts.

(** X25: the answer of the content route. When a document carries a type
    that names an inherited property, the grouping throws and nothing is
    answered but the error. Otherwise the answer holds one group for each
    type among the documents found, no type twice; the count of a group is
    the number of its documents, and its documents are the documents of
    that type in the order they were found. *)
Theorem content_groups_partition (Doc : Type) (typeOf : Doc -> jsstring)
    (inherited : jsstring -> bool) (contents : list Doc) :
  if existsb (fun c => inherited (typeOf c)) contents
  then grouped Doc typeOf inherited contents = None
  else exists groups,
    grouped Doc typeOf inherited contents = Some groups /\
    List.NoDup (List.map groupType groups) /\
    Forall (groupOf Doc typeOf contents) groups /\
    forall c, In c contents -> In (typeOf c) (List.map groupType groups).
Proof.
  unfold grouped.
  pose proof (reduce_collected Doc typeOf inherited contents [] []
                (collected_nil Doc typeOf inherited)) as H.
  destruct (existsb _ contents); [now rewrite H|].
  destruct H as (final & -> & Hnd & Hg & Hin & _). cbn [app] in *.
  exists (values Doc final). split; [reflexivity|].
  pose proof (values_perm Doc final) as Hp. symmetry in Hp.
  split; [|split].
  - eapply Permutation_NoDup; [|exact Hnd]. now apply Permutation_map.
  - eapply Permutation_Forall; [exact Hp|exact Hg].
  - intros c Hc. eapply Permutation_in; [|exact (Hin c Hc)].
    now apply Permutation_map.
Qed.

(** X26: what a view exports is what the route found for it. The views ask
    for one type and read the documents of the first group of the answer:
    when the documents found all carry that type, and it names no inherited
    property, the items of the view are those documents, all of them, in
    the order they were found; they are no items when nothing was found. *)
Theorem view_items_are_the_documents (Doc : Type) (typeOf : Doc -> jsstring)
    (inherited : jsstring -> bool) (type : jsstring) (contents : list Doc) :
  inherited type = false ->
  Forall (fun c => typeOf c = type) contents ->
  itemsOf (grouped Doc typeOf inherited contents) = contents.
Proof.
  intros Hinh Hall.
  assert (Hfilter : List.filter (fun c => bool_decide (typeOf c = type)) contents
                    = contents).
  { induction Hall as [|c l Hc _ IH]; [reflexivity|].
    cbn [List.filter]. rewrite bool_decide_eq_true_2 by exact Hc.
    now rewrite IH. }
  pose proof (content_groups_shape := reduce_collected Doc typeOf inherited
                contents [] [] (collected_nil Doc typeOf inherited)).
  assert (Hno : existsb (fun c => inherited (typeOf c)) contents = false).
  { clear content_groups_shape Hfilter.
    induction Hall as [|c l Hc _ IH]; [reflexivity|].
    cbn [existsb]. now rewrite Hc, Hinh, IH. }
  rewrite Hno in content_groups_shape.
  destruct content_groups_shape as (final & Ef & Hnd & Hg & Hin & _).
  cbn [app] in *. unfold grouped. rewrite Ef. cbn [option_map].
  assert (Htypes : Forall (fun g => groupType g = type /\ docs g = contents)
                     final).
  { rewrite List.Forall_forall in *. intros g Hgin.
    destruct (Hg g Hgin) as (_ & Hne & Hd).
    destruct (decide (groupType g = type)) as [E|E].
    - split; [exact E|]. now rewrite Hd, E.
    - exfalso. apply Hne. rewrite Hd. apply filter_type_none.
      intros c Hc X. apply E. rewrite <- X. now apply Hall. }
  pose proof (values_perm Doc final) as Hp. symmetry in Hp.
  destruct final as [|g [|g' rest]].
  - apply Permutation_nil in Hp. rewrite Hp. cbn.
    destruct contents as [|c l]; [reflexivity|].
    exfalso. exact (Hin c (or_introl eq_refl)).
  - apply Permutation_length_1_inv in Hp. rewrite Hp. cbn.
    apply List.Forall_inv in Htypes. now destruct Htypes.
  - exfalso. pose proof (List.Forall_inv Htypes) as [H1 _].
    pose proof (List.Forall_inv (List.Forall_inv_tail Htypes)) as [H2 _].
    cbn [List.map] in Hnd. apply List.NoDup_cons_iff in Hnd.
    destruct Hnd as [Hnotin _]. apply Hnotin. left. congruence.
Qed.

Lemma view_items_are_the_documents_witness :
  itemsOf (grouped (jsstring * nat) fst
             (fun k => bool_decide (k = lit "constructor"))
             [(lit "qa", 1%nat); (lit "qa", 2%nat)])
  = [(lit "qa", 1%nat); (lit "qa", 2%nat)].
Proof.
  refine (view_items_are_the_documents (jsstring * nat) fst
            (fun k => bool_decide (k = lit "constructor")) (lit "qa")
            [(lit "qa", 1%nat); (lit "qa", 2%nat)] _ _).
  - reflexivity.
  - repeat constructor.
Defined.
